(** * WoRB: World of Rigid Bodies -- a shallow embedding of the simulation core

    The development follows the C++ sources class by class:
    [Quaternion], [QTensor], [RigidBody], [Collision], [CollisionResolver],
    [Geometry] (with [Sphere], [Cuboid], [HalfSpace], [TruePlane]) and
    [WorldOfRigidBodies].

    Numbers.  A C++ [double] is read as a real number ([R]); [sqrt], [fabs]
    and [pow] are [sqrt], [Rabs] and [Rpower].  A floating point division
    whose divisor is zero has no real-number counterpart (the machine yields
    an infinity or a NaN), so every division of the sources goes through
    [fdiv], which stops the computation with [DivisionByZero] there.
    An [unsigned] is an integer in [0, 2^32) with the wrap-around written out.
    The theorems over this reading say which members a function assigns and
    from which expressions of the sources, which divisors are zero and what
    the loops leave; they name a computed value by the expression that
    computes it.  Where a property turns on the rounding of the numbers
    (the contact a detector registers, the momenta an impulse transfer
    leaves) the functions are given once more over the binary64 numbers of
    the machine, in the module [Binary64] at the end of the definitions.

    Pointers.  A [RigidBody*] is an index into the list of the bodies that
    exist ([option nat], the null pointer being [None]); a method that
    mutates a body through a pointer takes and returns that list, so two
    pointers to one body see each other's writes. *)

From Stdlib Require Import Reals Lra ZArith Lia String RNsatz.
From Stdlib Require PrimFloat.
From stdpp Require Import base option list.

Open Scope R_scope.

(** ** Outcomes of a computation *)

Inductive Fault : Type :=
  | DivisionByZero          (* a division whose divisor is 0 *)
  | NullPointer             (* a member access through a null pointer *)
  | OutOfBounds             (* an access outside an array or to no object *)
  | Severe (errorId : string). (* WoRB::SevereError( errorId, ... ) *)

Inductive Outcome (A : Type) : Type :=
  | Ok (a : A)
  | Raise (f : Fault).

Arguments Ok {A} a.
Arguments Raise {A} f.

#[global] Instance Outcome_ret : MRet Outcome := fun A a => Ok a.
#[global] Instance Outcome_bind : MBind Outcome := fun A B k m =>
  match m with
  | Ok a => k a
  | Raise f => Raise f
  end.

Definition succeeds {A : Type} (m : Outcome A) : Prop :=
  match m with
  | Ok _ => True
  | Raise _ => False
  end.

(** ** Numbers *)

#[global] Instance R_eq_decision : EqDecision R := Req_dec_T.
#[global] Instance Rlt_decision : RelDecision Rlt := Rlt_dec.
#[global] Instance Rle_decision : RelDecision Rle := Rle_dec.
#[global] Instance Rgt_decision : RelDecision Rgt := Rgt_dec.
#[global] Instance Rge_decision : RelDecision Rge := Rge_dec.

(** [a / b] of the sources. *)
Definition fdiv (a b : R) : Outcome R :=
  if decide (b = 0) then Raise DivisionByZero else Ok (a / b).

(** [unsigned] arithmetic. *)
Definition unsigned_modulus : Z := (2 ^ 32)%Z.
Definition unsigned_of (n : Z) : Z := (n mod unsigned_modulus)%Z.

(** The content of a [double] that the sources declare and do not assign
    (a component of [QTensor( Uninitialized )], an element of a local array).
    No value that the sources compute from assigned data depends on it. *)
Definition indeterminate : R := 0.

(** A pointer to a rigid body. *)
Definition BodyPtr : Type := option nat.

(** ** Quaternion.h *)

Module Quaternion.

Record t : Type := mk { w : R; x : R; y : R; z : R }.

(** [Quaternion ()] *)
Definition zero : t := mk 0 0 0 0.

(** [Quaternion( double scalar )], also [operator = ( double scalar )] *)
Definition of_scalar (scalar : R) : t := mk scalar 0 0 0.

(** [double operator [] ( unsigned index ) const] *)
Definition get (q : t) (index : Z) : R :=
  if decide (index <= 2)%Z then
    (if decide (index = 0)%Z then x q
     else if decide (index = 1)%Z then y q else z q)
  else w q.

(** [double& operator [] ( unsigned index )], used as an assignment *)
Definition set (q : t) (index : Z) (v : R) : t :=
  if decide (index <= 2)%Z then
    (if decide (index = 0)%Z then mk (w q) v (y q) (z q)
     else if decide (index = 1)%Z then mk (w q) (x q) v (z q)
     else mk (w q) (x q) (y q) v)
  else mk v (x q) (y q) (z q).

(** [operator - () const] *)
Definition neg (q : t) : t := mk (- w q) (- x q) (- y q) (- z q).

Definition Conjugate (q : t) : t := mk (w q) (- x q) (- y q) (- z q).

Definition SquaredNorm (q : t) : R :=
  w q * w q + x q * x q + y q * y q + z q * z q.

Definition ImSquaredNorm (q : t) : R :=
  x q * x q + y q * y q + z q * z q.

Definition Norm (q : t) : R := sqrt (SquaredNorm q).

Definition ImNorm (q : t) : R := sqrt (ImSquaredNorm q).

(** [operator + ( const Quaternion& )], [operator +=] *)
Definition add (p q : t) : t :=
  mk (w p + w q) (x p + x q) (y p + y q) (z p + z q).

(** [operator - ( const Quaternion& )], [operator -=] *)
Definition sub (p q : t) : t :=
  mk (w p - w q) (x p - x q) (y p - y q) (z p - z q).

(** [operator * ( const Quaternion& )]: the Hamilton product *)
Definition mul (p q : t) : t :=
  mk (w p * w q - x p * x q - y p * y q - z p * z q)
     (w p * x q + x p * w q + y p * z q - z p * y q)
     (w p * y q + y p * w q + z p * x q - x p * z q)
     (w p * z q + z p * w q + x p * y q - y p * x q).

(** [operator * ( double value )], [operator *= ( double value )] *)
Definition scale (q : t) (value : R) : t :=
  mk (w q * value) (x q * value) (y q * value) (z q * value).

(** [operator * ( double scalar, const Quaternion& q )] *)
Definition lscale (scalar : R) (q : t) : t :=
  mk (scalar * w q) (scalar * x q) (scalar * y q) (scalar * z q).

Definition ComponentWiseProduct (p q : t) : t :=
  mk (w p * w q) (x p * x q) (y p * y q) (z p * z q).

Definition Cross (p q : t) : t :=
  mk 0
     (y p * z q - z p * y q)
     (z p * x q - x p * z q)
     (x p * y q - y p * x q).

Definition Dot (p q : t) : R := x p * x q + y p * y q + z p * z q.

(** [Quaternion& Normalize( double length = 1.0 )] *)
Definition Normalize (q : t) (length : R) : Outcome t :=
  let norm := Norm q in
  if decide (norm = 0) then
    Ok (mk length (x q) (y q) (z q))
  else
    f ← fdiv length norm;
    Ok (scale q f).

(** [Quaternion Unit( double length = 1.0 ) const] *)
Definition Unit (q : t) (length : R) : Outcome t := Normalize q length.

(** [SpatialVector( double x, double y, double z )] *)
Definition SpatialVector (vx vy vz : R) : t := mk 0 vx vy vz.

(** [static Quaternion FromAxisAngle( double angle, double vx, double vy,
    double vz )] *)
Definition FromAxisAngle (angle vx vy vz : R) : Outcome t :=
  let norm := sqrt (vx * vx + vy * vy + vz * vz) in
  if decide (norm = 0) then Ok (of_scalar 1)
  else
    half ← fdiv angle 2;
    let Re := cos half in
    half ← fdiv angle 2;
    Im ← fdiv (sin half) norm;
    Ok (mk Re (Im * vx) (Im * vy) (Im * vz)).

(** [Quaternion& Trim( double size )] *)
Definition Trim (q : t) (size : R) : Outcome t :=
  if decide (ImSquaredNorm q > size * size) then Normalize q size
  else Ok q.

(** [Quaternion& Zeroize( double eps = 1e-4 )] *)
Definition Zeroize (q : t) (eps : R) : t :=
  let q := if decide (Rabs (x q) < eps) then mk (w q) 0 (y q) (z q) else q in
  let q := if decide (Rabs (y q) < eps) then mk (w q) (x q) 0 (z q) else q in
  let q := if decide (Rabs (z q) < eps) then mk (w q) (x q) (y q) 0 else q in
  if decide (Rabs (w q) < eps) then mk 0 (x q) (y q) (z q) else q.

End Quaternion.

(** ** QTensor.h *)

Module QTensor.

(** [struct Components], in the order of the memory layout
    (column-major: [data[ row + column * 4 ]]). *)
Record t : Type := mk {
  xx : R; yx : R; zx : R; wx : R;
  xy : R; yy : R; zy : R; wy : R;
  xz : R; yz : R; zz : R; wz : R;
  xw : R; yw : R; zw : R; ww : R
}.

(** [QTensor( Uninitialized )] *)
Definition Uninitialized : t :=
  mk indeterminate indeterminate indeterminate indeterminate
     indeterminate indeterminate indeterminate indeterminate
     indeterminate indeterminate indeterminate indeterminate
     indeterminate indeterminate indeterminate indeterminate.

(** [SetComponents( double valueForAllComponents )] *)
Definition SetComponents (v : R) : t :=
  mk v v v v  v v v v  v v v v  v v v v.

(** [QTensor( Normalized )], the default constructor *)
Definition Normalized : t :=
  mk 0 0 0 0  0 0 0 0  0 0 0 0  0 0 0 1.

(** [QTensor( Zero )] *)
Definition Zero : t := SetComponents 0.

(** [QTensor( Identity )] *)
Definition Identity : t :=
  mk 1 0 0 0  0 1 0 0  0 0 1 0  0 0 0 1.

(** [QTensor( double xx, double yy, double zz, double ww = 1.0 )] *)
Definition diagonal (vxx vyy vzz vww : R) : t :=
  mk vxx 0 0 0  0 vyy 0 0  0 0 vzz 0  0 0 0 vww.

Definition SetColumnVectors (v1 v2 v3 : Quaternion.t) : t :=
  mk (Quaternion.x v1) (Quaternion.y v1) (Quaternion.z v1) 0
     (Quaternion.x v2) (Quaternion.y v2) (Quaternion.z v2) 0
     (Quaternion.x v3) (Quaternion.y v3) (Quaternion.z v3) 0
     0 0 0 1.

Definition SetSkewSymmetric (q : Quaternion.t) : t :=
  mk 0 (Quaternion.z q) (- Quaternion.y q) 0
     (- Quaternion.z q) 0 (Quaternion.x q) 0
     (Quaternion.y q) (- Quaternion.x q) 0 0
     0 0 0 0.

Definition SetFromOrientationAndPosition (q translate : Quaternion.t) : t :=
  let qw := Quaternion.w q in
  let qx := Quaternion.x q in
  let qy := Quaternion.y q in
  let qz := Quaternion.z q in
  mk (1 - 2 * (qy * qy + qz * qz))
     (2 * (qx * qy + qw * qz))
     (2 * (qx * qz - qw * qy))
     0
     (2 * (qx * qy - qw * qz))
     (1 - 2 * (qx * qx + qz * qz))
     (2 * (qy * qz + qw * qx))
     0
     (2 * (qx * qz + qw * qy))
     (2 * (qy * qz - qw * qx))
     (1 - 2 * (qx * qx + qy * qy))
     0
     (Quaternion.x translate) (Quaternion.y translate) (Quaternion.z translate)
     1.

(** [Quaternion Column( unsigned j ) const]:
    [p = data + j * 4; Quaternion( p[3], p[0], p[1], p[2] )] *)
Definition Column (m : t) (j : Z) : Outcome Quaternion.t :=
  if decide (j = 0)%Z then Ok (Quaternion.mk (wx m) (xx m) (yx m) (zx m))
  else if decide (j = 1)%Z then Ok (Quaternion.mk (wy m) (xy m) (yy m) (zy m))
  else if decide (j = 2)%Z then Ok (Quaternion.mk (wz m) (xz m) (yz m) (zz m))
  else if decide (j = 3)%Z then Ok (Quaternion.mk (ww m) (xw m) (yw m) (zw m))
  else Raise OutOfBounds.

(** Component-wise operations over [data[ 0 .. Length )]. *)
Definition map (f : R -> R) (m : t) : t :=
  mk (f (xx m)) (f (yx m)) (f (zx m)) (f (wx m))
     (f (xy m)) (f (yy m)) (f (zy m)) (f (wy m))
     (f (xz m)) (f (yz m)) (f (zz m)) (f (wz m))
     (f (xw m)) (f (yw m)) (f (zw m)) (f (ww m)).

Definition map2 (f : R -> R -> R) (m n : t) : t :=
  mk (f (xx m) (xx n)) (f (yx m) (yx n)) (f (zx m) (zx n)) (f (wx m) (wx n))
     (f (xy m) (xy n)) (f (yy m) (yy n)) (f (zy m) (zy n)) (f (wy m) (wy n))
     (f (xz m) (xz n)) (f (yz m) (yz n)) (f (zz m) (zz n)) (f (wz m) (wz n))
     (f (xw m) (xw n)) (f (yw m) (yw n)) (f (zw m) (zw n)) (f (ww m) (ww n)).

(** [operator - () const] *)
Definition neg (m : t) : t := map Ropp m.

(** [operator + ( const QTensor& )], [operator +=] *)
Definition add (m n : t) : t := map2 Rplus m n.

(** [operator - ( const QTensor& )], [operator -=] *)
Definition sub (m n : t) : t := map2 Rminus m n.

(** [operator * ( double scalar )], [operator *=] *)
Definition scale (m : t) (scalar : R) : t := map (fun c => c * scalar) m.

(** [Quaternion operator * ( const Quaternion& q ) const] and
    [Quaternion operator () ( const Quaternion& q ) const] *)
Definition apply (m : t) (q : Quaternion.t) : Quaternion.t :=
  let qx := Quaternion.x q in
  let qy := Quaternion.y q in
  let qz := Quaternion.z q in
  Quaternion.mk 0
    (qx * xx m + qy * xy m + qz * xz m + xw m)
    (qx * yx m + qy * yy m + qz * yz m + yw m)
    (qx * zx m + qy * zy m + qz * zz m + zw m).

(** [QTensor operator * ( const QTensor& T ) const] *)
Definition mul (m T : t) : t :=
  mk (xx m * xx T + xy m * yx T + xz m * zx T)
     (yx m * xx T + yy m * yx T + yz m * zx T)
     (zx m * xx T + zy m * yx T + zz m * zx T)
     0
     (xx m * xy T + xy m * yy T + xz m * zy T)
     (yx m * xy T + yy m * yy T + yz m * zy T)
     (zx m * xy T + zy m * yy T + zz m * zy T)
     0
     (xx m * xz T + xy m * yz T + xz m * zz T)
     (yx m * xz T + yy m * yz T + yz m * zz T)
     (zx m * xz T + zy m * yz T + zz m * zz T)
     0
     (xx m * xw T + xy m * yw T + xz m * zw T + xw m)
     (yx m * xw T + yy m * yw T + yz m * zw T + yw m)
     (zx m * xw T + zy m * yw T + zz m * zw T + zw m)
     1.

Definition Determinant (m : t) : R :=
  - zx m * yy m * xz m
  + yx m * zy m * xz m
  + zx m * xy m * yz m
  - xx m * zy m * yz m
  - yx m * xy m * zz m
  + xx m * yy m * zz m.

(** [data[i] /= det_T] for every component *)
Definition div_components (m : t) (d : R) : Outcome t :=
  if decide (d = 0) then Raise DivisionByZero
  else Ok (map (fun c => c / d) m).

(** [QTensor& SetInverseOf( const QTensor& T )]; [self] is the tensor the
    method is called on, whose last row the method does not assign before
    it divides every component by the determinant. *)
Definition SetInverseOf (self T : t) : Outcome t :=
  let det_T := Determinant T in
  if decide (det_T = 0) then Ok (SetComponents 0)
  else
    div_components
      (mk (- zy T * yz T + yy T * zz T)
          (zx T * yz T - yx T * zz T)
          (- zx T * yy T + yx T * zy T)
          (wx self)
          (zy T * xz T - xy T * zz T)
          (- zx T * xz T + xx T * zz T)
          (zx T * xy T - xx T * zy T)
          (wy self)
          (- yy T * xz T + xy T * yz T)
          (yx T * xz T - xx T * yz T)
          (- yx T * xy T + xx T * yy T)
          (wz self)
          (zy T * yz T * xw T
           - yy T * zz T * xw T
           - zy T * xz T * yw T
           + xy T * zz T * yw T
           + yy T * xz T * zw T
           - xy T * yz T * zw T)
          (- zx T * yz T * xw T
           + yx T * zz T * xw T
           + zx T * xz T * yw T
           - xx T * zz T * yw T
           - yx T * xz T * zw T
           + xx T * yz T * zw T)
          (zx T * yy T * xw T
           - yx T * zy T * xw T
           - zx T * xy T * yw T
           + xx T * zy T * yw T
           + yx T * xy T * zw T
           - xx T * yy T * zw T)
          (ww self))
      det_T.

(** [QTensor Inverse () const] *)
Definition Inverse (m : t) : Outcome t := SetInverseOf Uninitialized m.

(** [Quaternion TransformInverse( const Quaternion &q ) const] *)
Definition TransformInverse (m : t) (q : Quaternion.t) : Quaternion.t :=
  let del := Quaternion.sub q (Quaternion.mk 0 (xw m) (yw m) (zw m)) in
  let dx := Quaternion.x del in
  let dy := Quaternion.y del in
  let dz := Quaternion.z del in
  Quaternion.mk 0
    (dx * xx m + dy * yx m + dz * zx m)
    (dx * xy m + dy * yy m + dz * zy m)
    (dx * xz m + dy * yz m + dz * zz m).

(** [QTensor operator () ( const QTensor& T ) const]:
    [this * T * Transpose]; the source assigns [wx], [wy] and [ww]
    of the result and leaves [wz] as it is. *)
Definition transform (m T : t) : t :=
  let t_xx := xx m * xx T + xy m * yx T + xz m * zx T in
  let t_xy := xx m * xy T + xy m * yy T + xz m * zy T in
  let t_xz := xx m * xz T + xy m * yz T + xz m * zz T in
  let t_yx := yx m * xx T + yy m * yx T + yz m * zx T in
  let t_yy := yx m * xy T + yy m * yy T + yz m * zy T in
  let t_yz := yx m * xz T + yy m * yz T + yz m * zz T in
  let t_zx := zx m * xx T + zy m * yx T + zz m * zx T in
  let t_zy := zx m * xy T + zy m * yy T + zz m * zy T in
  let t_zz := zx m * xz T + zy m * yz T + zz m * zz T in
  mk (t_xx * xx m + t_xy * xy m + t_xz * xz m)
     (t_yx * xx m + t_yy * xy m + t_yz * xz m)
     (t_zx * xx m + t_zy * xy m + t_zz * xz m)
     0
     (t_xx * yx m + t_xy * yy m + t_xz * yz m)
     (t_yx * yx m + t_yy * yy m + t_yz * yz m)
     (t_zx * yx m + t_zy * yy m + t_zz * yz m)
     0
     (t_xx * zx m + t_xy * zy m + t_xz * zz m)
     (t_yx * zx m + t_yy * zy m + t_yz * zz m)
     (t_zx * zx m + t_zy * zy m + t_zz * zz m)
     indeterminate
     0 0 0 1.

(** [QTensor TransformInverse( const QTensor &T ) const]:
    [Transpose * T * this], with the same unassigned [wz]. *)
Definition TransformInverseTensor (m T : t) : t :=
  let t_xx := xx m * xx T + yx m * yx T + zx m * zx T in
  let t_xy := xx m * xy T + yx m * yy T + zx m * zy T in
  let t_xz := xx m * xz T + yx m * yz T + zx m * zz T in
  let t_yx := xy m * xx T + yy m * yx T + zy m * zx T in
  let t_yy := xy m * xy T + yy m * yy T + zy m * zy T in
  let t_yz := xy m * xz T + yy m * yz T + zy m * zz T in
  let t_zx := xz m * xx T + yz m * yx T + zz m * zx T in
  let t_zy := xz m * xy T + yz m * yy T + zz m * zy T in
  let t_zz := xz m * xz T + yz m * yz T + zz m * zz T in
  mk (t_xx * xx m + t_xy * yx m + t_xz * zx m)
     (t_yx * xx m + t_yy * yx m + t_yz * zx m)
     (t_zx * xx m + t_zy * yx m + t_zz * zx m)
     0
     (t_xx * xy m + t_xy * yy m + t_xz * zy m)
     (t_yx * xy m + t_yy * yy m + t_yz * zy m)
     (t_zx * xy m + t_zy * yy m + t_zz * zy m)
     0
     (t_xx * xz m + t_xy * yz m + t_xz * zz m)
     (t_yx * xz m + t_yy * yz m + t_yz * zz m)
     (t_zx * xz m + t_zy * yz m + t_zz * zz m)
     indeterminate
     0 0 0 1.

End QTensor.

(** ** RigidBody.h *)

Module RigidBody.

Record t : Type := mk {
  InverseMass : R;
  InverseInertiaBody : QTensor.t;
  Position : Quaternion.t;
  Orientation : Quaternion.t;
  LinearMomentum : Quaternion.t;
  AngularMomentum : Quaternion.t;
  ToWorld : QTensor.t;
  InverseInertiaWorld : QTensor.t;
  Velocity : Quaternion.t;
  AngularVelocity : Quaternion.t;
  TotalAngularMomentum : Quaternion.t;
  KineticEnergy : R;
  PotentialEnergy : R;
  AverageKineticEnergy : R;
  KineticEnergyThreshold : R;
  KineticEnergyDamping : bool;
  Force : Quaternion.t;
  Torque : Quaternion.t;
  IsActive : bool;
  CanBeDeactivated : bool
}.

(** Assignments to one member. *)
Definition set_InverseMass (v : R) (b : t) : t :=
  mk v (InverseInertiaBody b) (Position b) (Orientation b)
    (LinearMomentum b) (AngularMomentum b) (ToWorld b)
    (InverseInertiaWorld b) (Velocity b) (AngularVelocity b)
    (TotalAngularMomentum b) (KineticEnergy b) (PotentialEnergy b)
    (AverageKineticEnergy b) (KineticEnergyThreshold b)
    (KineticEnergyDamping b) (Force b) (Torque b) (IsActive b)
    (CanBeDeactivated b).
Definition set_InverseInertiaBody (v : QTensor.t) (b : t) : t :=
  mk (InverseMass b) v (Position b) (Orientation b) (LinearMomentum b)
    (AngularMomentum b) (ToWorld b) (InverseInertiaWorld b) (Velocity b)
    (AngularVelocity b) (TotalAngularMomentum b) (KineticEnergy b)
    (PotentialEnergy b) (AverageKineticEnergy b) (KineticEnergyThreshold b)
    (KineticEnergyDamping b) (Force b) (Torque b) (IsActive b)
    (CanBeDeactivated b).
Definition set_Position (v : Quaternion.t) (b : t) : t :=
  mk (InverseMass b) (InverseInertiaBody b) v (Orientation b)
    (LinearMomentum b) (AngularMomentum b) (ToWorld b)
    (InverseInertiaWorld b) (Velocity b) (AngularVelocity b)
    (TotalAngularMomentum b) (KineticEnergy b) (PotentialEnergy b)
    (AverageKineticEnergy b) (KineticEnergyThreshold b)
    (KineticEnergyDamping b) (Force b) (Torque b) (IsActive b)
    (CanBeDeactivated b).
Definition set_Orientation (v : Quaternion.t) (b : t) : t :=
  mk (InverseMass b) (InverseInertiaBody b) (Position b) v
    (LinearMomentum b) (AngularMomentum b) (ToWorld b)
    (InverseInertiaWorld b) (Velocity b) (AngularVelocity b)
    (TotalAngularMomentum b) (KineticEnergy b) (PotentialEnergy b)
    (AverageKineticEnergy b) (KineticEnergyThreshold b)
    (KineticEnergyDamping b) (Force b) (Torque b) (IsActive b)
    (CanBeDeactivated b).
Definition set_LinearMomentum (v : Quaternion.t) (b : t) : t :=
  mk (InverseMass b) (InverseInertiaBody b) (Position b) (Orientation b) v
    (AngularMomentum b) (ToWorld b) (InverseInertiaWorld b) (Velocity b)
    (AngularVelocity b) (TotalAngularMomentum b) (KineticEnergy b)
    (PotentialEnergy b) (AverageKineticEnergy b) (KineticEnergyThreshold b)
    (KineticEnergyDamping b) (Force b) (Torque b) (IsActive b)
    (CanBeDeactivated b).
Definition set_AngularMomentum (v : Quaternion.t) (b : t) : t :=
  mk (InverseMass b) (InverseInertiaBody b) (Position b) (Orientation b)
    (LinearMomentum b) v (ToWorld b) (InverseInertiaWorld b) (Velocity b)
    (AngularVelocity b) (TotalAngularMomentum b) (KineticEnergy b)
    (PotentialEnergy b) (AverageKineticEnergy b) (KineticEnergyThreshold b)
    (KineticEnergyDamping b) (Force b) (Torque b) (IsActive b)
    (CanBeDeactivated b).
Definition set_ToWorld (v : QTensor.t) (b : t) : t :=
  mk (InverseMass b) (InverseInertiaBody b) (Position b) (Orientation b)
    (LinearMomentum b) (AngularMomentum b) v (InverseInertiaWorld b)
    (Velocity b) (AngularVelocity b) (TotalAngularMomentum b)
    (KineticEnergy b) (PotentialEnergy b) (AverageKineticEnergy b)
    (KineticEnergyThreshold b) (KineticEnergyDamping b) (Force b) (Torque b)
    (IsActive b) (CanBeDeactivated b).
Definition set_InverseInertiaWorld (v : QTensor.t) (b : t) : t :=
  mk (InverseMass b) (InverseInertiaBody b) (Position b) (Orientation b)
    (LinearMomentum b) (AngularMomentum b) (ToWorld b) v (Velocity b)
    (AngularVelocity b) (TotalAngularMomentum b) (KineticEnergy b)
    (PotentialEnergy b) (AverageKineticEnergy b) (KineticEnergyThreshold b)
    (KineticEnergyDamping b) (Force b) (Torque b) (IsActive b)
    (CanBeDeactivated b).
Definition set_Velocity (v : Quaternion.t) (b : t) : t :=
  mk (InverseMass b) (InverseInertiaBody b) (Position b) (Orientation b)
    (LinearMomentum b) (AngularMomentum b) (ToWorld b)
    (InverseInertiaWorld b) v (AngularVelocity b) (TotalAngularMomentum b)
    (KineticEnergy b) (PotentialEnergy b) (AverageKineticEnergy b)
    (KineticEnergyThreshold b) (KineticEnergyDamping b) (Force b) (Torque b)
    (IsActive b) (CanBeDeactivated b).
Definition set_AngularVelocity (v : Quaternion.t) (b : t) : t :=
  mk (InverseMass b) (InverseInertiaBody b) (Position b) (Orientation b)
    (LinearMomentum b) (AngularMomentum b) (ToWorld b)
    (InverseInertiaWorld b) (Velocity b) v (TotalAngularMomentum b)
    (KineticEnergy b) (PotentialEnergy b) (AverageKineticEnergy b)
    (KineticEnergyThreshold b) (KineticEnergyDamping b) (Force b) (Torque b)
    (IsActive b) (CanBeDeactivated b).
Definition set_TotalAngularMomentum (v : Quaternion.t) (b : t) : t :=
  mk (InverseMass b) (InverseInertiaBody b) (Position b) (Orientation b)
    (LinearMomentum b) (AngularMomentum b) (ToWorld b)
    (InverseInertiaWorld b) (Velocity b) (AngularVelocity b) v
    (KineticEnergy b) (PotentialEnergy b) (AverageKineticEnergy b)
    (KineticEnergyThreshold b) (KineticEnergyDamping b) (Force b) (Torque b)
    (IsActive b) (CanBeDeactivated b).
Definition set_KineticEnergy (v : R) (b : t) : t :=
  mk (InverseMass b) (InverseInertiaBody b) (Position b) (Orientation b)
    (LinearMomentum b) (AngularMomentum b) (ToWorld b)
    (InverseInertiaWorld b) (Velocity b) (AngularVelocity b)
    (TotalAngularMomentum b) v (PotentialEnergy b) (AverageKineticEnergy b)
    (KineticEnergyThreshold b) (KineticEnergyDamping b) (Force b) (Torque b)
    (IsActive b) (CanBeDeactivated b).
Definition set_PotentialEnergy (v : R) (b : t) : t :=
  mk (InverseMass b) (InverseInertiaBody b) (Position b) (Orientation b)
    (LinearMomentum b) (AngularMomentum b) (ToWorld b)
    (InverseInertiaWorld b) (Velocity b) (AngularVelocity b)
    (TotalAngularMomentum b) (KineticEnergy b) v (AverageKineticEnergy b)
    (KineticEnergyThreshold b) (KineticEnergyDamping b) (Force b) (Torque b)
    (IsActive b) (CanBeDeactivated b).
Definition set_AverageKineticEnergy (v : R) (b : t) : t :=
  mk (InverseMass b) (InverseInertiaBody b) (Position b) (Orientation b)
    (LinearMomentum b) (AngularMomentum b) (ToWorld b)
    (InverseInertiaWorld b) (Velocity b) (AngularVelocity b)
    (TotalAngularMomentum b) (KineticEnergy b) (PotentialEnergy b) v
    (KineticEnergyThreshold b) (KineticEnergyDamping b) (Force b) (Torque b)
    (IsActive b) (CanBeDeactivated b).
Definition set_KineticEnergyThreshold (v : R) (b : t) : t :=
  mk (InverseMass b) (InverseInertiaBody b) (Position b) (Orientation b)
    (LinearMomentum b) (AngularMomentum b) (ToWorld b)
    (InverseInertiaWorld b) (Velocity b) (AngularVelocity b)
    (TotalAngularMomentum b) (KineticEnergy b) (PotentialEnergy b)
    (AverageKineticEnergy b) v (KineticEnergyDamping b) (Force b) (Torque b)
    (IsActive b) (CanBeDeactivated b).
Definition set_KineticEnergyDamping (v : bool) (b : t) : t :=
  mk (InverseMass b) (InverseInertiaBody b) (Position b) (Orientation b)
    (LinearMomentum b) (AngularMomentum b) (ToWorld b)
    (InverseInertiaWorld b) (Velocity b) (AngularVelocity b)
    (TotalAngularMomentum b) (KineticEnergy b) (PotentialEnergy b)
    (AverageKineticEnergy b) (KineticEnergyThreshold b) v (Force b)
    (Torque b) (IsActive b) (CanBeDeactivated b).
Definition set_Force (v : Quaternion.t) (b : t) : t :=
  mk (InverseMass b) (InverseInertiaBody b) (Position b) (Orientation b)
    (LinearMomentum b) (AngularMomentum b) (ToWorld b)
    (InverseInertiaWorld b) (Velocity b) (AngularVelocity b)
    (TotalAngularMomentum b) (KineticEnergy b) (PotentialEnergy b)
    (AverageKineticEnergy b) (KineticEnergyThreshold b)
    (KineticEnergyDamping b) v (Torque b) (IsActive b) (CanBeDeactivated b).
Definition set_Torque (v : Quaternion.t) (b : t) : t :=
  mk (InverseMass b) (InverseInertiaBody b) (Position b) (Orientation b)
    (LinearMomentum b) (AngularMomentum b) (ToWorld b)
    (InverseInertiaWorld b) (Velocity b) (AngularVelocity b)
    (TotalAngularMomentum b) (KineticEnergy b) (PotentialEnergy b)
    (AverageKineticEnergy b) (KineticEnergyThreshold b)
    (KineticEnergyDamping b) (Force b) v (IsActive b) (CanBeDeactivated b).
Definition set_IsActive (v : bool) (b : t) : t :=
  mk (InverseMass b) (InverseInertiaBody b) (Position b) (Orientation b)
    (LinearMomentum b) (AngularMomentum b) (ToWorld b)
    (InverseInertiaWorld b) (Velocity b) (AngularVelocity b)
    (TotalAngularMomentum b) (KineticEnergy b) (PotentialEnergy b)
    (AverageKineticEnergy b) (KineticEnergyThreshold b)
    (KineticEnergyDamping b) (Force b) (Torque b) v (CanBeDeactivated b).
Definition set_CanBeDeactivated (v : bool) (b : t) : t :=
  mk (InverseMass b) (InverseInertiaBody b) (Position b) (Orientation b)
    (LinearMomentum b) (AngularMomentum b) (ToWorld b)
    (InverseInertiaWorld b) (Velocity b) (AngularVelocity b)
    (TotalAngularMomentum b) (KineticEnergy b) (PotentialEnergy b)
    (AverageKineticEnergy b) (KineticEnergyThreshold b)
    (KineticEnergyDamping b) (Force b) (Torque b) (IsActive b) v.

(** [RigidBody ()] *)
Definition new : t :=
  mk 0 QTensor.Normalized Quaternion.zero Quaternion.zero Quaternion.zero
    Quaternion.zero QTensor.Identity QTensor.Normalized Quaternion.zero
    Quaternion.zero Quaternion.zero 0 0 0 0 false Quaternion.zero
    Quaternion.zero false false.

(** [double Mass () const] *)
Definition Mass (b : t) : Outcome R :=
  if decide (InverseMass b = 0) then Ok 1e+30
  else if decide (InverseMass b >= 1e+30) then Ok 0.0
  else fdiv 1.0 (InverseMass b).

(** [void SetupMass( double mass )] *)
Definition SetupMass (mass : R) (b : t) : Outcome t :=
  im ← (if decide (mass = 0) then Ok 1e+30
        else if decide (mass >= 1e+30) then Ok 0.0
        else fdiv 1.0 mass);
  let b := set_InverseMass im b in
  Ok (set_KineticEnergyThreshold (0.3 * mass) b).

(** [bool IsFiniteMass () const] *)
Definition IsFiniteMass (b : t) : bool := bool_decide (InverseMass b > 0.0).

(** [void CalculateDerivedQuantities( bool fromMomenta = true )] *)
Definition CalculateDerivedQuantities (fromMomenta : bool) (b : t)
    : Outcome t :=
  q ← Quaternion.Normalize (Orientation b) 1.0;
  let b := set_Orientation q b in
  let b := set_ToWorld
    (QTensor.SetFromOrientationAndPosition (Orientation b) (Position b)) b in
  let b := set_InverseInertiaWorld
    (QTensor.transform (ToWorld b) (InverseInertiaBody b)) b in
  b ← (if fromMomenta then
         let b := set_Velocity
           (Quaternion.lscale (InverseMass b) (LinearMomentum b)) b in
         Ok (set_AngularVelocity
           (QTensor.apply (InverseInertiaWorld b) (AngularMomentum b)) b)
       else
         m ← Mass b;
         let b := set_LinearMomentum (Quaternion.lscale m (Velocity b)) b in
         inertia ← QTensor.Inverse (InverseInertiaWorld b);
         Ok (set_AngularMomentum
           (QTensor.apply inertia (AngularVelocity b)) b));
  let b := set_TotalAngularMomentum
    (Quaternion.add (Quaternion.Cross (Position b) (LinearMomentum b))
                    (AngularMomentum b)) b in
  Ok (set_KineticEnergy
    (0.5 * Quaternion.Dot (Velocity b) (LinearMomentum b)
     + 0.5 * Quaternion.Dot (AngularVelocity b) (AngularMomentum b)) b).

(** [void DampMomentum( double timeStep )] *)
Definition DampMomentum (timeStep : R) (b : t) : t :=
  let linearDamping := 0 in
  let angularDamping := 0.998 in
  let b :=
    if decide (linearDamping > 0) then
      set_LinearMomentum
        (Quaternion.scale (LinearMomentum b) (Rpower linearDamping timeStep)) b
    else b in
  if decide (angularDamping > 0) then
    set_AngularMomentum
      (Quaternion.scale (AngularMomentum b) (Rpower angularDamping timeStep)) b
  else b.

(** [void Deactivate ()] *)
Definition Deactivate (b : t) : t :=
  let b := set_IsActive false b in
  let b := set_LinearMomentum (Quaternion.of_scalar 0.0) b in
  let b := set_AngularMomentum (Quaternion.of_scalar 0.0) b in
  let b := set_TotalAngularMomentum (Quaternion.of_scalar 0.0) b in
  let b := set_Velocity (Quaternion.of_scalar 0) b in
  let b := set_AngularVelocity (Quaternion.of_scalar 0) b in
  let b := set_KineticEnergy 0 b in
  let b := set_Force (Quaternion.of_scalar 0.0) b in
  set_Torque (Quaternion.of_scalar 0.0) b.

(** [void Activate ()] *)
Definition Activate (b : t) : Outcome t :=
  if negb (IsActive b) then
    let b := set_IsActive true b in
    m ← Mass b;
    Ok (set_AverageKineticEnergy (2 * 0.3 * m) b)
  else Ok b.

(** [void SetCanBeDeactivated( bool flag = true )] *)
Definition SetCanBeDeactivated (flag : bool) (b : t) : Outcome t :=
  let b := set_CanBeDeactivated flag b in
  if negb (CanBeDeactivated b) && negb (IsActive b) then Activate b
  else Ok b.

(** [void SolveODE( double h )] *)
Definition SolveODE (h : R) (b : t) : Outcome t :=
  if negb (IsActive b) then Ok b
  else
    let b := set_LinearMomentum
      (Quaternion.add (LinearMomentum b) (Quaternion.scale (Force b) h)) b in
    let b := set_AngularMomentum
      (Quaternion.add (AngularMomentum b) (Quaternion.scale (Torque b) h)) b in
    let b := if KineticEnergyDamping b then DampMomentum h b else b in
    let b := set_Velocity
      (Quaternion.lscale (InverseMass b) (LinearMomentum b)) b in
    let b := set_AngularVelocity
      (QTensor.apply (InverseInertiaWorld b) (AngularMomentum b)) b in
    let OrientationDot :=
      Quaternion.mul (Quaternion.lscale 0.5 (AngularVelocity b))
                     (Orientation b) in
    let b := set_Position
      (Quaternion.add (Position b) (Quaternion.scale (Velocity b) h)) b in
    let b := set_Orientation
      (Quaternion.add (Orientation b) (Quaternion.scale OrientationDot h)) b in
    b ← CalculateDerivedQuantities true b;
    if CanBeDeactivated b then
      let alpha := Rpower 0.5 h in
      let b := set_AverageKineticEnergy
        (alpha * AverageKineticEnergy b + (1 - alpha) * KineticEnergy b) b in
      if decide (AverageKineticEnergy b < KineticEnergyThreshold b) then
        Ok (Deactivate b)
      else if decide (AverageKineticEnergy b > 10 * KineticEnergyThreshold b)
      then Ok (set_AverageKineticEnergy (10 * KineticEnergyThreshold b) b)
      else Ok b
    else Ok b.

(** [void Set_XQVW( X, Q, V, W )] *)
Definition Set_XQVW (X Q V W : Quaternion.t) (b : t) : Outcome t :=
  let b := set_Position X b in
  let b := set_Orientation Q b in
  let b := set_Velocity V b in
  let b := set_AngularVelocity W b in
  CalculateDerivedQuantities false b.

(** [void SetMomentOfInertia( const QTensor& I_body )] *)
Definition SetMomentOfInertia (I_body : QTensor.t) (b : t) : Outcome t :=
  inv ← QTensor.SetInverseOf (InverseInertiaBody b) I_body;
  Ok (set_InverseInertiaBody inv b).

(** [void ClearAccumulators ()] *)
Definition ClearAccumulators (b : t) : t :=
  let b := set_Force (Quaternion.of_scalar 0) b in
  let b := set_Torque (Quaternion.of_scalar 0) b in
  set_PotentialEnergy 0 b.

(** [void AddExternalForce( force, potentialEnergy = 0 )] *)
Definition AddExternalForce (force : Quaternion.t) (potentialEnergy : R)
    (b : t) : t :=
  let b := set_Force (Quaternion.add (Force b) force) b in
  set_PotentialEnergy (PotentialEnergy b + potentialEnergy) b.

(** [void AddForce( force, potentialEnergy = 0 )] *)
Definition AddForce (force : Quaternion.t) (potentialEnergy : R) (b : t)
    : t :=
  let b := set_Force (Quaternion.add (Force b) force) b in
  let b := set_PotentialEnergy (PotentialEnergy b + potentialEnergy) b in
  set_IsActive true b.

(** [void AddForceAtPoint( worldPoint, force, potentialEnergy = 0 )] *)
Definition AddForceAtPoint (worldPoint force : Quaternion.t)
    (potentialEnergy : R) (b : t) : t :=
  let b := set_Force (Quaternion.add (Force b) force) b in
  let b := set_Torque
    (Quaternion.add (Torque b)
       (Quaternion.Cross (Quaternion.sub worldPoint (Position b)) force)) b in
  let b := set_PotentialEnergy (PotentialEnergy b + potentialEnergy) b in
  set_IsActive true b.

(** [void AddForceAtBodyPoint( bodyPoint, force, potentialEnergy = 0 )] *)
Definition AddForceAtBodyPoint (bodyPoint force : Quaternion.t)
    (potentialEnergy : R) (b : t) : t :=
  AddForceAtPoint (QTensor.apply (ToWorld b) bodyPoint) force
    potentialEnergy b.

(** [void AddTorque( const Quaternion& torque )] *)
Definition AddTorque (torque : Quaternion.t) (b : t) : t :=
  let b := set_Torque (Quaternion.add (Torque b) torque) b in
  set_IsActive true b.

End RigidBody.

(** The rigid bodies that exist, and the accesses through a pointer. *)
Abbreviation Bodies := (list RigidBody.t).

Definition load (s : Bodies) (p : BodyPtr) : Outcome RigidBody.t :=
  match p with
  | None => Raise NullPointer
  | Some i =>
      match s !! i with
      | Some b => Ok b
      | None => Raise OutOfBounds
      end
  end.

Definition store (s : Bodies) (p : BodyPtr) (b : RigidBody.t) : Outcome Bodies :=
  match p with
  | None => Raise NullPointer
  | Some i =>
      match s !! i with
      | Some _ => Ok (<[i := b]> s)
      | None => Raise OutOfBounds
      end
  end.

(** [for ( unsigned i = first; i < first + count; ++i ) body], with the
    state the body works on passed along. *)
Fixpoint for_each {S : Type} (indices : list nat)
    (body : nat -> S -> Outcome S) (st : S) : Outcome S :=
  match indices with
  | [] => Ok st
  | i :: rest => st ← body i st; for_each rest body st
  end.

(** [for ( unsigned i = first; i < first + count && cond; ++i ) body] *)
Fixpoint for_each_while {S : Type} (indices : list nat) (cond : S -> bool)
    (body : nat -> S -> Outcome S) (st : S) : Outcome S :=
  match indices with
  | [] => Ok st
  | i :: rest =>
      if cond st then st ← body i st; for_each_while rest cond body st
      else Ok st
  end.

(** ** Collision.h, ImpulseMethod.cpp, PositionProjections.cpp: one contact *)

Module Collision.

Record t : Type := mk {
  Body_A : BodyPtr;
  Body_B : BodyPtr;
  Position : Quaternion.t;
  Normal : Quaternion.t;
  Penetration : R;
  Restitution : R;
  Friction : R;
  ToWorld : QTensor.t;
  Velocity : Quaternion.t;
  BouncingVelocity : R;
  RelativePosition_0 : Quaternion.t;
  RelativePosition_1 : Quaternion.t
}.

(** Assignments to one member. *)
Definition set_Body_A (v : BodyPtr) (c : t) : t :=
  mk v (Body_B c) (Position c) (Normal c) (Penetration c) (Restitution c)
    (Friction c) (ToWorld c) (Velocity c) (BouncingVelocity c)
    (RelativePosition_0 c) (RelativePosition_1 c).
Definition set_Body_B (v : BodyPtr) (c : t) : t :=
  mk (Body_A c) v (Position c) (Normal c) (Penetration c) (Restitution c)
    (Friction c) (ToWorld c) (Velocity c) (BouncingVelocity c)
    (RelativePosition_0 c) (RelativePosition_1 c).
Definition set_Position (v : Quaternion.t) (c : t) : t :=
  mk (Body_A c) (Body_B c) v (Normal c) (Penetration c) (Restitution c)
    (Friction c) (ToWorld c) (Velocity c) (BouncingVelocity c)
    (RelativePosition_0 c) (RelativePosition_1 c).
Definition set_Normal (v : Quaternion.t) (c : t) : t :=
  mk (Body_A c) (Body_B c) (Position c) v (Penetration c) (Restitution c)
    (Friction c) (ToWorld c) (Velocity c) (BouncingVelocity c)
    (RelativePosition_0 c) (RelativePosition_1 c).
Definition set_Penetration (v : R) (c : t) : t :=
  mk (Body_A c) (Body_B c) (Position c) (Normal c) v (Restitution c)
    (Friction c) (ToWorld c) (Velocity c) (BouncingVelocity c)
    (RelativePosition_0 c) (RelativePosition_1 c).
Definition set_Restitution (v : R) (c : t) : t :=
  mk (Body_A c) (Body_B c) (Position c) (Normal c) (Penetration c) v
    (Friction c) (ToWorld c) (Velocity c) (BouncingVelocity c)
    (RelativePosition_0 c) (RelativePosition_1 c).
Definition set_Friction (v : R) (c : t) : t :=
  mk (Body_A c) (Body_B c) (Position c) (Normal c) (Penetration c)
    (Restitution c) v (ToWorld c) (Velocity c) (BouncingVelocity c)
    (RelativePosition_0 c) (RelativePosition_1 c).
Definition set_ToWorld (v : QTensor.t) (c : t) : t :=
  mk (Body_A c) (Body_B c) (Position c) (Normal c) (Penetration c)
    (Restitution c) (Friction c) v (Velocity c) (BouncingVelocity c)
    (RelativePosition_0 c) (RelativePosition_1 c).
Definition set_Velocity (v : Quaternion.t) (c : t) : t :=
  mk (Body_A c) (Body_B c) (Position c) (Normal c) (Penetration c)
    (Restitution c) (Friction c) (ToWorld c) v (BouncingVelocity c)
    (RelativePosition_0 c) (RelativePosition_1 c).
Definition set_BouncingVelocity (v : R) (c : t) : t :=
  mk (Body_A c) (Body_B c) (Position c) (Normal c) (Penetration c)
    (Restitution c) (Friction c) (ToWorld c) (Velocity c) v
    (RelativePosition_0 c) (RelativePosition_1 c).
Definition set_RelativePosition_0 (v : Quaternion.t) (c : t) : t :=
  mk (Body_A c) (Body_B c) (Position c) (Normal c) (Penetration c)
    (Restitution c) (Friction c) (ToWorld c) (Velocity c)
    (BouncingVelocity c) v (RelativePosition_1 c).
Definition set_RelativePosition_1 (v : Quaternion.t) (c : t) : t :=
  mk (Body_A c) (Body_B c) (Position c) (Normal c) (Penetration c)
    (Restitution c) (Friction c) (ToWorld c) (Velocity c)
    (BouncingVelocity c) (RelativePosition_0 c) v.

(** [RelativePosition[ i ]] and its assignment, for [i] in [0, 2). *)
Definition RelativePosition (c : t) (i : nat) : Quaternion.t :=
  match i with
  | O => RelativePosition_0 c
  | S _ => RelativePosition_1 c
  end.

Definition set_RelativePosition (i : nat) (v : Quaternion.t) (c : t) : t :=
  match i with
  | O => set_RelativePosition_0 v c
  | S _ => set_RelativePosition_1 v c
  end.

(** [RigidBody** Body = &Body_A; Body[ i ]], for [i] in [0, 2). *)
Definition Body (c : t) (i : nat) : BodyPtr :=
  match i with
  | O => Body_A c
  | S _ => Body_B c
  end.

(** A local array of two elements, [T a[2]], and [a[ i ]]. *)
Definition get2 {A : Type} (a : A * A) (i : nat) : A :=
  match i with
  | O => fst a
  | S _ => snd a
  end.

Definition set2 {A : Type} (a : A * A) (i : nat) (v : A) : A * A :=
  match i with
  | O => (v, snd a)
  | S _ => (fst a, v)
  end.

(** The implicit constructor [Collision ()], for the elements of a parcel:
    the quaternions and the tensor are set by their default constructors
    and the other members are left as they are. *)
Definition new : t :=
  mk None None Quaternion.zero Quaternion.zero indeterminate indeterminate
     indeterminate QTensor.Normalized Quaternion.zero indeterminate
     Quaternion.zero Quaternion.zero.

(** [bool WithScenery () const] *)
Definition WithScenery (c : t) : bool :=
  match Body_B c with
  | None => true
  | Some _ => false
  end.

(** [void FindOrthonormalBasisAtContactPoint ()] *)
Definition FindOrthonormalBasisAtContactPoint (c : t) : Outcome t :=
  let N := Normal c in
  '(tangent_Y, tangent_Z) ←
    (if decide (Rabs (Quaternion.x N) > Rabs (Quaternion.y N)) then
       length ← fdiv 1.0
         (sqrt (Quaternion.z N * Quaternion.z N
                + Quaternion.x N * Quaternion.x N));
       let tangent_Y :=
         Quaternion.mk 0 (Quaternion.z N * length) 0
                         (- Quaternion.x N * length) in
       let tangent_Z :=
         Quaternion.mk 0
           (Quaternion.y N * Quaternion.x tangent_Y)
           (Quaternion.z N * Quaternion.x tangent_Y
            - Quaternion.x N * Quaternion.z tangent_Y)
           (- Quaternion.y N * Quaternion.x tangent_Y) in
       tangent_Z ← Quaternion.Normalize tangent_Z 1.0;
       Ok (tangent_Y, tangent_Z)
     else
       length ← fdiv 1.0
         (sqrt (Quaternion.z N * Quaternion.z N
                + Quaternion.y N * Quaternion.y N));
       let tangent_Y :=
         Quaternion.mk 0 0 (- Quaternion.z N * length)
                           (Quaternion.y N * length) in
       let tangent_Z :=
         Quaternion.mk 0
           (Quaternion.y N * Quaternion.z tangent_Y
            - Quaternion.z N * Quaternion.y tangent_Y)
           (- Quaternion.x N * Quaternion.z tangent_Y)
           (Quaternion.x N * Quaternion.y tangent_Y) in
       tangent_Z ← Quaternion.Normalize tangent_Z 1.0;
       Ok (tangent_Y, tangent_Z));
  Ok (set_ToWorld (QTensor.SetColumnVectors N tangent_Y tangent_Z) c).

(** [Quaternion GetRelativeVelocity( body, relativePosition, h )] *)
Definition GetRelativeVelocity (c : t) (body : RigidBody.t)
    (relativePosition : Quaternion.t) (h : R) : Quaternion.t :=
  let V_world :=
    Quaternion.add (RigidBody.Velocity body)
      (Quaternion.Cross (RigidBody.AngularVelocity body) relativePosition) in
  let V := QTensor.TransformInverse (ToWorld c) V_world in
  let dV_world :=
    Quaternion.scale
      (Quaternion.lscale (RigidBody.InverseMass body) (RigidBody.Force body))
      h in
  let dV := QTensor.TransformInverse (ToWorld c) dV_world in
  let dV := Quaternion.mk (Quaternion.w dV) 0 (Quaternion.y dV)
                          (Quaternion.z dV) in
  Quaternion.add V dV.

(** [double GetBouncingVelocity( double h )] *)
Definition GetBouncingVelocity (s : Bodies) (c : t) (h : R) : Outcome R :=
  let dV_fromForce_x := 0 in
  bA ← load s (Body_A c);
  let dV_fromForce_x :=
    if RigidBody.IsActive bA then
      let last_dV :=
        Quaternion.scale
          (Quaternion.lscale (RigidBody.InverseMass bA) (RigidBody.Force bA))
          h in
      dV_fromForce_x + Quaternion.Dot last_dV (Normal c)
    else dV_fromForce_x in
  dV_fromForce_x ←
    match Body_B c with
    | None => Ok dV_fromForce_x
    | Some _ =>
        bB ← load s (Body_B c);
        if RigidBody.IsActive bB then
          let last_dV :=
            Quaternion.scale
              (Quaternion.lscale (RigidBody.InverseMass bB)
                                 (RigidBody.Force bB))
              h in
          Ok (dV_fromForce_x - Quaternion.Dot last_dV (Normal c))
        else Ok dV_fromForce_x
    end;
  let COR :=
    if decide (Rabs (Quaternion.x (Velocity c) - dV_fromForce_x) < 0.25)
    then 0.0 else Restitution c in
  Ok (- (1 + COR) * Quaternion.x (Velocity c) + COR * dV_fromForce_x).

(** [void UpdateDerivedQuantities( double h )] *)
Definition UpdateDerivedQuantities (s : Bodies) (h : R) (c : t) : Outcome t :=
  let c :=
    match Body_A c with
    | None =>
        let c := set_Normal (Quaternion.neg (Normal c)) c in
        let temp := Body_A c in
        let c := set_Body_A (Body_B c) c in
        set_Body_B temp c
    | Some _ => c
    end in
  c ← FindOrthonormalBasisAtContactPoint c;
  bA ← load s (Body_A c);
  let c := set_RelativePosition 0
    (Quaternion.sub (Position c) (RigidBody.Position bA)) c in
  let c := set_Velocity
    (GetRelativeVelocity c bA (RelativePosition c 0) h) c in
  c ←
    match Body_B c with
    | None => Ok c
    | Some _ =>
        bB ← load s (Body_B c);
        let c := set_RelativePosition 1
          (Quaternion.sub (Position c) (RigidBody.Position bB)) c in
        Ok (set_Velocity
          (Quaternion.sub (Velocity c)
             (GetRelativeVelocity c bB (RelativePosition c 1) h)) c)
    end;
  v ← GetBouncingVelocity s c h;
  Ok (set_BouncingVelocity v c).

(** [void ActivateInactiveBodies ()] *)
Definition ActivateInactiveBodies (s : Bodies) (c : t) : Outcome Bodies :=
  match Body_B c with
  | None => Ok s
  | Some _ =>
      bA ← load s (Body_A c);
      bB ← load s (Body_B c);
      if xorb (RigidBody.IsActive bA) (RigidBody.IsActive bB) then
        if RigidBody.IsActive bA then
          bB ← RigidBody.Activate bB;
          store s (Body_B c) bB
        else
          bA ← RigidBody.Activate bA;
          store s (Body_A c) bA
      else Ok s
  end.

(** [Quaternion Collision::GetImpulse ()] *)
Definition GetImpulse (s : Bodies) (c : t) : Outcome Quaternion.t :=
  let invRedMass := 0 in
  bA ← load s (Body_A c);
  let invRedMass := invRedMass + RigidBody.InverseMass bA in
  let invRedMass := invRedMass +
    Quaternion.Dot
      (Quaternion.Cross
         (QTensor.apply (RigidBody.InverseInertiaWorld bA)
            (Quaternion.Cross (RelativePosition c 0) (Normal c)))
         (RelativePosition c 0))
      (Normal c) in
  invRedMass ←
    match Body_B c with
    | None => Ok invRedMass
    | Some _ =>
        bB ← load s (Body_B c);
        let invRedMass := invRedMass + RigidBody.InverseMass bB in
        Ok (invRedMass +
          Quaternion.Dot
            (Quaternion.Cross
               (QTensor.apply (RigidBody.InverseInertiaWorld bB)
                  (Quaternion.Cross (RelativePosition c 1) (Normal c)))
               (RelativePosition c 1))
            (Normal c))
    end;
  j ← fdiv (BouncingVelocity c) invRedMass;
  Ok (Quaternion.SpatialVector j 0 0).

(** [delta_V_contact.m.xx += v; .m.yy += v; .m.zz += v] *)
Definition add_to_diagonal (m : QTensor.t) (v : R) : QTensor.t :=
  QTensor.mk
    (QTensor.xx m + v) (QTensor.yx m) (QTensor.zx m) (QTensor.wx m)
    (QTensor.xy m) (QTensor.yy m + v) (QTensor.zy m) (QTensor.wy m)
    (QTensor.xz m) (QTensor.yz m) (QTensor.zz m + v) (QTensor.wz m)
    (QTensor.xw m) (QTensor.yw m) (QTensor.zw m) (QTensor.ww m).

(** [Quaternion Collision::GetImpulse_IncludeFriction ()] *)
Definition GetImpulse_IncludeFriction (s : Bodies) (c : t)
    : Outcome Quaternion.t :=
  let crossR := QTensor.SetSkewSymmetric (RelativePosition c 0) in
  bA ← load s (Body_A c);
  let delta_V_world :=
    QTensor.neg
      (QTensor.mul (QTensor.mul crossR (RigidBody.InverseInertiaWorld bA))
                   crossR) in
  delta_V_world ←
    match Body_B c with
    | None => Ok delta_V_world
    | Some _ =>
        let crossR := QTensor.SetSkewSymmetric (RelativePosition c 1) in
        bB ← load s (Body_B c);
        Ok (QTensor.add delta_V_world
              (QTensor.neg
                 (QTensor.mul
                    (QTensor.mul crossR (RigidBody.InverseInertiaWorld bB))
                    crossR)))
    end;
  let delta_V_contact :=
    QTensor.TransformInverseTensor (ToWorld c) delta_V_world in
  inverseReducedMass ←
    match Body_B c with
    | None => Ok (RigidBody.InverseMass bA + 0.0)
    | Some _ =>
        bB ← load s (Body_B c);
        Ok (RigidBody.InverseMass bA + RigidBody.InverseMass bB)
    end;
  let delta_V_contact := add_to_diagonal delta_V_contact inverseReducedMass in
  if decide (Friction c = 0) then
    j ← fdiv (BouncingVelocity c) (QTensor.xx delta_V_contact);
    Ok (Quaternion.mk 0 j 0 0)
  else
    let target_V :=
      Quaternion.mk 0 (BouncingVelocity c)
        (- Quaternion.y (Velocity c)) (- Quaternion.z (Velocity c)) in
    inv ← QTensor.Inverse delta_V_contact;
    let J := QTensor.apply inv target_V in
    let J_tangential :=
      sqrt (Quaternion.y J * Quaternion.y J
            + Quaternion.z J * Quaternion.z J) in
    if decide (J_tangential > Quaternion.x J * Friction c) then
      Jy ← fdiv (Quaternion.y J) J_tangential;
      Jz ← fdiv (Quaternion.z J) J_tangential;
      let invm :=
        QTensor.xx delta_V_contact
        + QTensor.xy delta_V_contact * Friction c * Jy
        + QTensor.xz delta_V_contact * Friction c * Jz in
      j_normal ← fdiv (BouncingVelocity c) invm;
      Ok (Quaternion.mk (Quaternion.w J) j_normal
            (Jy * (Friction c * j_normal))
            (Jz * (Friction c * j_normal)))
    else Ok J.

(** [void Collision::ImpulseTransfer( Quaternion V_jolt[2],
    Quaternion W_jolt[2] )]; the two arrays are the caller's. *)
Definition ImpulseTransfer (s : Bodies) (c : t)
    (V_jolt W_jolt : Quaternion.t * Quaternion.t)
    : Outcome (Bodies * (Quaternion.t * Quaternion.t)
                      * (Quaternion.t * Quaternion.t)) :=
  J_contact ←
    (if decide (Friction c = 0) then GetImpulse s c
     else GetImpulse_IncludeFriction s c);
  let J := QTensor.apply (ToWorld c) J_contact in
  let J_torque := Quaternion.Cross (RelativePosition c 0) J in
  bA ← load s (Body_A c);
  let bA := RigidBody.set_LinearMomentum
    (Quaternion.add (RigidBody.LinearMomentum bA) J) bA in
  let bA := RigidBody.set_AngularMomentum
    (Quaternion.add (RigidBody.AngularMomentum bA) J_torque) bA in
  s ← store s (Body_A c) bA;
  let V_jolt := set2 V_jolt 0
    (Quaternion.lscale (RigidBody.InverseMass bA) J) in
  let W_jolt := set2 W_jolt 0
    (QTensor.apply (RigidBody.InverseInertiaWorld bA) J_torque) in
  match Body_B c with
  | None => Ok (s, V_jolt, W_jolt)
  | Some _ =>
      let J_torque := Quaternion.Cross (RelativePosition c 1) J in
      bB ← load s (Body_B c);
      let bB := RigidBody.set_LinearMomentum
        (Quaternion.sub (RigidBody.LinearMomentum bB) J) bB in
      let bB := RigidBody.set_AngularMomentum
        (Quaternion.sub (RigidBody.AngularMomentum bB) J_torque) bB in
      s ← store s (Body_B c) bB;
      let V_jolt := set2 V_jolt 1
        (Quaternion.neg (Quaternion.lscale (RigidBody.InverseMass bB) J)) in
      let W_jolt := set2 W_jolt 1
        (Quaternion.neg
           (QTensor.apply (RigidBody.InverseInertiaWorld bB) J_torque)) in
      Ok (s, V_jolt, W_jolt)
  end.

(** [void Collision::PositionProjection( Quaternion X_jolt[2],
    Quaternion Q_jolt[2], double relaxation )]: the body of the first
    loop, which works out [inverseTotalInertia], [inverse_I_world] and
    [inverseAngInertia]. *)
Definition PositionProjection_inertia (s : Bodies) (c : t) (i : nat)
    (st : R * (QTensor.t * QTensor.t) * (R * R))
    : Outcome (R * (QTensor.t * QTensor.t) * (R * R)) :=
  let '(inverseTotalInertia, inverse_I_world, inverseAngInertia) := st in
  match Body c i with
  | None => Ok (inverseTotalInertia, inverse_I_world, inverseAngInertia)
  | Some _ =>
      b ← load s (Body c i);
      let inverse_I_world :=
        set2 inverse_I_world i (RigidBody.InverseInertiaWorld b) in
      let inverseAngInertia :=
        set2 inverseAngInertia i
          (Quaternion.Dot
             (Quaternion.Cross
                (QTensor.apply (get2 inverse_I_world i)
                   (Quaternion.Cross (RelativePosition c i) (Normal c)))
                (RelativePosition c i))
             (Normal c)) in
      Ok (inverseTotalInertia
          + (RigidBody.InverseMass b + get2 inverseAngInertia i),
          inverse_I_world, inverseAngInertia)
  end.

(** The body of the second loop, which moves and turns [Body[ i ]]. *)
Definition PositionProjection_apply (c : t) (relaxation : R)
    (inverseTotalInertia : R) (inverse_I_world : QTensor.t * QTensor.t)
    (inverseAngInertia : R * R) (i : nat)
    (st : Bodies * (Quaternion.t * Quaternion.t)
                 * (Quaternion.t * Quaternion.t))
    : Outcome (Bodies * (Quaternion.t * Quaternion.t)
                      * (Quaternion.t * Quaternion.t)) :=
  let '(s, X_jolt, Q_jolt) := st in
  match Body c i with
  | None => Ok (s, X_jolt, Q_jolt)
  | Some _ =>
      let penetration :=
        if decide (i = 0%nat) then Penetration c else - Penetration c in
      let penetration :=
        if bool_decide (0.0 < relaxation) && bool_decide (relaxation <= 1.0)
        then penetration * (1 - relaxation) else penetration in
      b ← load s (Body c i);
      rX ← fdiv (RigidBody.InverseMass b) inverseTotalInertia;
      let delta_X := penetration * rX in
      rQ ← fdiv (get2 inverseAngInertia i) inverseTotalInertia;
      let delta_Q := penetration * rQ in
      let angularProjection :=
        Quaternion.sub (RelativePosition c i)
          (Quaternion.scale (Normal c)
             (Quaternion.Dot (RelativePosition c i) (Normal c))) in
      let Q_limit := 0.3 in
      let max_Q := Q_limit * Quaternion.ImNorm angularProjection in
      let '(delta_X, delta_Q) :=
        if decide (delta_Q < - max_Q) then
          ((delta_X + delta_Q) + max_Q, - max_Q)
        else if decide (delta_Q > max_Q) then
          ((delta_X + delta_Q) - max_Q, max_Q)
        else (delta_X, delta_Q) in
      let X_jolt := set2 X_jolt i (Quaternion.scale (Normal c) delta_X) in
      let b := RigidBody.set_Position
        (Quaternion.add (RigidBody.Position b) (get2 X_jolt i)) b in
      s ← store s (Body c i) b;
      if decide (delta_Q = 0) then
        Ok (s, X_jolt, set2 Q_jolt i (Quaternion.of_scalar 0))
      else
        f ← fdiv delta_Q (get2 inverseAngInertia i);
        let Q_jolt := set2 Q_jolt i
          (Quaternion.scale
             (QTensor.apply (get2 inverse_I_world i)
                (Quaternion.Cross (RelativePosition c i) (Normal c)))
             f) in
        b ← load s (Body c i);
        let b := RigidBody.set_Orientation
          (Quaternion.add (RigidBody.Orientation b)
             (Quaternion.mul (Quaternion.lscale 0.5 (get2 Q_jolt i))
                             (RigidBody.Orientation b))) b in
        b ← RigidBody.CalculateDerivedQuantities true b;
        s ← store s (Body c i) b;
        Ok (s, X_jolt, Q_jolt)
  end.

(** The method: the two loops over [i] in [0, 2); the two arrays
    [X_jolt] and [Q_jolt] are the caller's. *)
Definition PositionProjection (s : Bodies) (c : t)
    (X_jolt Q_jolt : Quaternion.t * Quaternion.t) (relaxation : R)
    : Outcome (Bodies * (Quaternion.t * Quaternion.t)
                      * (Quaternion.t * Quaternion.t)) :=
  let inverseTotalInertia := 0 in
  let inverse_I_world := (QTensor.Normalized, QTensor.Normalized) in
  let inverseAngInertia := (indeterminate, indeterminate) in
  st ← for_each (seq 0 2) (PositionProjection_inertia s c)
         (inverseTotalInertia, inverse_I_world, inverseAngInertia);
  let '(inverseTotalInertia, inverse_I_world, inverseAngInertia) := st in
  for_each (seq 0 2)
    (PositionProjection_apply c relaxation inverseTotalInertia
       inverse_I_world inverseAngInertia)
    (s, X_jolt, Q_jolt).

End Collision.

(** ** CollisionResolver.h, ImpulseMethod.cpp, PositionProjections.cpp:
       the registry of contacts *)

Module CollisionResolver.

(** [Collisions] is the parcel the user allocated, as the array of its
    elements; [NextFree] is the offset of the pointer [NextFree] in it. *)
Record t : Type := mk {
  MaxCollisionCount : Z;
  Collisions : list Collision.t;
  NextFree : nat;
  FreeCount : Z;
  CollisionCount : Z;
  Restitution : R;
  Relaxation : R;
  Friction : R
}.

(** [Collisions[ i ] = c] *)
Definition set_Collision (i : nat) (c : Collision.t) (r : t) : t :=
  mk (MaxCollisionCount r) (<[i := c]> (Collisions r)) (NextFree r)
     (FreeCount r) (CollisionCount r) (Restitution r) (Relaxation r)
     (Friction r).

(** [CollisionResolver( Collision* allocationArea, unsigned length )] *)
Definition new (allocationArea : list Collision.t) (length : Z) : t :=
  mk length allocationArea 0 length 0 1.0 0.2 0.0.

(** [unsigned Count () const] *)
Definition Count (r : t) : Z := CollisionCount r.

(** [bool HasSpaceForMoreContacts () const] *)
Definition HasSpaceForMoreContacts (r : t) : bool :=
  bool_decide (FreeCount r > 0)%Z.

(** [const Collision& operator [] ( unsigned index ) const] *)
Definition index (r : t) (i : Z) : Outcome Collision.t :=
  match Collisions r !! Z.to_nat i with
  | Some c => Ok c
  | None => Raise OutOfBounds
  end.

(** [void Initialize ()] *)
Definition Initialize (r : t) : t :=
  mk (MaxCollisionCount r) (Collisions r) 0 (MaxCollisionCount r) 0
     (Restitution r) (Relaxation r) (Friction r).

(** [unsigned RegisterNewContact( body_A, body_B, position, normal,
    penetration )]: the registry after the call and the returned value. *)
Definition RegisterNewContact (r : t) (body_A body_B : BodyPtr)
    (position normal : Quaternion.t) (penetration : R) : Outcome (t * Z) :=
  if decide (FreeCount r <= 0)%Z then Ok (r, 0%Z)
  else
    match Collisions r !! NextFree r with
    | None => Raise OutOfBounds
    | Some slot =>
        let slot := Collision.set_Body_A body_A slot in
        let slot := Collision.set_Body_B body_B slot in
        let slot := Collision.set_Position position slot in
        let slot := Collision.set_Normal normal slot in
        let slot := Collision.set_Penetration penetration slot in
        let slot := Collision.set_Friction (Friction r) slot in
        let slot := Collision.set_Restitution (Restitution r) slot in
        Ok (mk (MaxCollisionCount r)
               (<[NextFree r := slot]> (Collisions r))
               (S (NextFree r))
               (unsigned_of (FreeCount r - 1))
               (unsigned_of (CollisionCount r + 1))
               (Restitution r) (Relaxation r) (Friction r),
            1%Z)
    end.

(** [for ( unsigned i = 0; i < CollisionCount; ++i )] *)
Definition each_collision (r : t) : list nat :=
  seq 0 (Z.to_nat (CollisionCount r)).

(** [void UpdateDerivedQuantities( double timeStep )] *)
Definition UpdateDerivedQuantities (s : Bodies) (timeStep : R) (r : t)
    : Outcome t :=
  for_each (each_collision r)
    (fun i r =>
       c ← index r (Z.of_nat i);
       c ← Collision.UpdateDerivedQuantities s timeStep c;
       Ok (set_Collision i c r))
    r.

(** [Collision* FindLargestBouncingVelocity( double eps )]: the offset
    of the contact found in [Collisions], if one is found. *)
Definition FindLargestBouncingVelocity (r : t) (eps : R)
    : Outcome (option nat) :=
  found ← for_each (each_collision r)
    (fun i '(eps, contact) =>
       c ← index r (Z.of_nat i);
       if decide (Collision.BouncingVelocity c > eps) then
         Ok (Collision.BouncingVelocity c, Some i)
       else Ok (eps, contact))
    (eps, None);
  Ok (snd found).

(** [Collision* FindLargestPenetration( double eps )] *)
Definition FindLargestPenetration (r : t) (eps : R)
    : Outcome (option nat) :=
  found ← for_each (each_collision r)
    (fun i '(eps, contact) =>
       c ← index r (Z.of_nat i);
       if decide (Collision.Penetration c > eps) then
         Ok (Collision.Penetration c, Some i)
       else Ok (eps, contact))
    (eps, None);
  Ok (snd found).

(** The update of the contacts that share a body with the contact at
    [contact] after its impulse transfer: the three nested loops over
    [i], [a] and [b] of [ImpulseTransfers]. *)
Definition ImpulseTransfers_update (s : Bodies) (h : R) (contact : nat)
    (V_jolt W_jolt : Quaternion.t * Quaternion.t) (r : t) : Outcome t :=
  for_each (each_collision r)
    (fun i r =>
       for_each (seq 0 2)
         (fun a r =>
            c_i ← index r (Z.of_nat i);
            match Collision.Body c_i a with
            | None => Ok r
            | Some _ =>
                for_each (seq 0 2)
                  (fun b r =>
                     c_i ← index r (Z.of_nat i);
                     this ← index r (Z.of_nat contact);
                     if decide (Collision.Body c_i a <> Collision.Body this b)
                     then Ok r
                     else
                       let delta_V :=
                         Quaternion.add (Collision.get2 V_jolt b)
                           (Quaternion.Cross (Collision.get2 W_jolt b)
                              (Collision.RelativePosition c_i a)) in
                       let dV_world :=
                         QTensor.TransformInverse (Collision.ToWorld c_i)
                                                  delta_V in
                       let c_i := Collision.set_Velocity
                         (Quaternion.add (Collision.Velocity c_i)
                            (if decide (a = 0%nat) then dV_world
                             else Quaternion.neg dV_world)) c_i in
                       v ← Collision.GetBouncingVelocity s c_i h;
                       let c_i := Collision.set_BouncingVelocity v c_i in
                       Ok (set_Collision i c_i r))
                  r
            end)
         r)
    r.

(** One pass through the body of the loop of [ImpulseTransfers]:
    [None] when the loop is left by [break]. *)
Definition ImpulseTransfers_pass (h eps : R) (st : Bodies * t)
    : Outcome (option (Bodies * t)) :=
  let '(s, r) := st in
  contact ← FindLargestBouncingVelocity r eps;
  match contact with
  | None => Ok None
  | Some k =>
      this ← index r (Z.of_nat k);
      s ← Collision.ActivateInactiveBodies s this;
      let V_jolt := (Quaternion.zero, Quaternion.zero) in
      let W_jolt := (Quaternion.zero, Quaternion.zero) in
      '(s, V_jolt, W_jolt) ← Collision.ImpulseTransfer s this V_jolt W_jolt;
      r ← ImpulseTransfers_update s h k V_jolt W_jolt r;
      Ok (Some (s, r))
  end.

(** [for ( unsigned iteration = 0; iteration < maxIterations;
    ++iteration ) pass], with [remaining = maxIterations - iteration].
    The first component of the result counts the passes through the body
    of the loop that were begun. *)
Fixpoint iterate {St : Type} (pass : St -> Outcome (option St))
    (remaining : nat) (st : St) : nat * Outcome St :=
  match remaining with
  | O => (O, Ok st)
  | S remaining =>
      match pass st with
      | Raise f => (1%nat, Raise f)
      | Ok None => (1%nat, Ok st)
      | Ok (Some st) =>
          let '(n, res) := iterate pass remaining st in (S n, res)
      end
  end.

(** [void CollisionResolver::ImpulseTransfers( double h,
    unsigned maxIterations = 0, double eps = 0.01 )], with the number of
    passes through its loop. *)
Definition ImpulseTransfers (s : Bodies) (r : t) (h : R)
    (maxIterations : Z) (eps : R) : nat * Outcome (Bodies * t) :=
  if decide (CollisionCount r = 0)%Z then (O, Ok (s, r))
  else
    let maxIterations :=
      if decide (maxIterations = 0)%Z
      then unsigned_of (8 * CollisionCount r) else maxIterations in
    let eps := if decide (eps = 0) then 0.01 else eps in
    iterate (ImpulseTransfers_pass h eps) (Z.to_nat maxIterations) (s, r).

(** The update of the contacts that share a body with the contact at
    [contact] after its position projection. *)
Definition PositionProjections_update (contact : nat)
    (X_jolt Q_jolt : Quaternion.t * Quaternion.t) (r : t) : Outcome t :=
  for_each (each_collision r)
    (fun i r =>
       for_each (seq 0 2)
         (fun a r =>
            for_each (seq 0 2)
              (fun b r =>
                 c_aff ← index r (Z.of_nat i);
                 this ← index r (Z.of_nat contact);
                 match Collision.Body c_aff a with
                 | None => Ok r
                 | Some _ =>
                     if decide (Collision.Body c_aff a = Collision.Body this b)
                     then
                       let deltaPosition :=
                         Quaternion.add (Collision.get2 X_jolt b)
                           (Quaternion.Cross (Collision.get2 Q_jolt b)
                              (Collision.RelativePosition c_aff a)) in
                       let dP_n :=
                         Quaternion.Dot deltaPosition
                                        (Collision.Normal c_aff) in
                       let c_aff := Collision.set_Penetration
                         (Collision.Penetration c_aff
                          + (if decide (a = 0%nat) then - dP_n else dP_n))
                         c_aff in
                       Ok (set_Collision i c_aff r)
                     else Ok r
                 end)
              r)
         r)
    r.

(** One pass through the body of the loop of [PositionProjections]. *)
Definition PositionProjections_pass (st : Bodies * t) (eps : R)
    : Outcome (option (Bodies * t)) :=
  let '(s, r) := st in
  contact ← FindLargestPenetration r eps;
  match contact with
  | None => Ok None
  | Some k =>
      this ← index r (Z.of_nat k);
      s ← Collision.ActivateInactiveBodies s this;
      let X_jolt := (Quaternion.zero, Quaternion.zero) in
      let Q_jolt := (Quaternion.zero, Quaternion.zero) in
      '(s, X_jolt, Q_jolt) ←
        Collision.PositionProjection s this X_jolt Q_jolt (Relaxation r);
      r ← PositionProjections_update k X_jolt Q_jolt r;
      Ok (Some (s, r))
  end.

(** [void CollisionResolver::PositionProjections(
    unsigned maxIterations = 0, double eps = 0.01 )], with the number of
    passes through its loop. *)
Definition PositionProjections (s : Bodies) (r : t)
    (maxIterations : Z) (eps : R) : nat * Outcome (Bodies * t) :=
  if decide (CollisionCount r = 0)%Z then (O, Ok (s, r))
  else
    let maxIterations :=
      if decide (maxIterations = 0)%Z
      then unsigned_of (8 * CollisionCount r) else maxIterations in
    let eps := if decide (eps = 0) then 1e-2 else eps in
    iterate (fun st => PositionProjections_pass st eps)
      (Z.to_nat maxIterations) (s, r).

End CollisionResolver.

(** ** Constants.h, Constants.cpp *)

Module Const.

(** [4 * std::atan( 1.0 )] *)
Definition Pi : R := 4 * atan 1.0.

(** [std::numeric_limits<double>::max ()] *)
Definition Max : R := IZR (2 ^ 1024 - 2 ^ 971).

(** The unit vectors of the axes of the world. *)
Definition X : Quaternion.t := Quaternion.mk 0 1 0 0.
Definition Y : Quaternion.t := Quaternion.mk 0 0 1 0.
Definition Z : Quaternion.t := Quaternion.mk 0 0 0 1.

End Const.

(** ** Geometry.h, CollisionDetection.cpp *)

Module Geometry.

Inductive GeometryClass : Type := _Sphere | _Cuboid | _HalfSpace | _TruePlane.

(** A geometry: the members of [Geometry] and, side by side, the members
    of the classes derived from it ([Radius] of a [Sphere], [HalfExtent]
    of a [Cuboid], [Direction] and [Offset] of a [HalfSpace] or a
    [TruePlane]); [Class] says which of them the object has. *)
Record t : Type := mk {
  Class : GeometryClass;
  Body : BodyPtr;
  Radius : R;
  HalfExtent : Quaternion.t;
  Direction : Quaternion.t;
  Offset : R
}.

(** The constructors [HalfSpace ()], [TruePlane ()], [Sphere ()] and
    [Cuboid ()]. *)
Definition HalfSpace : t :=
  mk _HalfSpace None indeterminate Quaternion.zero Quaternion.zero 0.
Definition TruePlane : t :=
  mk _TruePlane None indeterminate Quaternion.zero Quaternion.zero 0.
Definition Sphere : t :=
  mk _Sphere None 0 Quaternion.zero Quaternion.zero indeterminate.
Definition Cuboid : t :=
  mk _Cuboid None indeterminate Quaternion.zero Quaternion.zero indeterminate.

Definition IsCuboid (g : t) : bool :=
  match Class g with _Cuboid => true | _ => false end.
Definition IsSphere (g : t) : bool :=
  match Class g with _Sphere => true | _ => false end.
Definition IsHalfSpace (g : t) : bool :=
  match Class g with _HalfSpace => true | _ => false end.
Definition IsTruePlane (g : t) : bool :=
  match Class g with _TruePlane => true | _ => false end.

(** [Quaternion Position () const] *)
Definition Position (s : Bodies) (g : t) : Outcome Quaternion.t :=
  match Body g with
  | Some _ => b ← load s (Body g); QTensor.Column (RigidBody.ToWorld b) 3
  | None => Ok (Quaternion.of_scalar 0.0)
  end.

(** [Quaternion Axis( unsigned index ) const] *)
Definition Axis (s : Bodies) (g : t) (index : Z) : Outcome Quaternion.t :=
  match Body g with
  | Some _ => b ← load s (Body g); QTensor.Column (RigidBody.ToWorld b) index
  | None => Ok (Quaternion.of_scalar 0.0)
  end.

(** *** Sphere *)

(** [double Sphere::Volume () const] *)
Definition Sphere_Volume (this : t) : R :=
  (4.0 / 3.0 * Const.Pi) * Radius this * Radius this * Radius this.

(** [void Sphere::SetMass( double mass )] *)
Definition Sphere_SetMass (s : Bodies) (this : t) (mass : R)
    : Outcome Bodies :=
  b ← load s (Body this);
  b ← RigidBody.SetupMass mass b;
  let Ixx := (2.0 / 5.0) * mass * Radius this * Radius this in
  b ← RigidBody.SetMomentOfInertia (QTensor.diagonal Ixx Ixx Ixx 1.0) b;
  b ← RigidBody.CalculateDerivedQuantities false b;
  store s (Body this) b.

(** [bool Sphere::Intersects( const HalfSpace& plane ) const] *)
Definition Sphere_Intersects_HalfSpace (s : Bodies) (this plane : t)
    : Outcome bool :=
  position ← Position s this;
  let distance := Quaternion.Dot (Direction plane) position - Radius this in
  Ok (bool_decide (distance <= Offset plane)).

(** [bool Sphere::Intersects( const Sphere& B ) const] *)
Definition Sphere_Intersects_Sphere (s : Bodies) (this B : t)
    : Outcome bool :=
  position_A ← Position s this;
  position_B ← Position s B;
  let displacement := Quaternion.sub position_A position_B in
  let sumRadius := Radius this + Radius B in
  Ok (bool_decide
        (Quaternion.ImSquaredNorm displacement < sumRadius * sumRadius)).

(** [unsigned Sphere::Check( CollisionResolver& owner,
    const TruePlane& plane ) const] *)
Definition Sphere_Check_TruePlane (s : Bodies)
    (owner : CollisionResolver.t) (this plane : t)
    : Outcome (CollisionResolver.t * Z) :=
  if negb (CollisionResolver.HasSpaceForMoreContacts owner) then
    Ok (owner, 0%Z)
  else
    position ← Position s this;
    let distance :=
      Quaternion.Dot (Direction plane) position - Offset plane in
    if decide (distance * distance > Radius this * Radius this) then
      Ok (owner, 0%Z)
    else
      let normal := Direction plane in
      let penetration := - distance in
      let '(normal, penetration) :=
        if decide (distance < 0) then (Quaternion.neg normal, - penetration)
        else (normal, penetration) in
      let penetration := penetration + Radius this in
      CollisionResolver.RegisterNewContact owner
        (Body this) None
        (Quaternion.sub position (Quaternion.scale (Direction plane) distance))
        normal
        penetration.

(** [unsigned Sphere::Check( CollisionResolver& owner,
    const HalfSpace& plane ) const] *)
Definition Sphere_Check_HalfSpace (s : Bodies)
    (owner : CollisionResolver.t) (this plane : t)
    : Outcome (CollisionResolver.t * Z) :=
  if negb (CollisionResolver.HasSpaceForMoreContacts owner) then
    Ok (owner, 0%Z)
  else
    position ← Position s this;
    let distance :=
      Quaternion.Dot (Direction plane) position - Radius this
      - Offset plane in
    if decide (distance >= 0) then Ok (owner, 0%Z)
    else
      CollisionResolver.RegisterNewContact owner
        (Body this) None
        (Quaternion.sub position
           (Quaternion.scale (Direction plane) (distance + Radius this)))
        (Direction plane)
        (- distance).

(** [unsigned Sphere::Check( CollisionResolver& owner,
    const Sphere& B ) const] *)
Definition Sphere_Check_Sphere (s : Bodies)
    (owner : CollisionResolver.t) (this B : t)
    : Outcome (CollisionResolver.t * Z) :=
  if negb (CollisionResolver.HasSpaceForMoreContacts owner) then
    Ok (owner, 0%Z)
  else
    position_A ← Position s this;
    position_B ← Position s B;
    let displacement := Quaternion.sub position_A position_B in
    let distance := Quaternion.ImNorm displacement in
    if decide (distance >= Radius this + Radius B) then Ok (owner, 0%Z)
    else
      inverse ← fdiv 1.0 distance;
      CollisionResolver.RegisterNewContact owner
        (Body this) (Body B)
        (Quaternion.add position_B (Quaternion.scale displacement 0.5))
        (Quaternion.scale displacement inverse)
        (Radius this + Radius B - distance).

(** *** Cuboid *)

(** [double Cuboid::Volume () const] *)
Definition Cuboid_Volume (this : t) : R :=
  8.0 * Quaternion.x (HalfExtent this) * Quaternion.y (HalfExtent this)
      * Quaternion.z (HalfExtent this).

(** [void Cuboid::SetMass( double mass )] *)
Definition Cuboid_SetMass (s : Bodies) (this : t) (mass : R)
    : Outcome Bodies :=
  b ← load s (Body this);
  b ← RigidBody.SetupMass mass b;
  let extent := Quaternion.lscale 2.0 (HalfExtent this) in
  let sq := Quaternion.ComponentWiseProduct extent extent in
  Ixx ← fdiv (mass * (Quaternion.y sq + Quaternion.z sq)) 12;
  Iyy ← fdiv (mass * (Quaternion.x sq + Quaternion.z sq)) 12;
  Izz ← fdiv (mass * (Quaternion.x sq + Quaternion.y sq)) 12;
  b ← RigidBody.SetMomentOfInertia (QTensor.diagonal Ixx Iyy Izz 1.0) b;
  b ← RigidBody.CalculateDerivedQuantities false b;
  store s (Body this) b.

(** [static inline double Clamp( double x, double max )] *)
Definition Clamp (x max : R) : R :=
  if decide (x > max) then max
  else if decide (x < - max) then - max else x.

(** [double Cuboid::ProjectOn( const Quaternion& vector ) const] *)
Definition ProjectOn (s : Bodies) (this : t) (vector : Quaternion.t)
    : Outcome R :=
  a0 ← Axis s this 0;
  a1 ← Axis s this 1;
  a2 ← Axis s this 2;
  Ok (Quaternion.x (HalfExtent this) * Rabs (Quaternion.Dot vector a0)
      + Quaternion.y (HalfExtent this) * Rabs (Quaternion.Dot vector a1)
      + Quaternion.z (HalfExtent this) * Rabs (Quaternion.Dot vector a2)).

(** [bool Cuboid::Intersects( const HalfSpace& plane ) const] *)
Definition Cuboid_Intersects_HalfSpace (s : Bodies) (this plane : t)
    : Outcome bool :=
  projectedRadius ← ProjectOn s this (Direction plane);
  position ← Position s this;
  let distance :=
    Quaternion.Dot (Direction plane) position - projectedRadius in
  Ok (bool_decide (distance <= Offset plane)).

(** [double Cuboid::GetPenetrationOnAxis( B, axis, displacement ) const] *)
Definition GetPenetrationOnAxis (s : Bodies) (this B : t)
    (axis displacement : Quaternion.t) : Outcome R :=
  direction ← Quaternion.Unit axis 1.0;
  proj_A ← ProjectOn s this direction;
  proj_B ← ProjectOn s B direction;
  let distance := Rabs (Quaternion.Dot displacement direction) in
  Ok (proj_A + proj_B - distance).

(** [bool Cuboid::IsOverlapOnAxis( B, direction, displacement ) const] *)
Definition IsOverlapOnAxis (s : Bodies) (this B : t)
    (direction displacement : Quaternion.t) : Outcome bool :=
  if decide (Quaternion.ImSquaredNorm direction < 1e-4) then Ok true
  else
    p ← GetPenetrationOnAxis s this B direction displacement;
    Ok (bool_decide (p > 0)).

(** [bool Cuboid::CheckOverlapOnAxis( B, direction, displacement,
    smallestPenetration, tag_A, tag_B, indexTag_A, indexTag_B ) const]:
    the returned value and the three variables passed by reference. *)
Definition CheckOverlapOnAxis (s : Bodies) (this B : t)
    (direction displacement : Quaternion.t)
    (tag_A tag_B : Z) (refs : R * Z * Z) : Outcome (bool * (R * Z * Z)) :=
  let '(smallestPenetration, indexTag_A, indexTag_B) := refs in
  if decide (Quaternion.ImSquaredNorm direction < 1e-4) then Ok (true, refs)
  else
    penetration ← GetPenetrationOnAxis s this B direction displacement;
    if decide (penetration < 0) then Ok (false, refs)
    else if decide (penetration < smallestPenetration) then
      Ok (true, (penetration, tag_A, tag_B))
    else Ok (true, refs).

(** [Quaternion Cuboid::FindContactPointOnEdges( ptOn_A, axis_A, edge_A,
    ptOn_B, axis_B, edge_B, use_A )] *)
Definition FindContactPointOnEdges
    (ptOn_A axis_A : Quaternion.t) (edge_A : R)
    (ptOn_B axis_B : Quaternion.t) (edge_B : R) (use_A : bool)
    : Outcome Quaternion.t :=
  let sqNorm_dA := Quaternion.ImSquaredNorm axis_A in
  let sqNorm_dB := Quaternion.ImSquaredNorm axis_B in
  let axis_AB := Quaternion.Dot axis_B axis_A in
  let p_AB := Quaternion.sub ptOn_A ptOn_B in
  let dpSta_A := Quaternion.Dot p_AB axis_A in
  let dpSta_B := Quaternion.Dot p_AB axis_B in
  let denominator := sqNorm_dA * sqNorm_dB - axis_AB * axis_AB in
  if decide (Rabs denominator < 1e-4) then
    Ok (if use_A then ptOn_A else ptOn_B)
  else
    mu_A ← fdiv (axis_AB * dpSta_B - sqNorm_dB * dpSta_A) denominator;
    mu_B ← fdiv (sqNorm_dA * dpSta_B - axis_AB * dpSta_A) denominator;
    if bool_decide (mu_A > edge_A) || bool_decide (mu_A < - edge_A)
       || bool_decide (mu_B > edge_B) || bool_decide (mu_B < - edge_B)
    then Ok (if use_A then ptOn_A else ptOn_B)
    else
      Ok (Quaternion.add
            (Quaternion.scale
               (Quaternion.add ptOn_A (Quaternion.scale axis_A mu_A)) 0.5)
            (Quaternion.scale
               (Quaternion.add ptOn_B (Quaternion.scale axis_B mu_B)) 0.5)).

(** [unsigned Cuboid::RegisterContactOnAxis( owner, B, displacement,
    axis, penetration ) const]: the body of the loop over the axes of B,
    which assigns [contactPointOn_B[ i ]]. *)
Definition RegisterContactOnAxis_vertex (s : Bodies) (this B : t)
    (displacement axis_Bn : Quaternion.t) (i : nat)
    (contactPointOn_B : Quaternion.t) : Outcome Quaternion.t :=
  let i := Z.of_nat i in
  if decide (Rabs (Quaternion.get axis_Bn i) < 1e-4) then
    axis_i ← Axis s B i;
    let distance_BA := - Quaternion.Dot displacement axis_i in
    halfExtent_A ← ProjectOn s this axis_i;
    let halfExtent_B := Quaternion.get (HalfExtent B) i in
    let vxL := Rmax (distance_BA - halfExtent_A) (- halfExtent_B) in
    let vxR := Rmin (distance_BA + halfExtent_A) halfExtent_B in
    let vxM := 0.5 * (vxL + vxR) in
    Ok (Quaternion.set contactPointOn_B i
          (if decide (Rabs vxM < 1e-4) then 0 else vxM))
  else
    Ok (Quaternion.set contactPointOn_B i
          (if decide (Quaternion.get axis_Bn i > 0)
           then Quaternion.get (HalfExtent B) i
           else - Quaternion.get (HalfExtent B) i)).

Definition RegisterContactOnAxis (s : Bodies) (owner : CollisionResolver.t)
    (this B : t) (displacement axis : Quaternion.t) (penetration : R)
    : Outcome (CollisionResolver.t * Z) :=
  let normal := axis in
  let normal :=
    if decide (Quaternion.Dot normal displacement > 0)
    then Quaternion.neg normal else normal in
  b0 ← Axis s B 0;
  b1 ← Axis s B 1;
  b2 ← Axis s B 2;
  let axis_Bn :=
    Quaternion.mk 0 (Quaternion.Dot b0 normal) (Quaternion.Dot b1 normal)
                    (Quaternion.Dot b2 normal) in
  let contactPointOn_B := Quaternion.zero in
  contactPointOn_B ←
    for_each (seq 0 3)
      (RegisterContactOnAxis_vertex s this B displacement axis_Bn)
      contactPointOn_B;
  bB ← load s (Body B);
  CollisionResolver.RegisterNewContact owner
    (Body this) (Body B)
    (QTensor.apply (RigidBody.ToWorld bB) contactPointOn_B)
    normal
    penetration.

(** The macro [Quit_If_No_Overlaps( axis, indexA, indexB )] of
    [Cuboid::Check( owner, B )]: [return 0] when there is no overlap on the
    axis, and the rest of the function, [rest], otherwise. *)
Definition Quit_If_No_Overlaps (s : Bodies) (owner : CollisionResolver.t)
    (this B : t) (axis : Outcome Quaternion.t) (displacement : Quaternion.t)
    (indexA indexB : Z) (refs : R * Z * Z)
    (rest : R * Z * Z -> Outcome (CollisionResolver.t * Z))
    : Outcome (CollisionResolver.t * Z) :=
  axis ← axis;
  checked ← CheckOverlapOnAxis s this B axis displacement indexA indexB refs;
  let '(overlap, refs) := checked : bool * (R * Z * Z) in
  if overlap then rest refs else Ok (owner, 0%Z).

(** [Axis( i ).Cross( B.Axis( j ) )] *)
Definition cross_axes (s : Bodies) (this B : t) (i j : Z)
    : Outcome Quaternion.t :=
  a ← Axis s this i;
  b ← Axis s B j;
  Ok (Quaternion.Cross a b).

(** The body of the loop of [Cuboid::Check( owner, B )] that selects the
    points [ptOn_Edge_A] and [ptOn_Edge_B] of the edges in contact. *)
Definition Check_Cuboid_edge_point (s : Bodies) (this B : t)
    (normal : Quaternion.t) (axisIndex_A axisIndex_B : Z) (i : nat)
    (pts : Quaternion.t * Quaternion.t)
    : Outcome (Quaternion.t * Quaternion.t) :=
  let '(ptOn_Edge_A, ptOn_Edge_B) := pts in
  let i := Z.of_nat i in
  ptOn_Edge_A ←
    (if decide (i <> axisIndex_A) then
       a ← Axis s this i;
       let axis_An := Quaternion.Dot a normal in
       if decide (Rabs axis_An > 1e-4) then
         Ok (Quaternion.set ptOn_Edge_A i
               (if decide (axis_An > 0)
                then - Quaternion.get (HalfExtent this) i
                else Quaternion.get (HalfExtent this) i))
       else Ok ptOn_Edge_A
     else Ok ptOn_Edge_A);
  ptOn_Edge_B ←
    (if decide (i <> axisIndex_B) then
       b ← Axis s B i;
       let axis_Bn := Quaternion.Dot b normal in
       if decide (Rabs axis_Bn > 1e-4) then
         Ok (Quaternion.set ptOn_Edge_B i
               (if decide (axis_Bn > 0)
                then Quaternion.get (HalfExtent B) i
                else - Quaternion.get (HalfExtent B) i))
       else Ok ptOn_Edge_B
     else Ok ptOn_Edge_B);
  Ok (ptOn_Edge_A, ptOn_Edge_B).

(** [unsigned Cuboid::Check( CollisionResolver& owner,
    const Cuboid& B ) const]: what follows the fifteen tests of axes. *)
Definition Check_Cuboid_contact (s : Bodies) (owner : CollisionResolver.t)
    (this B : t) (displacement : Quaternion.t) (use_A : bool)
    (refs : R * Z * Z) : Outcome (CollisionResolver.t * Z) :=
  let '(penetration, axisIndex_A, axisIndex_B) := refs in
  if decide (axisIndex_B = 0xFF)%Z then
    axis ← Axis s this axisIndex_A;
    RegisterContactOnAxis s owner this B displacement axis penetration
  else if decide (axisIndex_A = 0xFF)%Z then
    axis ← Axis s B axisIndex_B;
    RegisterContactOnAxis s owner B this (Quaternion.neg displacement) axis
      penetration
  else
    axis_A ← Axis s this axisIndex_A;
    axis_B ← Axis s B axisIndex_B;
    normal ← Quaternion.Unit (Quaternion.Cross axis_A axis_B) 1.0;
    let normal :=
      if decide (Quaternion.Dot normal displacement > 0)
      then Quaternion.neg normal else normal in
    let ptOn_Edge_A := Quaternion.zero in
    let ptOn_Edge_B := Quaternion.zero in
    '(ptOn_Edge_A, ptOn_Edge_B) ←
      for_each (seq 0 3)
        (Check_Cuboid_edge_point s this B normal axisIndex_A axisIndex_B)
        (ptOn_Edge_A, ptOn_Edge_B);
    bA ← load s (Body this);
    bB ← load s (Body B);
    contactPoint_world ←
      FindContactPointOnEdges
        (QTensor.apply (RigidBody.ToWorld bA) ptOn_Edge_A) axis_A
        (Quaternion.get (HalfExtent this) axisIndex_A)
        (QTensor.apply (RigidBody.ToWorld bB) ptOn_Edge_B) axis_B
        (Quaternion.get (HalfExtent B) axisIndex_B)
        use_A;
    CollisionResolver.RegisterNewContact owner
      (Body this) (Body B) contactPoint_world normal penetration.

Definition Cuboid_Check_Cuboid (s : Bodies) (owner : CollisionResolver.t)
    (this B : t) : Outcome (CollisionResolver.t * Z) :=
  position_B ← Position s B;
  position ← Position s this;
  let displacement := Quaternion.sub position_B position in
  let penetration := Const.Max in
  let axisIndex_A := 0xFF%Z in
  let axisIndex_B := 0xFF%Z in
  let Quit := Quit_If_No_Overlaps s owner this B in
  Quit (Axis s this 0) displacement 0%Z 0xFF%Z
    (penetration, axisIndex_A, axisIndex_B) (fun refs =>
  Quit (Axis s this 1) displacement 1%Z 0xFF%Z refs (fun refs =>
  Quit (Axis s this 2) displacement 2%Z 0xFF%Z refs (fun refs =>
  Quit (Axis s B 0) displacement 0xFF%Z 0%Z refs (fun refs =>
  Quit (Axis s B 1) displacement 0xFF%Z 1%Z refs (fun refs =>
  Quit (Axis s B 2) displacement 0xFF%Z 2%Z refs (fun refs =>
  let use_A := bool_decide (snd refs <> 0xFF)%Z in
  Quit (cross_axes s this B 0 0) displacement 0%Z 0%Z refs (fun refs =>
  Quit (cross_axes s this B 0 1) displacement 0%Z 1%Z refs (fun refs =>
  Quit (cross_axes s this B 0 2) displacement 0%Z 2%Z refs (fun refs =>
  Quit (cross_axes s this B 1 0) displacement 1%Z 0%Z refs (fun refs =>
  Quit (cross_axes s this B 1 1) displacement 1%Z 1%Z refs (fun refs =>
  Quit (cross_axes s this B 1 2) displacement 1%Z 2%Z refs (fun refs =>
  Quit (cross_axes s this B 2 0) displacement 2%Z 0%Z refs (fun refs =>
  Quit (cross_axes s this B 2 1) displacement 2%Z 1%Z refs (fun refs =>
  Quit (cross_axes s this B 2 2) displacement 2%Z 2%Z refs (fun refs =>
  Check_Cuboid_contact s owner this B displacement use_A refs
  ))))))))))))))).

(** [unsigned Cuboid::Check( CollisionResolver& owner,
    const Sphere& B ) const] *)
Definition Cuboid_Check_Sphere (s : Bodies) (owner : CollisionResolver.t)
    (this B : t) : Outcome (CollisionResolver.t * Z) :=
  center ← Position s B;
  b ← load s (Body this);
  let relCenter := QTensor.TransformInverse (RigidBody.ToWorld b) center in
  if bool_decide (Rabs (Quaternion.x relCenter) - Radius B
                  > Quaternion.x (HalfExtent this))
     || bool_decide (Rabs (Quaternion.y relCenter) - Radius B
                     > Quaternion.y (HalfExtent this))
     || bool_decide (Rabs (Quaternion.z relCenter) - Radius B
                     > Quaternion.z (HalfExtent this))
  then Ok (owner, 0%Z)
  else
    let closestPoint :=
      Quaternion.mk 0
        (Clamp (Quaternion.x relCenter) (Quaternion.x (HalfExtent this)))
        (Clamp (Quaternion.y relCenter) (Quaternion.y (HalfExtent this)))
        (Clamp (Quaternion.z relCenter) (Quaternion.z (HalfExtent this))) in
    let distance :=
      Quaternion.ImSquaredNorm (Quaternion.sub closestPoint relCenter) in
    if decide (distance > Radius B * Radius B) then Ok (owner, 0%Z)
    else
      let distance := sqrt distance in
      let closestPointWorld :=
        QTensor.apply (RigidBody.ToWorld b) closestPoint in
      normal ← Quaternion.Unit (Quaternion.sub closestPointWorld center) 1.0;
      CollisionResolver.RegisterNewContact owner
        (Body this) (Body B) closestPointWorld normal (Radius B - distance).

(** The eight vertices of a cuboid, [vertices[8][3]]. *)
Definition vertices (i : nat) : Quaternion.t :=
  match i with
  | 0%nat => Quaternion.mk 0 1 1 1
  | 1%nat => Quaternion.mk 0 (-1) 1 1
  | 2%nat => Quaternion.mk 0 1 (-1) 1
  | 3%nat => Quaternion.mk 0 (-1) (-1) 1
  | 4%nat => Quaternion.mk 0 1 1 (-1)
  | 5%nat => Quaternion.mk 0 (-1) 1 (-1)
  | 6%nat => Quaternion.mk 0 1 (-1) (-1)
  | _ => Quaternion.mk 0 (-1) (-1) (-1)
  end.

(** [unsigned Cuboid::Check( CollisionResolver& owner,
    const HalfSpace& plane ) const]: the body of the loop over the
    vertices, on [owner] and [contactCount]. *)
Definition Check_HalfSpace_vertex (s : Bodies) (this plane : t) (i : nat)
    (st : CollisionResolver.t * Z) : Outcome (CollisionResolver.t * Z) :=
  let '(owner, contactCount) := st in
  let vertexPos := vertices i in
  let vertexPos := Quaternion.ComponentWiseProduct vertexPos (HalfExtent this) in
  b ← load s (Body this);
  let vertexPos := QTensor.apply (RigidBody.ToWorld b) vertexPos in
  let penetration :=
    Offset plane - Quaternion.Dot vertexPos (Direction plane) in
  if decide (penetration >= 0) then
    '(owner, n) ←
      CollisionResolver.RegisterNewContact owner
        (Body this) None
        (Quaternion.add vertexPos
           (Quaternion.lscale (0.5 * penetration) (Direction plane)))
        (Direction plane)
        penetration;
    Ok (owner, unsigned_of (contactCount + n))
  else Ok (owner, contactCount).

(** The body of the loop over the axes, on [contactPoint] and
    [parallelCount]. *)
Definition Check_HalfSpace_axis (this : t) (axis_n : Quaternion.t) (i : nat)
    (st : Quaternion.t * Z) : Outcome (Quaternion.t * Z) :=
  let '(contactPoint, parallelCount) := st in
  let i := Z.of_nat i in
  if decide (Rabs (Quaternion.get axis_n i) < 1e-4) then
    Ok (contactPoint, unsigned_of (parallelCount + 1))
  else
    Ok (Quaternion.set contactPoint i
          (if decide (Quaternion.get axis_n i < 0)
           then Quaternion.get (HalfExtent this) i
           else - Quaternion.get (HalfExtent this) i),
        parallelCount).

Definition Cuboid_Check_HalfSpace (s : Bodies) (owner : CollisionResolver.t)
    (this plane : t) : Outcome (CollisionResolver.t * Z) :=
  if negb (CollisionResolver.HasSpaceForMoreContacts owner) then
    Ok (owner, 0%Z)
  else
    intersects ← Cuboid_Intersects_HalfSpace s this plane;
    if negb intersects then Ok (owner, 0%Z)
    else
      let contactPoint := Quaternion.zero in
      a0 ← Axis s this 0;
      a1 ← Axis s this 1;
      a2 ← Axis s this 2;
      let axis_n :=
        Quaternion.mk 0 (Quaternion.Dot a0 (Direction plane))
                        (Quaternion.Dot a1 (Direction plane))
                        (Quaternion.Dot a2 (Direction plane)) in
      let parallelCount := 0%Z in
      '(contactPoint, parallelCount) ←
        for_each (seq 0 3) (Check_HalfSpace_axis this axis_n)
          (contactPoint, parallelCount);
      if decide (parallelCount > 0)%Z then
        b ← load s (Body this);
        let contactPoint := QTensor.apply (RigidBody.ToWorld b) contactPoint in
        let penetration :=
          Offset plane - Quaternion.Dot contactPoint (Direction plane) in
        CollisionResolver.RegisterNewContact owner
          (Body this) None
          (Quaternion.add contactPoint
             (Quaternion.lscale (0.5 * penetration) (Direction plane)))
          (Direction plane)
          penetration
      else
        let contactCount := 0%Z in
        for_each_while (seq 0 8)
          (fun st => CollisionResolver.HasSpaceForMoreContacts (fst st))
          (Check_HalfSpace_vertex s this plane)
          (owner, contactCount).

(** [void Geometry::Detect( CollisionResolver& owner,
    const Geometry* B ) const] *)
Definition Detect (s : Bodies) (owner : CollisionResolver.t) (this B : t)
    : Outcome CollisionResolver.t :=
  if negb (CollisionResolver.HasSpaceForMoreContacts owner) then Ok owner
  else
    let no_check : Outcome (CollisionResolver.t * Z) := Ok (owner, 0%Z) in
    res ←
      match Class this, Class B with
      | _Sphere, _Sphere => Sphere_Check_Sphere s owner this B
      | _Sphere, _Cuboid => Cuboid_Check_Sphere s owner B this
      | _Sphere, _HalfSpace => Sphere_Check_HalfSpace s owner this B
      | _Sphere, _TruePlane => Sphere_Check_TruePlane s owner this B
      | _Cuboid, _Sphere => Cuboid_Check_Sphere s owner this B
      | _Cuboid, _Cuboid => Cuboid_Check_Cuboid s owner this B
      | _Cuboid, _HalfSpace => Cuboid_Check_HalfSpace s owner this B
      | _Cuboid, _TruePlane => no_check
      | _HalfSpace, _Sphere => Sphere_Check_HalfSpace s owner B this
      | _HalfSpace, _Cuboid => Cuboid_Check_HalfSpace s owner B this
      | _HalfSpace, _HalfSpace => no_check
      | _HalfSpace, _TruePlane => no_check
      | _TruePlane, _Sphere => Sphere_Check_TruePlane s owner B this
      | _TruePlane, _Cuboid => no_check
      | _TruePlane, _HalfSpace => no_check
      | _TruePlane, _TruePlane => no_check
      end;
    Ok (fst res).

End Geometry.

(** ** WoRB.h: the world *)

Module WorldOfRigidBodies.

(** [template < unsigned MaxObjects, unsigned MaxCollisions >
    class WorldOfRigidBodies].  [Object] is the array
    [Geometry* Object[ MaxObjects ]], each element given by the geometry it
    points to; the parcel [CollisionRegistry[ MaxCollisions ]] is the one
    held by [Collisions]. *)
Record t : Type := mk {
  MaxObjects : Z;
  MaxCollisions : Z;
  ObjectCount : Z;
  Object : list Geometry.t;
  Gravity : Quaternion.t;
  Time : R;
  TimeStepCount : Z;
  TotalKineticEnergy : R;
  TotalPotentialEnergy : R;
  TotalLinearMomentum : Quaternion.t;
  TotalAngularMomentum : Quaternion.t;
  Collisions : CollisionResolver.t
}.

Definition set_Collisions (v : CollisionResolver.t) (w : t) : t :=
  mk (MaxObjects w) (MaxCollisions w) (ObjectCount w) (Object w) (Gravity w)
     (Time w) (TimeStepCount w) (TotalKineticEnergy w)
     (TotalPotentialEnergy w) (TotalLinearMomentum w)
     (TotalAngularMomentum w) v.

Definition set_clock (time : R) (count : Z) (w : t) : t :=
  mk (MaxObjects w) (MaxCollisions w) (ObjectCount w) (Object w) (Gravity w)
     time count (TotalKineticEnergy w)
     (TotalPotentialEnergy w) (TotalLinearMomentum w)
     (TotalAngularMomentum w) (Collisions w).

Definition set_totals (Ek Ep : R) (P L : Quaternion.t) (w : t) : t :=
  mk (MaxObjects w) (MaxCollisions w) (ObjectCount w) (Object w) (Gravity w)
     (Time w) (TimeStepCount w) Ek Ep P L (Collisions w).

(** [void RemoveObjects ()] *)
Definition RemoveObjects (w : t) : t :=
  mk (MaxObjects w) (MaxCollisions w) 0 (Object w) (Gravity w)
     (Time w) (TimeStepCount w) (TotalKineticEnergy w)
     (TotalPotentialEnergy w) (TotalLinearMomentum w)
     (TotalAngularMomentum w) (Collisions w).

(** [void Add( Geometry* object )] and [void Add( Geometry& object )]:
    [Object[ ObjectCount++ ] = object]. *)
Definition Add (w : t) (object : Geometry.t) : Outcome t :=
  match Object w !! Z.to_nat (ObjectCount w) with
  | None => Raise OutOfBounds
  | Some _ =>
      Ok (mk (MaxObjects w) (MaxCollisions w)
             (unsigned_of (ObjectCount w + 1))
             (<[Z.to_nat (ObjectCount w) := object]> (Object w))
             (Gravity w) (Time w) (TimeStepCount w) (TotalKineticEnergy w)
             (TotalPotentialEnergy w) (TotalLinearMomentum w)
             (TotalAngularMomentum w) (Collisions w))
  end.

(** [Object[ i ]] *)
Definition object (w : t) (i : nat) : Outcome Geometry.t :=
  match Object w !! i with
  | Some g => Ok g
  | None => Raise OutOfBounds
  end.

(** [for ( RigidBodies body = RigidBodies(this); body.Exists(); ++body )]:
    the geometries [Object[ i ]], [i < ObjectCount], whose [Body] is not
    null, in the order of [i]; [visit] is the body of the loop, on the
    state [St] it works on and the rigid body [body->]. *)
Definition for_each_body {St : Type} (w : t)
    (visit : BodyPtr -> St -> Outcome St) (st : St) : Outcome St :=
  for_each (seq 0 (Z.to_nat (ObjectCount w)))
    (fun i st =>
       g ← object w i;
       match Geometry.Body g with
       | None => Ok st
       | Some _ => visit (Geometry.Body g) st
       end)
    st.

(** The body of the loops that sum up the totals. *)
Definition add_totals (s : Bodies) (body : BodyPtr)
    (tot : R * R * Quaternion.t * Quaternion.t)
    : Outcome (R * R * Quaternion.t * Quaternion.t) :=
  let '(Ek, Ep, P, L) := tot in
  b ← load s body;
  Ok (Ek + RigidBody.KineticEnergy b,
      Ep + RigidBody.PotentialEnergy b,
      Quaternion.add P (RigidBody.LinearMomentum b),
      Quaternion.add L (RigidBody.TotalAngularMomentum b)).

Definition sum_totals (s : Bodies) (w : t) : Outcome t :=
  tot ← for_each_body w (add_totals s)
           (0, 0, Quaternion.of_scalar 0, Quaternion.of_scalar 0);
  let '(Ek, Ep, P, L) := tot : R * R * Quaternion.t * Quaternion.t in
  Ok (set_totals Ek Ep P L w).

(** [void InitializeODE ()] *)
Definition InitializeODE (s : Bodies) (w : t) : Outcome (Bodies * t) :=
  let w := set_clock 0 0 w in
  let w := set_Collisions (CollisionResolver.Initialize (Collisions w)) w in
  s ← for_each_body w
        (fun body s =>
           b ← load s body;
           b ← RigidBody.CalculateDerivedQuantities true b;
           store s body (RigidBody.ClearAccumulators b))
        s;
  w ← sum_totals s w;
  Ok (s, w).

(** The detection of the collisions between all the geometries:
    [for ( i = 0; i < ObjectCount; ++i )
       for ( j = i + 1; j < ObjectCount; ++j )
         Object[i]->Detect( Collisions, Object[j] )]. *)
Definition DetectAll (s : Bodies) (w : t) (owner : CollisionResolver.t)
    : Outcome CollisionResolver.t :=
  let n := Z.to_nat (ObjectCount w) in
  for_each (seq 0 n)
    (fun i owner =>
       for_each (seq (i + 1) (n - (i + 1)))
         (fun j owner =>
            A ← object w i;
            B ← object w j;
            Geometry.Detect s owner A B)
         owner)
    owner.

(** [unsigned long] arithmetic: [++TimeStepCount]. *)
Definition unsigned_long_modulus : Z := (2 ^ 64)%Z.

(** [void SolveODE( double h )] *)
Definition SolveODE (s : Bodies) (w : t) (h : R) : Outcome (Bodies * t) :=
  s ← for_each_body w
        (fun body s =>
           b ← load s body;
           m ← RigidBody.Mass b;
           let f_g := Quaternion.lscale m (Gravity w) in
           let E_p := - Quaternion.Dot f_g (RigidBody.Position b) in
           store s body (RigidBody.AddExternalForce f_g E_p b))
        s;
  s ← for_each_body w
        (fun body s =>
           b ← load s body;
           b ← RigidBody.SolveODE h b;
           store s body b)
        s;
  let count := ((TimeStepCount w + 1) mod unsigned_long_modulus)%Z in
  let w := set_clock (h * IZR count) count w in
  w ← sum_totals s w;
  let owner := CollisionResolver.Initialize (Collisions w) in
  owner ← DetectAll s w owner;
  owner ← CollisionResolver.UpdateDerivedQuantities s h owner;
  st ← snd (CollisionResolver.ImpulseTransfers s owner h 0 0.01);
  let '(s, owner) := st : Bodies * CollisionResolver.t in
  st ← snd (CollisionResolver.PositionProjections s owner 0 0.01);
  let '(s, owner) := st : Bodies * CollisionResolver.t in
  let w := set_Collisions owner w in
  s ← for_each_body w
        (fun body s =>
           b ← load s body;
           store s body (RigidBody.ClearAccumulators b))
        s;
  Ok (s, w).

End WorldOfRigidBodies.

(** ** Utilities.h: rigid bodies with a geometry *)

Module Utilities.

(** [Ball( position, orientation, velocity, angularVelocity, radius,
    mass )]: the object is a [Sphere] and a [RigidBody] at once
    ([Body = this]); it is created as the last of the bodies that exist. *)
Definition Ball (s : Bodies)
    (position orientation velocity angularVelocity : Quaternion.t)
    (radius mass : R) : Outcome (Bodies * Geometry.t) :=
  let this := Some (length s) in
  let s := s ++ [RigidBody.new] in
  let sphere :=
    Geometry.mk Geometry._Sphere this radius
      (Geometry.HalfExtent Geometry.Sphere)
      (Geometry.Direction Geometry.Sphere)
      (Geometry.Offset Geometry.Sphere) in
  s ← Geometry.Sphere_SetMass s sphere mass;
  b ← load s this;
  b ← RigidBody.Set_XQVW position orientation velocity angularVelocity b;
  b ← RigidBody.Activate b;
  s ← store s this b;
  Ok (s, sphere).

(** [Box( position, orientation, velocity, angularVelocity, halfExtent,
    mass )] *)
Definition Box (s : Bodies)
    (position orientation velocity angularVelocity halfExtent : Quaternion.t)
    (mass : R) : Outcome (Bodies * Geometry.t) :=
  let this := Some (length s) in
  let s := s ++ [RigidBody.new] in
  let cuboid :=
    Geometry.mk Geometry._Cuboid this
      (Geometry.Radius Geometry.Cuboid)
      halfExtent
      (Geometry.Direction Geometry.Cuboid)
      (Geometry.Offset Geometry.Cuboid) in
  s ← Geometry.Cuboid_SetMass s cuboid mass;
  b ← load s this;
  b ← RigidBody.Set_XQVW position orientation velocity angularVelocity b;
  b ← RigidBody.Activate b;
  s ← store s this b;
  Ok (s, cuboid).

End Utilities.

(** ** Well-formed states *)

(** The parcel of a registry has [MaxCollisionCount] elements, as the
    constructor of [CollisionResolver] expects of its arguments. *)
Definition parcel_ok (r : CollisionResolver.t) : Prop :=
  (0 <= CollisionResolver.MaxCollisionCount r < unsigned_modulus)%Z /\
  length (CollisionResolver.Collisions r)
  = Z.to_nat (CollisionResolver.MaxCollisionCount r).

(** The registry is in a state that [Initialize] and [RegisterNewContact]
    lead to: the contacts are the first [CollisionCount] elements of the
    parcel, [NextFree] points behind them, [FreeCount] elements are left. *)
Definition registry_ok (r : CollisionResolver.t) : Prop :=
  parcel_ok r /\
  (0 <= CollisionResolver.CollisionCount r
     <= CollisionResolver.MaxCollisionCount r)%Z /\
  Z.of_nat (CollisionResolver.NextFree r) = CollisionResolver.CollisionCount r /\
  CollisionResolver.FreeCount r
  = (CollisionResolver.MaxCollisionCount r
     - CollisionResolver.CollisionCount r)%Z.

(** The arguments of one call of [RegisterNewContact]. *)
Record Registration : Type := {
  reg_body_A : BodyPtr;
  reg_body_B : BodyPtr;
  reg_position : Quaternion.t;
  reg_normal : Quaternion.t;
  reg_penetration : R
}.

Definition register (r : CollisionResolver.t) (a : Registration)
    : Outcome (CollisionResolver.t * Z) :=
  CollisionResolver.RegisterNewContact r (reg_body_A a) (reg_body_B a)
    (reg_position a) (reg_normal a) (reg_penetration a).

(** A sequence of calls of [RegisterNewContact]: the registry at the end
    and the values the calls returned, in the order of the calls. *)
Fixpoint register_all (r : CollisionResolver.t) (calls : list Registration)
    : Outcome (CollisionResolver.t * list Z) :=
  match calls with
  | [] => Ok (r, [])
  | a :: calls =>
      res ← register r a;
      let '(r, ret) := res : CollisionResolver.t * Z in
      rest ← register_all r calls;
      let '(r, rets) := rest : CollisionResolver.t * list Z in
      Ok (r, ret :: rets)
  end.

(** The contact that a successful registration writes into the element
    [slot] of the parcel. *)
Definition registered (r : CollisionResolver.t) (a : Registration)
    (slot c : Collision.t) : Prop :=
  Collision.Body_A c = reg_body_A a /\
  Collision.Body_B c = reg_body_B a /\
  Collision.Position c = reg_position a /\
  Collision.Normal c = reg_normal a /\
  Collision.Penetration c = reg_penetration a /\
  Collision.Friction c = CollisionResolver.Friction r /\
  Collision.Restitution c = CollisionResolver.Restitution r /\
  Collision.ToWorld c = Collision.ToWorld slot /\
  Collision.Velocity c = Collision.Velocity slot /\
  Collision.BouncingVelocity c = Collision.BouncingVelocity slot /\
  Collision.RelativePosition_0 c = Collision.RelativePosition_0 slot /\
  Collision.RelativePosition_1 c = Collision.RelativePosition_1 slot.

(** The array of the objects of a world has [MaxObjects] elements. *)
Definition world_ok (w : WorldOfRigidBodies.t) : Prop :=
  (0 <= WorldOfRigidBodies.MaxObjects w < unsigned_modulus)%Z /\
  length (WorldOfRigidBodies.Object w)
  = Z.to_nat (WorldOfRigidBodies.MaxObjects w) /\
  (0 <= WorldOfRigidBodies.ObjectCount w < unsigned_modulus)%Z.

(** The orientation of a body is a versor. *)
Definition versor (b : RigidBody.t) : Prop :=
  Quaternion.Norm (RigidBody.Orientation b) = 1.

(** The number of the calls that returned 1, among the values returned by a
    sequence of calls of [RegisterNewContact]. *)
Definition successes (rets : list Z) : Z :=
  Z.of_nat (length (filter (fun ret => ret = 1%Z) rets)).

(** The registry after a successful registration of [c]. *)
Definition appended (r : CollisionResolver.t) (c : Collision.t)
    : CollisionResolver.t :=
  CollisionResolver.mk
    (CollisionResolver.MaxCollisionCount r)
    (<[CollisionResolver.NextFree r := c]> (CollisionResolver.Collisions r))
    (S (CollisionResolver.NextFree r))
    (CollisionResolver.FreeCount r - 1)
    (CollisionResolver.CollisionCount r + 1)
    (CollisionResolver.Restitution r)
    (CollisionResolver.Relaxation r)
    (CollisionResolver.Friction r).

(** The term [( ( I^-1 ( r x N ) ) x r ) . N] that a body adds to the
    inverse reduced mass of a contact. *)
Definition angular_response (I : QTensor.t) (r N : Quaternion.t) : R :=
  Quaternion.Dot
    (Quaternion.Cross (QTensor.apply I (Quaternion.Cross r N)) r) N.

(** ** States used as examples *)

Module Examples.

(** A registry over a parcel of one element, and a registration. *)
Definition registry_of_one : CollisionResolver.t :=
  CollisionResolver.new [Collision.new] 1.

Definition a_registration : Registration :=
  {| reg_body_A := Some 0%nat; reg_body_B := None;
     reg_position := Quaternion.zero; reg_normal := Const.Y;
     reg_penetration := 1 |}.

(** The registry with one contact in it. *)
Definition one_contact : CollisionResolver.t :=
  appended (CollisionResolver.Initialize registry_of_one) Collision.new.

(** Two bodies of mass 1 and a contact between them, without friction. *)
Definition unit_body : RigidBody.t :=
  RigidBody.set_InverseMass 1 RigidBody.new.

Definition two_bodies : Bodies := [unit_body; unit_body].

Definition contact_of_two : Collision.t :=
  Collision.mk (Some 0%nat) (Some 1%nat) Quaternion.zero Const.X 0 1 0
    QTensor.Identity Quaternion.zero 1 Quaternion.zero Quaternion.zero.

(** The moment of inertia [(2.0/5.0) * mass * Radius * Radius] of a ball of
    radius 1 and mass 1e30, and the rigid body of such a ball, at rest at
    [X], as its constructor leaves it: it has the inverse mass 0. *)
Definition Ixx : R := (2.0 / 5.0) * 1e30 * 1 * 1.

Definition immovable_ball (X : Quaternion.t) : RigidBody.t :=
  RigidBody.mk
    0
    (QTensor.mk (1 / Ixx) 0 0 0  0 (1 / Ixx) 0 0  0 0 (1 / Ixx) 0
                0 0 0 (1 / (Ixx * Ixx * Ixx)))
    X
    (Quaternion.mk 1 0 0 0)
    Quaternion.zero
    Quaternion.zero
    (QTensor.SetFromOrientationAndPosition (Quaternion.mk 1 0 0 0) X)
    (QTensor.mk (1 / Ixx) 0 0 0  0 (1 / Ixx) 0 0  0 0 (1 / Ixx) indeterminate
                0 0 0 1)
    Quaternion.zero
    Quaternion.zero
    Quaternion.zero
    0 0 (0.6 * 1e30) (0.3 * 1e30) false
    Quaternion.zero
    Quaternion.zero
    true false.

(** The sphere of radius 1 of the ball that is the body [this]. *)
Definition unit_sphere (this : nat) : Geometry.t :=
  Geometry.mk Geometry._Sphere (Some this) 1
    (Geometry.HalfExtent Geometry.Sphere)
    (Geometry.Direction Geometry.Sphere)
    (Geometry.Offset Geometry.Sphere).

(** Two immovable balls of radius 1 that overlap: their centres are at the
    origin and at (1, 0, 0). *)
Definition centre_A : Quaternion.t := Quaternion.SpatialVector 0 0 0.
Definition centre_B : Quaternion.t := Quaternion.SpatialVector 1 0 0.

Definition immovable_pair : Bodies :=
  [immovable_ball centre_A; immovable_ball centre_B].

(** The world of these two balls, without gravity. *)
Definition world_of_pair : WorldOfRigidBodies.t :=
  WorldOfRigidBodies.mk 2 1 2 [unit_sphere 0; unit_sphere 1]
    (Quaternion.of_scalar 0.0) 0 0 0 0 Quaternion.zero Quaternion.zero
    registry_of_one.

(** The contact that the detection finds between the two balls, as
    [RegisterNewContact] writes it, and as [UpdateDerivedQuantities] leaves
    it; the registries that hold the one and the other. *)
Definition contact_point : Quaternion.t := Quaternion.mk 1 (1 / 2) 0 0.
Definition contact_normal : Quaternion.t := Quaternion.mk 0 (-1) 0 0.

Definition contact_registered : Collision.t :=
  Collision.mk (Some 0%nat) (Some 1%nat) contact_point contact_normal 1
    1.0 0.0 QTensor.Normalized Quaternion.zero indeterminate
    Quaternion.zero Quaternion.zero.

Definition contact_updated : Collision.t :=
  Collision.mk (Some 0%nat) (Some 1%nat) contact_point contact_normal 1
    1.0 0.0
    (QTensor.SetColumnVectors contact_normal
       (Quaternion.mk 0 0 0 1) (Quaternion.mk 0 0 1 0))
    Quaternion.zero 0
    (Quaternion.mk 1 (1 / 2) 0 0) (Quaternion.mk 1 (- (1 / 2)) 0 0).

Definition registry_with (c : Collision.t) : CollisionResolver.t :=
  CollisionResolver.mk 1 [c] 1 0 1 1.0 0.2 0.0.

(** A world of one object at most, which holds one object. *)
Definition full_world : WorldOfRigidBodies.t :=
  WorldOfRigidBodies.mk 1 1 1 [Geometry.Sphere] Quaternion.zero 0 0 0 0
    Quaternion.zero Quaternion.zero registry_of_one.

(** A sphere of radius [r] with no body, and the ground [y <= 0]. *)
Definition sphere_of_radius (r : R) : Geometry.t :=
  Geometry.mk Geometry._Sphere None r Quaternion.zero Quaternion.zero
    indeterminate.

Definition ground : Geometry.t :=
  Geometry.mk Geometry._HalfSpace None indeterminate Quaternion.zero
    Const.Y 0.

(** One immovable ball, and the world that holds it, without gravity. *)
Definition lone_ball : Bodies := [immovable_ball centre_A].

Definition world_of_one : WorldOfRigidBodies.t :=
  WorldOfRigidBodies.mk 1 1 1 [unit_sphere 0]
    (Quaternion.of_scalar 0.0) 0 0 0 0 Quaternion.zero Quaternion.zero
    registry_of_one.

End Examples.

(** ** The mass of a body, the detectors of a sphere and the impulse
       transfer, over binary64

    What a detector registers and what an impulse transfer leaves turn on
    the rounding of the numbers: whether a distance that is computed is
    below zero, whether a sum that is computed is the sum.  For these
    functions, and for the mass of a body that is set and read back, the
    module [Binary64] reads a [double] as a binary64 number
    of the machine ([PrimFloat.float]) and not as a real number: every
    operation is rounded to the nearest double, once, in the order in which
    the source writes it; a decimal constant stands for the nearest double;
    a comparison with a NaN is false; and a division by zero yields an
    infinity or a NaN and the computation goes on.  The classes have the
    names and the members they have above. *)

Module Binary64.

Import PrimFloat.
Local Open Scope float_scope.

(** The content of a [double] that the sources declare and do not assign. *)
Definition indeterminate : float := 0.

(** *** Quaternion.h *)

Module Quaternion.

Record t : Type := mk { w : float; x : float; y : float; z : float }.

(** [Quaternion ()] *)
Definition zero : t := mk 0 0 0 0.

(** [Quaternion( double scalar )], also [operator = ( double scalar )] *)
Definition of_scalar (scalar : float) : t := mk scalar 0 0 0.

(** [operator - () const] *)
Definition neg (q : t) : t := mk (- w q) (- x q) (- y q) (- z q).

Definition ImSquaredNorm (q : t) : float :=
  x q * x q + y q * y q + z q * z q.

Definition ImNorm (q : t) : float := PrimFloat.sqrt (ImSquaredNorm q).

(** [operator + ( const Quaternion& )], [operator +=] *)
Definition add (p q : t) : t :=
  mk (w p + w q) (x p + x q) (y p + y q) (z p + z q).

(** [operator - ( const Quaternion& )], [operator -=] *)
Definition sub (p q : t) : t :=
  mk (w p - w q) (x p - x q) (y p - y q) (z p - z q).

(** [operator * ( double value )], [operator *= ( double value )] *)
Definition scale (q : t) (value : float) : t :=
  mk (w q * value) (x q * value) (y q * value) (z q * value).

(** [operator * ( double scalar, const Quaternion& q )] *)
Definition lscale (scalar : float) (q : t) : t :=
  mk (scalar * w q) (scalar * x q) (scalar * y q) (scalar * z q).

Definition Cross (p q : t) : t :=
  mk 0
     (y p * z q - z p * y q)
     (z p * x q - x p * z q)
     (x p * y q - y p * x q).

Definition Dot (p q : t) : float := x p * x q + y p * y q + z p * z q.

(** [SpatialVector( double x, double y, double z )] *)
Definition SpatialVector (vx vy vz : float) : t := mk 0 vx vy vz.

End Quaternion.

(** *** QTensor.h *)

Module QTensor.

(** [struct Components], in the order of the memory layout
    (column-major: [data[ row + column * 4 ]]). *)
Record t : Type := mk {
  xx : float; yx : float; zx : float; wx : float;
  xy : float; yy : float; zy : float; wy : float;
  xz : float; yz : float; zz : float; wz : float;
  xw : float; yw : float; zw : float; ww : float
}.

(** [QTensor( Uninitialized )] *)
Definition Uninitialized : t :=
  mk indeterminate indeterminate indeterminate indeterminate
     indeterminate indeterminate indeterminate indeterminate
     indeterminate indeterminate indeterminate indeterminate
     indeterminate indeterminate indeterminate indeterminate.

(** [SetComponents( double valueForAllComponents )] *)
Definition SetComponents (v : float) : t :=
  mk v v v v  v v v v  v v v v  v v v v.

(** [QTensor( Normalized )], the default constructor *)
Definition Normalized : t :=
  mk 0 0 0 0  0 0 0 0  0 0 0 0  0 0 0 1.

(** [QTensor( Identity )] *)
Definition Identity : t :=
  mk 1 0 0 0  0 1 0 0  0 0 1 0  0 0 0 1.

Definition SetSkewSymmetric (q : Quaternion.t) : t :=
  mk 0 (Quaternion.z q) (- Quaternion.y q) 0
     (- Quaternion.z q) 0 (Quaternion.x q) 0
     (Quaternion.y q) (- Quaternion.x q) 0 0
     0 0 0 0.

(** [Quaternion Column( unsigned j ) const]:
    [p = data + j * 4; Quaternion( p[3], p[0], p[1], p[2] )] *)
Definition Column (m : t) (j : Z) : Outcome Quaternion.t :=
  if decide (j = 0)%Z then Ok (Quaternion.mk (wx m) (xx m) (yx m) (zx m))
  else if decide (j = 1)%Z then Ok (Quaternion.mk (wy m) (xy m) (yy m) (zy m))
  else if decide (j = 2)%Z then Ok (Quaternion.mk (wz m) (xz m) (yz m) (zz m))
  else if decide (j = 3)%Z then Ok (Quaternion.mk (ww m) (xw m) (yw m) (zw m))
  else Raise OutOfBounds.

(** Component-wise operations over [data[ 0 .. Length )]. *)
Definition map (f : float -> float) (m : t) : t :=
  mk (f (xx m)) (f (yx m)) (f (zx m)) (f (wx m))
     (f (xy m)) (f (yy m)) (f (zy m)) (f (wy m))
     (f (xz m)) (f (yz m)) (f (zz m)) (f (wz m))
     (f (xw m)) (f (yw m)) (f (zw m)) (f (ww m)).

Definition map2 (f : float -> float -> float) (m n : t) : t :=
  mk (f (xx m) (xx n)) (f (yx m) (yx n)) (f (zx m) (zx n)) (f (wx m) (wx n))
     (f (xy m) (xy n)) (f (yy m) (yy n)) (f (zy m) (zy n)) (f (wy m) (wy n))
     (f (xz m) (xz n)) (f (yz m) (yz n)) (f (zz m) (zz n)) (f (wz m) (wz n))
     (f (xw m) (xw n)) (f (yw m) (yw n)) (f (zw m) (zw n)) (f (ww m) (ww n)).

(** [operator - () const] *)
Definition neg (m : t) : t := map PrimFloat.opp m.

(** [operator + ( const QTensor& )], [operator +=] *)
Definition add (m n : t) : t := map2 PrimFloat.add m n.

(** [Quaternion operator * ( const Quaternion& q ) const] and
    [Quaternion operator () ( const Quaternion& q ) const] *)
Definition apply (m : t) (q : Quaternion.t) : Quaternion.t :=
  let qx := Quaternion.x q in
  let qy := Quaternion.y q in
  let qz := Quaternion.z q in
  Quaternion.mk 0
    (qx * xx m + qy * xy m + qz * xz m + xw m)
    (qx * yx m + qy * yy m + qz * yz m + yw m)
    (qx * zx m + qy * zy m + qz * zz m + zw m).

(** [QTensor operator * ( const QTensor& T ) const] *)
Definition mul (m T : t) : t :=
  mk (xx m * xx T + xy m * yx T + xz m * zx T)
     (yx m * xx T + yy m * yx T + yz m * zx T)
     (zx m * xx T + zy m * yx T + zz m * zx T)
     0
     (xx m * xy T + xy m * yy T + xz m * zy T)
     (yx m * xy T + yy m * yy T + yz m * zy T)
     (zx m * xy T + zy m * yy T + zz m * zy T)
     0
     (xx m * xz T + xy m * yz T + xz m * zz T)
     (yx m * xz T + yy m * yz T + yz m * zz T)
     (zx m * xz T + zy m * yz T + zz m * zz T)
     0
     (xx m * xw T + xy m * yw T + xz m * zw T + xw m)
     (yx m * xw T + yy m * yw T + yz m * zw T + yw m)
     (zx m * xw T + zy m * yw T + zz m * zw T + zw m)
     1.

Definition Determinant (m : t) : float :=
  - zx m * yy m * xz m
  + yx m * zy m * xz m
  + zx m * xy m * yz m
  - xx m * zy m * yz m
  - yx m * xy m * zz m
  + xx m * yy m * zz m.

(** [data[i] /= det_T] for every component *)
Definition div_components (m : t) (d : float) : t :=
  map (fun c => c / d) m.

(** [QTensor& SetInverseOf( const QTensor& T )]; [self] is the tensor the
    method is called on, whose last row the method does not assign before
    it divides every component by the determinant. *)
Definition SetInverseOf (self T : t) : t :=
  let det_T := Determinant T in
  if det_T =? 0 then SetComponents 0
  else
    div_components
      (mk (- zy T * yz T + yy T * zz T)
          (zx T * yz T - yx T * zz T)
          (- zx T * yy T + yx T * zy T)
          (wx self)
          (zy T * xz T - xy T * zz T)
          (- zx T * xz T + xx T * zz T)
          (zx T * xy T - xx T * zy T)
          (wy self)
          (- yy T * xz T + xy T * yz T)
          (yx T * xz T - xx T * yz T)
          (- yx T * xy T + xx T * yy T)
          (wz self)
          (zy T * yz T * xw T
           - yy T * zz T * xw T
           - zy T * xz T * yw T
           + xy T * zz T * yw T
           + yy T * xz T * zw T
           - xy T * yz T * zw T)
          (- zx T * yz T * xw T
           + yx T * zz T * xw T
           + zx T * xz T * yw T
           - xx T * zz T * yw T
           - yx T * xz T * zw T
           + xx T * yz T * zw T)
          (zx T * yy T * xw T
           - yx T * zy T * xw T
           - zx T * xy T * yw T
           + xx T * zy T * yw T
           + yx T * xy T * zw T
           - xx T * yy T * zw T)
          (ww self))
      det_T.

(** [QTensor Inverse () const] *)
Definition Inverse (m : t) : t := SetInverseOf Uninitialized m.

(** [QTensor TransformInverse( const QTensor &T ) const]:
    [Transpose * T * this], with the same unassigned [wz]. *)
Definition TransformInverseTensor (m T : t) : t :=
  let t_xx := xx m * xx T + yx m * yx T + zx m * zx T in
  let t_xy := xx m * xy T + yx m * yy T + zx m * zy T in
  let t_xz := xx m * xz T + yx m * yz T + zx m * zz T in
  let t_yx := xy m * xx T + yy m * yx T + zy m * zx T in
  let t_yy := xy m * xy T + yy m * yy T + zy m * zy T in
  let t_yz := xy m * xz T + yy m * yz T + zy m * zz T in
  let t_zx := xz m * xx T + yz m * yx T + zz m * zx T in
  let t_zy := xz m * xy T + yz m * yy T + zz m * zy T in
  let t_zz := xz m * xz T + yz m * yz T + zz m * zz T in
  mk (t_xx * xx m + t_xy * yx m + t_xz * zx m)
     (t_yx * xx m + t_yy * yx m + t_yz * zx m)
     (t_zx * xx m + t_zy * yx m + t_zz * zx m)
     0
     (t_xx * xy m + t_xy * yy m + t_xz * zy m)
     (t_yx * xy m + t_yy * yy m + t_yz * zy m)
     (t_zx * xy m + t_zy * yy m + t_zz * zy m)
     0
     (t_xx * xz m + t_xy * yz m + t_xz * zz m)
     (t_yx * xz m + t_yy * yz m + t_yz * zz m)
     (t_zx * xz m + t_zy * yz m + t_zz * zz m)
     indeterminate
     0 0 0 1.

End QTensor.

(** *** RigidBody.h *)

Module RigidBody.

Record t : Type := mk {
  InverseMass : float;
  InverseInertiaBody : QTensor.t;
  Position : Quaternion.t;
  Orientation : Quaternion.t;
  LinearMomentum : Quaternion.t;
  AngularMomentum : Quaternion.t;
  ToWorld : QTensor.t;
  InverseInertiaWorld : QTensor.t;
  Velocity : Quaternion.t;
  AngularVelocity : Quaternion.t;
  TotalAngularMomentum : Quaternion.t;
  KineticEnergy : float;
  PotentialEnergy : float;
  AverageKineticEnergy : float;
  KineticEnergyThreshold : float;
  KineticEnergyDamping : bool;
  Force : Quaternion.t;
  Torque : Quaternion.t;
  IsActive : bool;
  CanBeDeactivated : bool
}.

(** Assignments to one member. *)
Definition set_InverseMass (v : float) (b : t) : t :=
  mk v (InverseInertiaBody b) (Position b) (Orientation b)
    (LinearMomentum b) (AngularMomentum b) (ToWorld b)
    (InverseInertiaWorld b) (Velocity b) (AngularVelocity b)
    (TotalAngularMomentum b) (KineticEnergy b) (PotentialEnergy b)
    (AverageKineticEnergy b) (KineticEnergyThreshold b)
    (KineticEnergyDamping b) (Force b) (Torque b) (IsActive b)
    (CanBeDeactivated b).

Definition set_KineticEnergyThreshold (v : float) (b : t) : t :=
  mk (InverseMass b) (InverseInertiaBody b) (Position b) (Orientation b)
    (LinearMomentum b) (AngularMomentum b) (ToWorld b)
    (InverseInertiaWorld b) (Velocity b) (AngularVelocity b)
    (TotalAngularMomentum b) (KineticEnergy b) (PotentialEnergy b)
    (AverageKineticEnergy b) v (KineticEnergyDamping b) (Force b) (Torque b)
    (IsActive b) (CanBeDeactivated b).

Definition set_LinearMomentum (v : Quaternion.t) (b : t) : t :=
  mk (InverseMass b) (InverseInertiaBody b) (Position b) (Orientation b) v
    (AngularMomentum b) (ToWorld b) (InverseInertiaWorld b) (Velocity b)
    (AngularVelocity b) (TotalAngularMomentum b) (KineticEnergy b)
    (PotentialEnergy b) (AverageKineticEnergy b) (KineticEnergyThreshold b)
    (KineticEnergyDamping b) (Force b) (Torque b) (IsActive b)
    (CanBeDeactivated b).

Definition set_AngularMomentum (v : Quaternion.t) (b : t) : t :=
  mk (InverseMass b) (InverseInertiaBody b) (Position b) (Orientation b)
    (LinearMomentum b) v (ToWorld b) (InverseInertiaWorld b) (Velocity b)
    (AngularVelocity b) (TotalAngularMomentum b) (KineticEnergy b)
    (PotentialEnergy b) (AverageKineticEnergy b) (KineticEnergyThreshold b)
    (KineticEnergyDamping b) (Force b) (Torque b) (IsActive b)
    (CanBeDeactivated b).

(** [RigidBody ()] *)
Definition new : t :=
  mk 0 QTensor.Normalized Quaternion.zero Quaternion.zero Quaternion.zero
    Quaternion.zero QTensor.Identity QTensor.Normalized Quaternion.zero
    Quaternion.zero Quaternion.zero 0 0 0 0 false Quaternion.zero
    Quaternion.zero false false.

(** [double Mass () const] *)
Definition Mass (b : t) : float :=
  if InverseMass b =? 0 then 1e+30
  else if 1e+30 <=? InverseMass b then 0.0
  else 1.0 / InverseMass b.

(** [void SetupMass( double mass )] *)
Definition SetupMass (mass : float) (b : t) : t :=
  let b :=
    set_InverseMass
      (if mass =? 0 then 1e+30
       else if 1e+30 <=? mass then 0.0 else 1.0 / mass) b in
  set_KineticEnergyThreshold (0.3 * mass) b.

End RigidBody.

(** The rigid bodies that exist, and the accesses through a pointer. *)
Abbreviation Bodies := (list RigidBody.t).

Definition load (s : Bodies) (p : BodyPtr) : Outcome RigidBody.t :=
  match p with
  | None => Raise NullPointer
  | Some i =>
      match s !! i with
      | Some b => Ok b
      | None => Raise OutOfBounds
      end
  end.

Definition store (s : Bodies) (p : BodyPtr) (b : RigidBody.t) : Outcome Bodies :=
  match p with
  | None => Raise NullPointer
  | Some i =>
      match s !! i with
      | Some _ => Ok (<[i := b]> s)
      | None => Raise OutOfBounds
      end
  end.

(** *** Collision.h, ImpulseMethod.cpp *)

Module Collision.

Record t : Type := mk {
  Body_A : BodyPtr;
  Body_B : BodyPtr;
  Position : Quaternion.t;
  Normal : Quaternion.t;
  Penetration : float;
  Restitution : float;
  Friction : float;
  ToWorld : QTensor.t;
  Velocity : Quaternion.t;
  BouncingVelocity : float;
  RelativePosition_0 : Quaternion.t;
  RelativePosition_1 : Quaternion.t
}.

(** Assignments to one member. *)
Definition set_Body_A (v : BodyPtr) (c : t) : t :=
  mk v (Body_B c) (Position c) (Normal c) (Penetration c) (Restitution c)
    (Friction c) (ToWorld c) (Velocity c) (BouncingVelocity c)
    (RelativePosition_0 c) (RelativePosition_1 c).

Definition set_Body_B (v : BodyPtr) (c : t) : t :=
  mk (Body_A c) v (Position c) (Normal c) (Penetration c) (Restitution c)
    (Friction c) (ToWorld c) (Velocity c) (BouncingVelocity c)
    (RelativePosition_0 c) (RelativePosition_1 c).

Definition set_Position (v : Quaternion.t) (c : t) : t :=
  mk (Body_A c) (Body_B c) v (Normal c) (Penetration c) (Restitution c)
    (Friction c) (ToWorld c) (Velocity c) (BouncingVelocity c)
    (RelativePosition_0 c) (RelativePosition_1 c).

Definition set_Normal (v : Quaternion.t) (c : t) : t :=
  mk (Body_A c) (Body_B c) (Position c) v (Penetration c) (Restitution c)
    (Friction c) (ToWorld c) (Velocity c) (BouncingVelocity c)
    (RelativePosition_0 c) (RelativePosition_1 c).

Definition set_Penetration (v : float) (c : t) : t :=
  mk (Body_A c) (Body_B c) (Position c) (Normal c) v (Restitution c)
    (Friction c) (ToWorld c) (Velocity c) (BouncingVelocity c)
    (RelativePosition_0 c) (RelativePosition_1 c).

Definition set_Restitution (v : float) (c : t) : t :=
  mk (Body_A c) (Body_B c) (Position c) (Normal c) (Penetration c) v
    (Friction c) (ToWorld c) (Velocity c) (BouncingVelocity c)
    (RelativePosition_0 c) (RelativePosition_1 c).

Definition set_Friction (v : float) (c : t) : t :=
  mk (Body_A c) (Body_B c) (Position c) (Normal c) (Penetration c)
    (Restitution c) v (ToWorld c) (Velocity c) (BouncingVelocity c)
    (RelativePosition_0 c) (RelativePosition_1 c).

(** [RelativePosition[ i ]] and its assignment, for [i] in [0, 2). *)
Definition RelativePosition (c : t) (i : nat) : Quaternion.t :=
  match i with
  | O => RelativePosition_0 c
  | S _ => RelativePosition_1 c
  end.

Definition set2 {A : Type} (a : A * A) (i : nat) (v : A) : A * A :=
  match i with
  | O => (v, snd a)
  | S _ => (fst a, v)
  end.

(** The implicit constructor [Collision ()], for the elements of a parcel:
    the quaternions and the tensor are set by their default constructors
    and the other members are left as they are. *)
Definition new : t :=
  mk None None Quaternion.zero Quaternion.zero indeterminate indeterminate
     indeterminate QTensor.Normalized Quaternion.zero indeterminate
     Quaternion.zero Quaternion.zero.

(** [Quaternion Collision::GetImpulse ()] *)
Definition GetImpulse (s : Bodies) (c : t) : Outcome Quaternion.t :=
  let invRedMass := 0 in
  bA ← load s (Body_A c);
  let invRedMass := invRedMass + RigidBody.InverseMass bA in
  let invRedMass := invRedMass +
    Quaternion.Dot
      (Quaternion.Cross
         (QTensor.apply (RigidBody.InverseInertiaWorld bA)
            (Quaternion.Cross (RelativePosition c 0) (Normal c)))
         (RelativePosition c 0))
      (Normal c) in
  invRedMass ←
    match Body_B c with
    | None => Ok invRedMass
    | Some _ =>
        bB ← load s (Body_B c);
        let invRedMass := invRedMass + RigidBody.InverseMass bB in
        Ok (invRedMass +
          Quaternion.Dot
            (Quaternion.Cross
               (QTensor.apply (RigidBody.InverseInertiaWorld bB)
                  (Quaternion.Cross (RelativePosition c 1) (Normal c)))
               (RelativePosition c 1))
            (Normal c))
    end;
  Ok (Quaternion.SpatialVector (BouncingVelocity c / invRedMass) 0 0).

(** [delta_V_contact.m.xx += v; .m.yy += v; .m.zz += v] *)
Definition add_to_diagonal (m : QTensor.t) (v : float) : QTensor.t :=
  QTensor.mk
    (QTensor.xx m + v) (QTensor.yx m) (QTensor.zx m) (QTensor.wx m)
    (QTensor.xy m) (QTensor.yy m + v) (QTensor.zy m) (QTensor.wy m)
    (QTensor.xz m) (QTensor.yz m) (QTensor.zz m + v) (QTensor.wz m)
    (QTensor.xw m) (QTensor.yw m) (QTensor.zw m) (QTensor.ww m).

(** [Quaternion Collision::GetImpulse_IncludeFriction ()] *)
Definition GetImpulse_IncludeFriction (s : Bodies) (c : t)
    : Outcome Quaternion.t :=
  let crossR := QTensor.SetSkewSymmetric (RelativePosition c 0) in
  bA ← load s (Body_A c);
  let delta_V_world :=
    QTensor.neg
      (QTensor.mul (QTensor.mul crossR (RigidBody.InverseInertiaWorld bA))
                   crossR) in
  delta_V_world ←
    match Body_B c with
    | None => Ok delta_V_world
    | Some _ =>
        let crossR := QTensor.SetSkewSymmetric (RelativePosition c 1) in
        bB ← load s (Body_B c);
        Ok (QTensor.add delta_V_world
              (QTensor.neg
                 (QTensor.mul
                    (QTensor.mul crossR (RigidBody.InverseInertiaWorld bB))
                    crossR)))
    end;
  let delta_V_contact :=
    QTensor.TransformInverseTensor (ToWorld c) delta_V_world in
  inverseReducedMass ←
    match Body_B c with
    | None => Ok (RigidBody.InverseMass bA + 0.0)
    | Some _ =>
        bB ← load s (Body_B c);
        Ok (RigidBody.InverseMass bA + RigidBody.InverseMass bB)
    end;
  let delta_V_contact := add_to_diagonal delta_V_contact inverseReducedMass in
  if Friction c =? 0 then
    Ok (Quaternion.mk 0 (BouncingVelocity c / QTensor.xx delta_V_contact) 0 0)
  else
    let target_V :=
      Quaternion.mk 0 (BouncingVelocity c)
        (- Quaternion.y (Velocity c)) (- Quaternion.z (Velocity c)) in
    let J := QTensor.apply (QTensor.Inverse delta_V_contact) target_V in
    let J_tangential :=
      PrimFloat.sqrt (Quaternion.y J * Quaternion.y J
            + Quaternion.z J * Quaternion.z J) in
    if Quaternion.x J * Friction c <? J_tangential then
      let Jy := Quaternion.y J / J_tangential in
      let Jz := Quaternion.z J / J_tangential in
      let invm :=
        QTensor.xx delta_V_contact
        + QTensor.xy delta_V_contact * Friction c * Jy
        + QTensor.xz delta_V_contact * Friction c * Jz in
      let j_normal := BouncingVelocity c / invm in
      Ok (Quaternion.mk (Quaternion.w J) j_normal
            (Jy * (Friction c * j_normal))
            (Jz * (Friction c * j_normal)))
    else Ok J.

(** [void Collision::ImpulseTransfer( Quaternion V_jolt[2],
    Quaternion W_jolt[2] )]; the two arrays are the caller's. *)
Definition ImpulseTransfer (s : Bodies) (c : t)
    (V_jolt W_jolt : Quaternion.t * Quaternion.t)
    : Outcome (Bodies * (Quaternion.t * Quaternion.t)
                      * (Quaternion.t * Quaternion.t)) :=
  J_contact ←
    (if Friction c =? 0 then GetImpulse s c
     else GetImpulse_IncludeFriction s c);
  let J := QTensor.apply (ToWorld c) J_contact in
  let J_torque := Quaternion.Cross (RelativePosition c 0) J in
  bA ← load s (Body_A c);
  let bA := RigidBody.set_LinearMomentum
    (Quaternion.add (RigidBody.LinearMomentum bA) J) bA in
  let bA := RigidBody.set_AngularMomentum
    (Quaternion.add (RigidBody.AngularMomentum bA) J_torque) bA in
  s ← store s (Body_A c) bA;
  let V_jolt := set2 V_jolt 0
    (Quaternion.lscale (RigidBody.InverseMass bA) J) in
  let W_jolt := set2 W_jolt 0
    (QTensor.apply (RigidBody.InverseInertiaWorld bA) J_torque) in
  match Body_B c with
  | None => Ok (s, V_jolt, W_jolt)
  | Some _ =>
      let J_torque := Quaternion.Cross (RelativePosition c 1) J in
      bB ← load s (Body_B c);
      let bB := RigidBody.set_LinearMomentum
        (Quaternion.sub (RigidBody.LinearMomentum bB) J) bB in
      let bB := RigidBody.set_AngularMomentum
        (Quaternion.sub (RigidBody.AngularMomentum bB) J_torque) bB in
      s ← store s (Body_B c) bB;
      let V_jolt := set2 V_jolt 1
        (Quaternion.neg (Quaternion.lscale (RigidBody.InverseMass bB) J)) in
      let W_jolt := set2 W_jolt 1
        (Quaternion.neg
           (QTensor.apply (RigidBody.InverseInertiaWorld bB) J_torque)) in
      Ok (s, V_jolt, W_jolt)
  end.

End Collision.

(** *** CollisionResolver.h *)

Module CollisionResolver.

(** [Collisions] is the parcel the user allocated, as the array of its
    elements; [NextFree] is the offset of the pointer [NextFree] in it. *)
Record t : Type := mk {
  MaxCollisionCount : Z;
  Collisions : list Collision.t;
  NextFree : nat;
  FreeCount : Z;
  CollisionCount : Z;
  Restitution : float;
  Relaxation : float;
  Friction : float
}.

(** [CollisionResolver( Collision* allocationArea, unsigned length )] *)
Definition new (allocationArea : list Collision.t) (length : Z) : t :=
  mk length allocationArea 0 length 0 1.0 0.2 0.0.

(** [unsigned Count () const] *)
Definition Count (r : t) : Z := CollisionCount r.

(** [bool HasSpaceForMoreContacts () const] *)
Definition HasSpaceForMoreContacts (r : t) : bool :=
  bool_decide (FreeCount r > 0)%Z.

(** [void Initialize ()] *)
Definition Initialize (r : t) : t :=
  mk (MaxCollisionCount r) (Collisions r) 0 (MaxCollisionCount r) 0
     (Restitution r) (Relaxation r) (Friction r).

(** [unsigned RegisterNewContact( body_A, body_B, position, normal,
    penetration )]: the registry after the call and the returned value. *)
Definition RegisterNewContact (r : t) (body_A body_B : BodyPtr)
    (position normal : Quaternion.t) (penetration : float) : Outcome (t * Z) :=
  if decide (FreeCount r <= 0)%Z then Ok (r, 0%Z)
  else
    match Collisions r !! NextFree r with
    | None => Raise OutOfBounds
    | Some slot =>
        let slot := Collision.set_Body_A body_A slot in
        let slot := Collision.set_Body_B body_B slot in
        let slot := Collision.set_Position position slot in
        let slot := Collision.set_Normal normal slot in
        let slot := Collision.set_Penetration penetration slot in
        let slot := Collision.set_Friction (Friction r) slot in
        let slot := Collision.set_Restitution (Restitution r) slot in
        Ok (mk (MaxCollisionCount r)
               (<[NextFree r := slot]> (Collisions r))
               (S (NextFree r))
               (unsigned_of (FreeCount r - 1))
               (unsigned_of (CollisionCount r + 1))
               (Restitution r) (Relaxation r) (Friction r),
            1%Z)
    end.

End CollisionResolver.

(** *** Geometry.h, CollisionDetection.cpp *)

Module Geometry.

Inductive GeometryClass : Type := _Sphere | _Cuboid | _HalfSpace | _TruePlane.

(** A geometry: the members of [Geometry] and, side by side, the members
    of the classes derived from it ([Radius] of a [Sphere], [HalfExtent]
    of a [Cuboid], [Direction] and [Offset] of a [HalfSpace] or a
    [TruePlane]); [Class] says which of them the object has. *)
Record t : Type := mk {
  Class : GeometryClass;
  Body : BodyPtr;
  Radius : float;
  HalfExtent : Quaternion.t;
  Direction : Quaternion.t;
  Offset : float
}.

(** [Quaternion Position () const] *)
Definition Position (s : Bodies) (g : t) : Outcome Quaternion.t :=
  match Body g with
  | Some _ => b ← load s (Body g); QTensor.Column (RigidBody.ToWorld b) 3
  | None => Ok (Quaternion.of_scalar 0.0)
  end.

(** [unsigned Sphere::Check( CollisionResolver& owner,
    const TruePlane& plane ) const] *)
Definition Sphere_Check_TruePlane (s : Bodies)
    (owner : CollisionResolver.t) (this plane : t)
    : Outcome (CollisionResolver.t * Z) :=
  if negb (CollisionResolver.HasSpaceForMoreContacts owner) then
    Ok (owner, 0%Z)
  else
    position ← Position s this;
    let distance :=
      Quaternion.Dot (Direction plane) position - Offset plane in
    if Radius this * Radius this <? distance * distance then
      Ok (owner, 0%Z)
    else
      let normal := Direction plane in
      let penetration := - distance in
      let '(normal, penetration) :=
        if distance <? 0 then (Quaternion.neg normal, - penetration)
        else (normal, penetration) in
      let penetration := penetration + Radius this in
      CollisionResolver.RegisterNewContact owner
        (Body this) None
        (Quaternion.sub position (Quaternion.scale (Direction plane) distance))
        normal
        penetration.

(** [unsigned Sphere::Check( CollisionResolver& owner,
    const HalfSpace& plane ) const] *)
Definition Sphere_Check_HalfSpace (s : Bodies)
    (owner : CollisionResolver.t) (this plane : t)
    : Outcome (CollisionResolver.t * Z) :=
  if negb (CollisionResolver.HasSpaceForMoreContacts owner) then
    Ok (owner, 0%Z)
  else
    position ← Position s this;
    let distance :=
      Quaternion.Dot (Direction plane) position - Radius this
      - Offset plane in
    if 0 <=? distance then Ok (owner, 0%Z)
    else
      CollisionResolver.RegisterNewContact owner
        (Body this) None
        (Quaternion.sub position
           (Quaternion.scale (Direction plane) (distance + Radius this)))
        (Direction plane)
        (- distance).

(** [unsigned Sphere::Check( CollisionResolver& owner,
    const Sphere& B ) const] *)
Definition Sphere_Check_Sphere (s : Bodies)
    (owner : CollisionResolver.t) (this B : t)
    : Outcome (CollisionResolver.t * Z) :=
  if negb (CollisionResolver.HasSpaceForMoreContacts owner) then
    Ok (owner, 0%Z)
  else
    position_A ← Position s this;
    position_B ← Position s B;
    let displacement := Quaternion.sub position_A position_B in
    let distance := Quaternion.ImNorm displacement in
    if Radius this + Radius B <=? distance then Ok (owner, 0%Z)
    else
      let inverse := 1.0 / distance in
      CollisionResolver.RegisterNewContact owner
        (Body this) (Body B)
        (Quaternion.add position_B (Quaternion.scale displacement 0.5))
        (Quaternion.scale displacement inverse)
        (Radius this + Radius B - distance).

End Geometry.

(** *** Well-formed registries *)

(** The parcel of a registry has [MaxCollisionCount] elements. *)
Definition parcel_ok (r : CollisionResolver.t) : Prop :=
  (0 <= CollisionResolver.MaxCollisionCount r < unsigned_modulus)%Z /\
  length (CollisionResolver.Collisions r)
  = Z.to_nat (CollisionResolver.MaxCollisionCount r).

(** The registry is in a state that [Initialize] and [RegisterNewContact]
    lead to. *)
Definition registry_ok (r : CollisionResolver.t) : Prop :=
  parcel_ok r /\
  (0 <= CollisionResolver.CollisionCount r
     <= CollisionResolver.MaxCollisionCount r)%Z /\
  Z.of_nat (CollisionResolver.NextFree r) = CollisionResolver.CollisionCount r /\
  CollisionResolver.FreeCount r
  = (CollisionResolver.MaxCollisionCount r
     - CollisionResolver.CollisionCount r)%Z.

(** The contact with the given members that a registration writes into the
    element [slot] of the parcel of [r]: the restitution and the friction
    are those of the registry, and the members that [RegisterNewContact]
    does not assign are those of [slot]. *)
Definition contact_in (r : CollisionResolver.t) (slot : Collision.t)
    (body_A body_B : BodyPtr) (position normal : Quaternion.t)
    (penetration : float) : Collision.t :=
  Collision.mk body_A body_B position normal penetration
    (CollisionResolver.Restitution r) (CollisionResolver.Friction r)
    (Collision.ToWorld slot) (Collision.Velocity slot)
    (Collision.BouncingVelocity slot) (Collision.RelativePosition_0 slot)
    (Collision.RelativePosition_1 slot).

(** The registry after a successful registration of [c]. *)
Definition appended (r : CollisionResolver.t) (c : Collision.t)
    : CollisionResolver.t :=
  CollisionResolver.mk
    (CollisionResolver.MaxCollisionCount r)
    (<[CollisionResolver.NextFree r := c]> (CollisionResolver.Collisions r))
    (S (CollisionResolver.NextFree r))
    (CollisionResolver.FreeCount r - 1)
    (CollisionResolver.CollisionCount r + 1)
    (CollisionResolver.Restitution r)
    (CollisionResolver.Relaxation r)
    (CollisionResolver.Friction r).

(** *** States used as examples *)

Module Examples.

(** An empty registry over a parcel of one element. *)
Definition registry_of_one : CollisionResolver.t :=
  CollisionResolver.Initialize (CollisionResolver.new [Collision.new] 1).

(** A body of mass 1 at [X], not rotated, with the linear momentum [P];
    the inverse of its inertia is left as the constructor sets it. *)
Definition body_at (X P : Quaternion.t) : RigidBody.t :=
  RigidBody.mk 1 QTensor.Normalized X (Quaternion.mk 1 0 0 0) P
    Quaternion.zero
    (QTensor.mk 1 0 0 0  0 1 0 0  0 0 1 0
       (Quaternion.x X) (Quaternion.y X) (Quaternion.z X) 1)
    QTensor.Normalized P Quaternion.zero Quaternion.zero 0 0 0 0 false
    Quaternion.zero Quaternion.zero true false.

(** The sphere of radius [r] of the body [this]. *)
Definition sphere (this : nat) (r : float) : Geometry.t :=
  Geometry.mk Geometry._Sphere (Some this) r Quaternion.zero
    Quaternion.zero indeterminate.

(** The half-space [y <= offset] and the plane [y = offset]. *)
Definition half_space (offset : float) : Geometry.t :=
  Geometry.mk Geometry._HalfSpace None indeterminate Quaternion.zero
    (Quaternion.mk 0 0 1 0) offset.

Definition true_plane (offset : float) : Geometry.t :=
  Geometry.mk Geometry._TruePlane None indeterminate Quaternion.zero
    (Quaternion.mk 0 0 1 0) offset.

(** A ball of radius 0.1 whose centre is at the height 0.7, and one whose
    centre is at the height 0.65. *)
Definition ball_on_the_floor : Bodies :=
  [body_at (Quaternion.mk 0 0 0.7 0) Quaternion.zero].

Definition ball_in_the_floor : Bodies :=
  [body_at (Quaternion.mk 0 0 0.65 0) Quaternion.zero].

(** A ball whose centre is at the height 0.1. *)
Definition ball_under_the_plane : Bodies :=
  [body_at (Quaternion.mk 0 0 0.1 0) Quaternion.zero].

(** Two balls whose centres are 0.3 apart. *)
Definition two_balls : Bodies :=
  [body_at (Quaternion.mk 0 0.3 0 0) Quaternion.zero;
   body_at Quaternion.zero Quaternion.zero].

(** Two bodies of mass 1, the first with the linear momentum (0.9, 0, 0)
    and the second at rest, and a contact between them without friction,
    with the normal along x and the bouncing velocity - 0.4. *)
Definition moving_and_resting : Bodies :=
  [body_at Quaternion.zero (Quaternion.mk 0 0.9 0 0);
   body_at Quaternion.zero Quaternion.zero].

Definition contact_of_two (friction : float) : Collision.t :=
  Collision.mk (Some 0%nat) (Some 1%nat) Quaternion.zero
    (Quaternion.mk 0 1 0 0) 0 1 friction QTensor.Identity
    (Quaternion.mk 0 0.4 0 0) (- 0.4) Quaternion.zero Quaternion.zero.

End Examples.

End Binary64.

(** * Properties *)

(** Reduction of the member accesses and member assignments only, which
    leaves the arithmetic as it is written. *)
Ltac members :=
  cbn [
      RigidBody.InverseMass RigidBody.set_InverseMass
      RigidBody.InverseInertiaBody RigidBody.set_InverseInertiaBody
      RigidBody.Position RigidBody.set_Position RigidBody.Orientation
      RigidBody.set_Orientation RigidBody.LinearMomentum
      RigidBody.set_LinearMomentum RigidBody.AngularMomentum
      RigidBody.set_AngularMomentum RigidBody.ToWorld RigidBody.set_ToWorld
      RigidBody.InverseInertiaWorld RigidBody.set_InverseInertiaWorld
      RigidBody.Velocity RigidBody.set_Velocity RigidBody.AngularVelocity
      RigidBody.set_AngularVelocity RigidBody.TotalAngularMomentum
      RigidBody.set_TotalAngularMomentum RigidBody.KineticEnergy
      RigidBody.set_KineticEnergy RigidBody.PotentialEnergy
      RigidBody.set_PotentialEnergy RigidBody.AverageKineticEnergy
      RigidBody.set_AverageKineticEnergy RigidBody.KineticEnergyThreshold
      RigidBody.set_KineticEnergyThreshold RigidBody.KineticEnergyDamping
      RigidBody.set_KineticEnergyDamping RigidBody.Force RigidBody.set_Force
      RigidBody.Torque RigidBody.set_Torque RigidBody.IsActive
      RigidBody.set_IsActive RigidBody.CanBeDeactivated
      RigidBody.set_CanBeDeactivated Collision.Body_A Collision.set_Body_A
      Collision.Body_B Collision.set_Body_B Collision.Position
      Collision.set_Position Collision.Normal Collision.set_Normal
      Collision.Penetration Collision.set_Penetration Collision.Restitution
      Collision.set_Restitution Collision.Friction Collision.set_Friction
      Collision.ToWorld Collision.set_ToWorld Collision.Velocity
      Collision.set_Velocity Collision.BouncingVelocity
      Collision.set_BouncingVelocity Collision.RelativePosition_0
      Collision.set_RelativePosition_0 Collision.RelativePosition_1
      Collision.set_RelativePosition_1 Collision.RelativePosition
      Collision.set_RelativePosition Collision.Body Collision.get2
      Collision.set2 Quaternion.w Quaternion.x Quaternion.y Quaternion.z
      QTensor.xx QTensor.yx QTensor.zx QTensor.wx QTensor.xy QTensor.yy
      QTensor.zy QTensor.wy QTensor.xz QTensor.yz QTensor.zz QTensor.wz
      QTensor.xw QTensor.yw QTensor.zw QTensor.ww
      CollisionResolver.MaxCollisionCount CollisionResolver.Collisions
      CollisionResolver.NextFree CollisionResolver.FreeCount
      CollisionResolver.CollisionCount CollisionResolver.Restitution
      CollisionResolver.Relaxation CollisionResolver.Friction
      CollisionResolver.set_Collision CollisionResolver.Count Geometry.Class
      Geometry.Body Geometry.Radius Geometry.HalfExtent Geometry.Direction
      Geometry.Offset WorldOfRigidBodies.MaxObjects
      WorldOfRigidBodies.MaxCollisions WorldOfRigidBodies.ObjectCount
      WorldOfRigidBodies.Object WorldOfRigidBodies.Gravity
      WorldOfRigidBodies.Time WorldOfRigidBodies.TimeStepCount
      WorldOfRigidBodies.TotalKineticEnergy
      WorldOfRigidBodies.TotalPotentialEnergy
      WorldOfRigidBodies.TotalLinearMomentum
      WorldOfRigidBodies.TotalAngularMomentum WorldOfRigidBodies.Collisions
      WorldOfRigidBodies.set_Collisions WorldOfRigidBodies.set_clock
      WorldOfRigidBodies.set_totals fst snd mbind mret Outcome_bind
      Outcome_ret
  ].
Ltac members_in H :=
  cbn [
      RigidBody.InverseMass RigidBody.set_InverseMass
      RigidBody.InverseInertiaBody RigidBody.set_InverseInertiaBody
      RigidBody.Position RigidBody.set_Position RigidBody.Orientation
      RigidBody.set_Orientation RigidBody.LinearMomentum
      RigidBody.set_LinearMomentum RigidBody.AngularMomentum
      RigidBody.set_AngularMomentum RigidBody.ToWorld RigidBody.set_ToWorld
      RigidBody.InverseInertiaWorld RigidBody.set_InverseInertiaWorld
      RigidBody.Velocity RigidBody.set_Velocity RigidBody.AngularVelocity
      RigidBody.set_AngularVelocity RigidBody.TotalAngularMomentum
      RigidBody.set_TotalAngularMomentum RigidBody.KineticEnergy
      RigidBody.set_KineticEnergy RigidBody.PotentialEnergy
      RigidBody.set_PotentialEnergy RigidBody.AverageKineticEnergy
      RigidBody.set_AverageKineticEnergy RigidBody.KineticEnergyThreshold
      RigidBody.set_KineticEnergyThreshold RigidBody.KineticEnergyDamping
      RigidBody.set_KineticEnergyDamping RigidBody.Force RigidBody.set_Force
      RigidBody.Torque RigidBody.set_Torque RigidBody.IsActive
      RigidBody.set_IsActive RigidBody.CanBeDeactivated
      RigidBody.set_CanBeDeactivated Collision.Body_A Collision.set_Body_A
      Collision.Body_B Collision.set_Body_B Collision.Position
      Collision.set_Position Collision.Normal Collision.set_Normal
      Collision.Penetration Collision.set_Penetration Collision.Restitution
      Collision.set_Restitution Collision.Friction Collision.set_Friction
      Collision.ToWorld Collision.set_ToWorld Collision.Velocity
      Collision.set_Velocity Collision.BouncingVelocity
      Collision.set_BouncingVelocity Collision.RelativePosition_0
      Collision.set_RelativePosition_0 Collision.RelativePosition_1
      Collision.set_RelativePosition_1 Collision.RelativePosition
      Collision.set_RelativePosition Collision.Body Collision.get2
      Collision.set2 Quaternion.w Quaternion.x Quaternion.y Quaternion.z
      QTensor.xx QTensor.yx QTensor.zx QTensor.wx QTensor.xy QTensor.yy
      QTensor.zy QTensor.wy QTensor.xz QTensor.yz QTensor.zz QTensor.wz
      QTensor.xw QTensor.yw QTensor.zw QTensor.ww
      CollisionResolver.MaxCollisionCount CollisionResolver.Collisions
      CollisionResolver.NextFree CollisionResolver.FreeCount
      CollisionResolver.CollisionCount CollisionResolver.Restitution
      CollisionResolver.Relaxation CollisionResolver.Friction
      CollisionResolver.set_Collision CollisionResolver.Count Geometry.Class
      Geometry.Body Geometry.Radius Geometry.HalfExtent Geometry.Direction
      Geometry.Offset WorldOfRigidBodies.MaxObjects
      WorldOfRigidBodies.MaxCollisions WorldOfRigidBodies.ObjectCount
      WorldOfRigidBodies.Object WorldOfRigidBodies.Gravity
      WorldOfRigidBodies.Time WorldOfRigidBodies.TimeStepCount
      WorldOfRigidBodies.TotalKineticEnergy
      WorldOfRigidBodies.TotalPotentialEnergy
      WorldOfRigidBodies.TotalLinearMomentum
      WorldOfRigidBodies.TotalAngularMomentum WorldOfRigidBodies.Collisions
      WorldOfRigidBodies.set_Collisions WorldOfRigidBodies.set_clock
      WorldOfRigidBodies.set_totals fst snd mbind mret Outcome_bind
      Outcome_ret
  ] in H.

(** ** Divisions and outcomes *)

Lemma fdiv_Ok (a b : R) : b <> 0 -> fdiv a b = Ok (a / b).
Proof. intros H. unfold fdiv. case_decide; [contradiction | reflexivity]. Qed.

Lemma fdiv_zero (a : R) : fdiv a 0 = Raise DivisionByZero.
Proof. unfold fdiv. case_decide; [reflexivity | contradiction]. Qed.

Lemma bind_Ok {A B : Type} (m : Outcome A) (k : A -> Outcome B) (b : B) :
  m ≫= k = Ok b -> exists a, m = Ok a /\ k a = Ok b.
Proof. destruct m as [a | f]; cbn; [eauto | discriminate]. Qed.

(** ** The mass of a rigid body *)

Lemma Mass_decode (b : RigidBody.t) :
  RigidBody.Mass b =
    Ok (if decide (RigidBody.InverseMass b = 0) then 1e30
        else if decide (RigidBody.InverseMass b >= 1e30) then 0
        else 1 / RigidBody.InverseMass b).
Proof.
  unfold RigidBody.Mass. repeat case_decide; try reflexivity.
  - f_equal; lra.
  - rewrite fdiv_Ok by assumption. f_equal; lra.
Qed.

Lemma SetupMass_Ok (mass : R) (b : RigidBody.t) :
  RigidBody.SetupMass mass b =
    Ok (RigidBody.set_KineticEnergyThreshold (0.3 * mass)
          (RigidBody.set_InverseMass
             (if decide (mass = 0) then 1e30
              else if decide (mass >= 1e30) then 0 else 1 / mass) b)).
Proof.
  unfold RigidBody.SetupMass. repeat case_decide; members; try reflexivity.
  - do 3 f_equal; lra.
  - rewrite fdiv_Ok by assumption. members. do 3 f_equal; lra.
Qed.

(** C1, as stated, fails: a mass of 0 is stored as the inverse mass 1e30,
    not as the inverse mass 0 of an immovable body, and a mass of 1e30 is
    stored as the inverse mass 0, which [Mass] reads as 1e30, not as 0. *)
Lemma SetupMass_zero_is_not_immovable :
  ~ (exists b, RigidBody.SetupMass 0 RigidBody.new = Ok b
               /\ RigidBody.InverseMass b = 0)
  /\ ~ (exists b, RigidBody.SetupMass 1e30 RigidBody.new = Ok b
                  /\ RigidBody.Mass b = Ok 0).
Proof.
  split; intros (b & Hb & H); rewrite SetupMass_Ok in Hb;
    injection Hb as <-.
  - revert H. members. repeat case_decide; lra.
  - rewrite Mass_decode in H. injection H as H.
    revert H. members. repeat case_decide; lra.
Qed.

(** C1, amended: [SetupMass] stores the mass through its inverse, a mass of
    0 as the inverse mass 1e30 (massless: [Mass] reads 0), a mass of 1e30 or
    more as the inverse mass 0 (immovable: [Mass] reads 1e30) and every
    other mass [m] as [1 / m]; [Mass] reads a stored inverse mass [i] other
    than 0 and below 1e30 as [1 / i]. *)
Theorem SetupMass_encoding (b : RigidBody.t) (mass : R) :
  exists b', RigidBody.SetupMass mass b = Ok b' /\
    (mass = 0 ->
       RigidBody.InverseMass b' = 1e30 /\ RigidBody.Mass b' = Ok 0) /\
    (mass >= 1e30 ->
       RigidBody.InverseMass b' = 0 /\ RigidBody.Mass b' = Ok 1e30) /\
    (mass <> 0 -> mass < 1e30 -> RigidBody.InverseMass b' = 1 / mass) /\
    (RigidBody.InverseMass b' <> 0 -> RigidBody.InverseMass b' < 1e30 ->
       RigidBody.Mass b' = Ok (1 / RigidBody.InverseMass b')).
Proof.
  eexists. split; [apply SetupMass_Ok |].
  rewrite Mass_decode. members.
  split; [| split; [| split]].
  - intros ->. repeat case_decide; try lra. split; [lra | f_equal; lra].
  - intros H. repeat case_decide; try lra. split; [lra | f_equal; lra].
  - intros H0 H1. repeat case_decide; lra.
  - intros H0 H1. repeat case_decide; try lra; reflexivity.
Qed.

Lemma SetupMass_encoding_witness :
  exists b', RigidBody.SetupMass 2 RigidBody.new = Ok b' /\
    RigidBody.InverseMass b' = 1 / 2 /\
    RigidBody.Mass b' = Ok (1 / RigidBody.InverseMass b').
Proof.
  destruct (SetupMass_encoding RigidBody.new 2) as (b' & H & _ & _ & H3 & H4).
  exists b'. split; [exact H |].
  assert (RigidBody.InverseMass b' = 1 / 2) as E by (apply H3; lra).
  split; [exact E |]. apply H4; rewrite E; lra.
Defined.

(** *** Over binary64 *)

Section Binary64_mass.

Import PrimFloat.
#[local] Open Scope float_scope.
#[local] Set Warnings "-inexact-float".

(** The encoding of the mass over binary64, case by case as in
    [SetupMass_encoding]. *)
Lemma Binary64_SetupMass_encoding (b : Binary64.RigidBody.t) (mass : float) :
  let b' := Binary64.RigidBody.SetupMass mass b in
  ((mass =? 0) = true ->
     Binary64.RigidBody.InverseMass b' = 1e30 /\
     Binary64.RigidBody.Mass b' = 0) /\
  ((mass =? 0) = false -> (1e30 <=? mass) = true ->
     Binary64.RigidBody.InverseMass b' = 0 /\
     Binary64.RigidBody.Mass b' = 1e30) /\
  ((mass =? 0) = false -> (1e30 <=? mass) = false ->
     Binary64.RigidBody.InverseMass b' = 1 / mass) /\
  ((Binary64.RigidBody.InverseMass b' =? 0) = false ->
   (1e30 <=? Binary64.RigidBody.InverseMass b') = false ->
     Binary64.RigidBody.Mass b' = 1 / Binary64.RigidBody.InverseMass b').
Proof.
  intros b'. unfold Binary64.RigidBody.Mass. subst b'.
  unfold Binary64.RigidBody.SetupMass. destruct b.
  cbn [Binary64.RigidBody.InverseMass Binary64.RigidBody.set_InverseMass
       Binary64.RigidBody.set_KineticEnergyThreshold].
  split; [| split; [| split]].
  - intros ->. split; reflexivity.
  - intros -> ->. split; reflexivity.
  - intros -> ->. reflexivity.
  - intros -> ->. reflexivity.
Qed.

(** The mass 49 is read back as 49.00000000000001, the mass 2 as 2. *)
Lemma Binary64_Mass_read_back :
  Binary64.RigidBody.Mass
    (Binary64.RigidBody.SetupMass 49 Binary64.RigidBody.new)
  = 49.00000000000001 /\
  (49.00000000000001 =? 49) = false /\
  Binary64.RigidBody.Mass
    (Binary64.RigidBody.SetupMass 2 Binary64.RigidBody.new) = 2.
Proof. repeat split; vm_compute; reflexivity. Qed.

End Binary64_mass.


(** ** Activation of a rigid body *)

Lemma Activate_inactive (b : RigidBody.t) :
  RigidBody.IsActive b = false ->
  exists m, RigidBody.Mass b = Ok m /\
    RigidBody.Activate b
    = Ok (RigidBody.set_AverageKineticEnergy (0.6 * m)
            (RigidBody.set_IsActive true b)).
Proof.
  intros H. eexists. split; [apply Mass_decode |].
  unfold RigidBody.Activate. rewrite H. cbn [negb].
  rewrite Mass_decode. members. do 2 f_equal. lra.
Qed.

Lemma Activate_active (b : RigidBody.t) :
  RigidBody.IsActive b = true -> RigidBody.Activate b = Ok b.
Proof. intros H. unfold RigidBody.Activate. now rewrite H. Qed.

(** C10: [Activate] acts on the transition from inactive to active only.
    On an active body it changes nothing; on an inactive body it sets
    [IsActive], assigns 0.6 times the mass to [AverageKineticEnergy] and
    leaves every other member as it is; applied twice it does what it does
    applied once. *)
Theorem Activate_only_on_transition (b : RigidBody.t) :
  (RigidBody.IsActive b = true -> RigidBody.Activate b = Ok b) /\
  (RigidBody.IsActive b = false ->
     exists m b', RigidBody.Mass b = Ok m /\
       RigidBody.Activate b = Ok b' /\
       RigidBody.IsActive b' = true /\
       RigidBody.AverageKineticEnergy b' = 0.6 * m /\
       b' = RigidBody.mk
              (RigidBody.InverseMass b) (RigidBody.InverseInertiaBody b)
              (RigidBody.Position b) (RigidBody.Orientation b)
              (RigidBody.LinearMomentum b) (RigidBody.AngularMomentum b)
              (RigidBody.ToWorld b) (RigidBody.InverseInertiaWorld b)
              (RigidBody.Velocity b) (RigidBody.AngularVelocity b)
              (RigidBody.TotalAngularMomentum b) (RigidBody.KineticEnergy b)
              (RigidBody.PotentialEnergy b) (0.6 * m)
              (RigidBody.KineticEnergyThreshold b)
              (RigidBody.KineticEnergyDamping b) (RigidBody.Force b)
              (RigidBody.Torque b) true (RigidBody.CanBeDeactivated b)) /\
  (exists b', RigidBody.Activate b = Ok b' /\
     RigidBody.IsActive b' = true /\ RigidBody.Activate b' = Ok b').
Proof.
  split; [apply Activate_active |]. split.
  - intros E. destruct (Activate_inactive b E) as (m & Hm & ->).
    exists m. eexists. split; [exact Hm |]. split; [reflexivity |].
    split; [reflexivity |]. split; reflexivity.
  - destruct (RigidBody.IsActive b) eqn:E.
    + exists b. rewrite Activate_active by assumption.
      auto using Activate_active.
    + destruct (Activate_inactive b E) as (m & _ & ->).
      eexists. split; [reflexivity |]. split; [reflexivity |].
      now apply Activate_active.
Qed.

Lemma Activate_only_on_transition_witness :
  (exists m b', RigidBody.Mass RigidBody.new = Ok m /\
     RigidBody.Activate RigidBody.new = Ok b' /\
     RigidBody.IsActive b' = true /\
     RigidBody.AverageKineticEnergy b' = 0.6 * m) /\
  RigidBody.Activate (RigidBody.set_IsActive true RigidBody.new)
  = Ok (RigidBody.set_IsActive true RigidBody.new).
Proof.
  split.
  - destruct (Activate_only_on_transition RigidBody.new) as (_ & H & _).
    destruct (H eq_refl) as (m & b' & Hm & Hrun & Hact & Havg & _).
    exists m, b'. auto.
  - apply (Activate_only_on_transition
             (RigidBody.set_IsActive true RigidBody.new)). reflexivity.
Defined.

Section Binary64_seed.

Import PrimFloat.
#[local] Open Scope float_scope.
#[local] Set Warnings "-inexact-float".

(** The factor [2 * 0.3] of the sources is the double 0.6. *)
Lemma Binary64_seed_factor : 2 * 0.3 = 0.6.
Proof. vm_compute. reflexivity. Qed.

End Binary64_seed.

(** ** Position and axes of a geometry *)

Lemma Column_in_range (m : QTensor.t) (j : Z) :
  (0 <= j <= 3)%Z -> exists q, QTensor.Column m j = Ok q.
Proof.
  intros H. unfold QTensor.Column. repeat case_decide; eauto. lia.
Qed.

(** What [Position] and [Axis] return, with and without a body. *)
Lemma Position_and_Axis (s : Bodies) (g : Geometry.t) :
  (Geometry.Body g = None ->
     Geometry.Position s g = Ok Quaternion.zero /\
     forall i, Geometry.Axis s g i = Ok Quaternion.zero) /\
  (forall b, Geometry.Body g <> None -> load s (Geometry.Body g) = Ok b ->
     Geometry.Position s g = QTensor.Column (RigidBody.ToWorld b) 3 /\
     forall i, Geometry.Axis s g i = QTensor.Column (RigidBody.ToWorld b) i).
Proof.
  unfold Geometry.Position, Geometry.Axis. split.
  - intros ->.
    assert (Quaternion.of_scalar 0.0 = Quaternion.zero) as ->
      by (unfold Quaternion.of_scalar, Quaternion.zero; f_equal; lra).
    auto.
  - intros b Hb Hload. destruct (Geometry.Body g) as [p |]; [| contradiction].
    rewrite Hload. auto.
Qed.

(** C9 (the code at the failing input): [Position] is the column 3 of the
    world transform of the body of the geometry, and the zero vector for a
    scenery geometry, and [Axis( i )] is the column [i] of that transform,
    as the claim says.  For a scenery geometry, here a half-space among any
    bodies, [Axis( i )] is the zero vector as well, for every [i]: it is
    none of the unit vectors [X], [Y] and [Z] of the world, and it has the
    norm 0, whereas the comment of [Axis] in Geometry.h promises the unit
    base vectors of the geometry. *)
Theorem Axis_of_scenery_is_not_a_basis_vector (s : Bodies) (i : Z) :
  Geometry.Position s Geometry.HalfSpace = Ok Quaternion.zero /\
  Geometry.Axis s Geometry.HalfSpace i = Ok Quaternion.zero /\
  Quaternion.zero <> Const.X /\ Quaternion.zero <> Const.Y /\
  Quaternion.zero <> Const.Z /\
  Quaternion.SquaredNorm Quaternion.zero = 0 /\
  forall (b : RigidBody.t) (g : Geometry.t),
    Geometry.Body g <> None -> load s (Geometry.Body g) = Ok b ->
    Geometry.Position s g = QTensor.Column (RigidBody.ToWorld b) 3 /\
    Geometry.Axis s g i = QTensor.Column (RigidBody.ToWorld b) i.
Proof.
  destruct (Position_and_Axis s Geometry.HalfSpace) as [H _].
  destruct (H eq_refl) as [HP HA].
  split; [exact HP |]. split; [apply HA |].
  split; [intros E; injection E; lra |].
  split; [intros E; injection E; lra |].
  split; [intros E; injection E; lra |].
  split; [unfold Quaternion.SquaredNorm, Quaternion.zero; cbn; lra |].
  intros b g Hg Hload.
  destruct (Position_and_Axis s g) as [_ H']. destruct (H' b Hg Hload) as [E1 E2].
  split; [exact E1 | apply E2].
Qed.

(** ** Adding a geometry to the world *)

(** C3 (the code at the failing input): when the world holds [MaxObjects]
    objects, [Add] stores the pointer behind the last element of [Object];
    the function has no test of the capacity and calls no [SevereError]. *)
Theorem Add_past_capacity (w : WorldOfRigidBodies.t) (object : Geometry.t) :
  world_ok w ->
  WorldOfRigidBodies.ObjectCount w = WorldOfRigidBodies.MaxObjects w ->
  WorldOfRigidBodies.Add w object = Raise OutOfBounds.
Proof.
  intros (_ & Hlen & _) Hfull. unfold WorldOfRigidBodies.Add.
  rewrite Hfull, lookup_ge_None_2; [reflexivity | lia].
Qed.

Lemma Add_past_capacity_witness :
  world_ok Examples.full_world /\
  WorldOfRigidBodies.ObjectCount Examples.full_world
  = WorldOfRigidBodies.MaxObjects Examples.full_world /\
  WorldOfRigidBodies.Add Examples.full_world Geometry.HalfSpace
  = Raise OutOfBounds.
Proof.
  assert (world_ok Examples.full_world) as Hok
    by (unfold world_ok, unsigned_modulus; cbn; lia).
  split; [exact Hok |]. split; [reflexivity |].
  apply (Add_past_capacity Examples.full_world Geometry.HalfSpace Hok).
  reflexivity.
Defined.

(** ** The registry of contacts *)

Lemma Initialize_ok (r : CollisionResolver.t) :
  parcel_ok r -> registry_ok (CollisionResolver.Initialize r).
Proof.
  intros [Hmax Hlen]. unfold registry_ok, parcel_ok. cbn. repeat split; lia.
Qed.

Lemma unsigned_of_small (n : Z) :
  (0 <= n < unsigned_modulus)%Z -> unsigned_of n = n.
Proof. intros H. unfold unsigned_of. now apply Z.mod_small. Qed.

Lemma register_full (r : CollisionResolver.t) (a : Registration) :
  registry_ok r ->
  CollisionResolver.Count r = CollisionResolver.MaxCollisionCount r ->
  register r a = Ok (r, 0%Z).
Proof.
  intros (_ & _ & _ & Hfree) Hfull.
  unfold register, CollisionResolver.RegisterNewContact.
  unfold CollisionResolver.Count in Hfull.
  case_decide; [reflexivity | lia].
Qed.

Lemma register_space (r : CollisionResolver.t) (a : Registration) :
  registry_ok r ->
  CollisionResolver.Count r <> CollisionResolver.MaxCollisionCount r ->
  exists slot c,
    CollisionResolver.Collisions r !! Z.to_nat (CollisionResolver.Count r)
    = Some slot /\
    registered r a slot c /\
    register r a = Ok (appended r c, 1%Z) /\
    registry_ok (appended r c).
Proof.
  intros ([Hmax Hlen] & Hcount & Hnext & Hfree) Hspace.
  unfold CollisionResolver.Count in *.
  assert (CollisionResolver.NextFree r
          = Z.to_nat (CollisionResolver.CollisionCount r)) as Hn by lia.
  destruct (lookup_lt_is_Some_2 (CollisionResolver.Collisions r)
              (CollisionResolver.NextFree r)) as [slot Hslot]; [lia |].
  exists slot. eexists. split; [now rewrite <- Hn |].
  split; [| split].
  2: { unfold register, CollisionResolver.RegisterNewContact.
       case_decide; [lia |]. rewrite Hslot. unfold appended.
       rewrite !unsigned_of_small by lia. reflexivity. }
  - unfold registered. members. repeat split; reflexivity.
  - unfold registry_ok, parcel_ok, appended. cbn.
    rewrite length_insert. repeat split; lia.
Qed.

Lemma successes_cons (ret : Z) (rets : list Z) :
  successes (ret :: rets)
  = ((if decide (ret = 1)%Z then 1 else 0) + successes rets)%Z.
Proof.
  unfold successes. rewrite filter_cons. case_decide; cbn [length]; lia.
Qed.

Lemma register_all_ok (calls : list Registration) :
  forall r, registry_ok r ->
  exists r' rets,
    register_all r calls = Ok (r', rets) /\
    registry_ok r' /\
    CollisionResolver.MaxCollisionCount r'
    = CollisionResolver.MaxCollisionCount r /\
    CollisionResolver.Count r'
    = (CollisionResolver.Count r + successes rets)%Z.
Proof.
  induction calls as [| a calls IH]; intros r Hr.
  - exists r, []. cbn [register_all]. unfold successes. cbn.
    split; [reflexivity |]. split; [exact Hr |]. split; [reflexivity | lia].
  - destruct (decide (CollisionResolver.Count r
                      = CollisionResolver.MaxCollisionCount r)) as [Hfull | Hsp].
    + destruct (IH r Hr) as (r' & rets & Hrun & Hok & Hmax & Hcnt).
      exists r', (0%Z :: rets). cbn [register_all].
      rewrite (register_full r a Hr Hfull). cbn. rewrite Hrun. cbn.
      rewrite successes_cons. case_decide; [lia |].
      split; [reflexivity |]. split; [exact Hok |]. split; [exact Hmax |].
      rewrite Hcnt. lia.
    + destruct (register_space r a Hr Hsp) as (slot & c & _ & _ & Hreg & Hok1).
      destruct (IH _ Hok1) as (r' & rets & Hrun & Hok & Hmax & Hcnt).
      exists r', (1%Z :: rets). cbn [register_all].
      rewrite Hreg. cbn. rewrite Hrun. cbn.
      rewrite successes_cons. case_decide; [| lia].
      split; [reflexivity |]. split; [exact Hok |]. split; [exact Hmax |].
      rewrite Hcnt. unfold appended, CollisionResolver.Count. cbn. lia.
Qed.

(** C2: after [Initialize], whatever the sequence of the calls of
    [RegisterNewContact], a call returns 0 and leaves the registry as it is
    when the parcel is full, and otherwise writes one contact behind the
    contacts registered so far, adds one to the counter and returns 1; the
    number of contacts is the number of the calls that returned 1 and it
    does not exceed [MaxCollisionCount]. *)
Theorem RegisterNewContact_counts (r0 : CollisionResolver.t)
    (calls : list Registration) :
  parcel_ok r0 ->
  exists r rets,
    register_all (CollisionResolver.Initialize r0) calls = Ok (r, rets) /\
    CollisionResolver.Count r = successes rets /\
    (CollisionResolver.Count r <= CollisionResolver.MaxCollisionCount r0)%Z /\
    forall a,
      (CollisionResolver.Count r = CollisionResolver.MaxCollisionCount r0 ->
         register r a = Ok (r, 0%Z)) /\
      (CollisionResolver.Count r <> CollisionResolver.MaxCollisionCount r0 ->
         exists slot c,
           CollisionResolver.Collisions r
             !! Z.to_nat (CollisionResolver.Count r) = Some slot /\
           registered r a slot c /\
           register r a = Ok (appended r c, 1%Z) /\
           CollisionResolver.Collisions (appended r c)
           = <[Z.to_nat (CollisionResolver.Count r) := c]>
               (CollisionResolver.Collisions r) /\
           CollisionResolver.Count (appended r c)
           = (CollisionResolver.Count r + 1)%Z).
Proof.
  intros Hparcel.
  destruct (register_all_ok calls _ (Initialize_ok r0 Hparcel))
    as (r & rets & Hrun & Hok & Hmax & Hcnt).
  cbn in Hmax. exists r, rets. split; [exact Hrun |].
  split; [rewrite Hcnt; unfold CollisionResolver.Count; cbn; lia |].
  split; [destruct Hok as (_ & ? & _); unfold CollisionResolver.Count; lia |].
  intros a. split.
  - intros Hfull. apply register_full; [exact Hok | congruence].
  - intros Hsp.
    destruct (register_space r a Hok) as (slot & c & Hslot & Hc & Hreg & _);
      [congruence |].
    exists slot, c.
    split; [exact Hslot |]. split; [exact Hc |]. split; [exact Hreg |].
    destruct Hok as (_ & _ & Hnext & _).
    unfold appended, CollisionResolver.Count in *. cbn. split; [| reflexivity].
    f_equal. lia.
Qed.

Lemma RegisterNewContact_counts_witness :
  parcel_ok Examples.registry_of_one /\
  exists r rets,
    register_all (CollisionResolver.Initialize Examples.registry_of_one)
      [Examples.a_registration; Examples.a_registration] = Ok (r, rets) /\
    CollisionResolver.Count r = successes rets /\
    (CollisionResolver.Count r <= 1)%Z.
Proof.
  assert (parcel_ok Examples.registry_of_one) as Hok
    by (unfold parcel_ok, unsigned_modulus; cbn; lia).
  split; [exact Hok |].
  destruct (RegisterNewContact_counts Examples.registry_of_one
              [Examples.a_registration; Examples.a_registration] Hok)
    as (r & rets & Hrun & Hcnt & Hle & _).
  exists r, rets. auto.
Defined.

(** ** Detection: a sphere against a half-space, over binary64 *)

Section Binary64_HalfSpace.

Import PrimFloat.
#[local] Open Scope float_scope.
#[local] Set Warnings "-inexact-float".

Lemma Binary64_HasSpace_iff (r : Binary64.CollisionResolver.t) :
  Binary64.registry_ok r ->
  Binary64.CollisionResolver.HasSpaceForMoreContacts r = true <->
  Binary64.CollisionResolver.Count r
  <> Binary64.CollisionResolver.MaxCollisionCount r.
Proof.
  intros (_ & Hcount & _ & Hfree).
  unfold Binary64.CollisionResolver.HasSpaceForMoreContacts,
    Binary64.CollisionResolver.Count.
  rewrite bool_decide_eq_true. lia.
Qed.

(** A registration in a registry that has space left. *)
Lemma Binary64_register_space (r : Binary64.CollisionResolver.t)
    (body_A body_B : BodyPtr) (position normal : Binary64.Quaternion.t)
    (penetration : float) :
  Binary64.registry_ok r ->
  Binary64.CollisionResolver.HasSpaceForMoreContacts r = true ->
  exists slot,
    Binary64.CollisionResolver.Collisions r
      !! Z.to_nat (Binary64.CollisionResolver.Count r) = Some slot /\
    let c := Binary64.contact_in r slot body_A body_B position normal
               penetration in
    Binary64.CollisionResolver.RegisterNewContact r body_A body_B position
      normal penetration
    = Ok (Binary64.appended r c, 1%Z) /\
    Binary64.CollisionResolver.Collisions (Binary64.appended r c)
      !! Z.to_nat (Binary64.CollisionResolver.Count r) = Some c /\
    Binary64.CollisionResolver.Count (Binary64.appended r c)
    = (Binary64.CollisionResolver.Count r + 1)%Z /\
    Binary64.registry_ok (Binary64.appended r c).
Proof.
  intros Hok Hspace. apply (Binary64_HasSpace_iff r Hok) in Hspace.
  destruct Hok as ([Hmax Hlen] & Hcount & Hnext & Hfree).
  unfold Binary64.CollisionResolver.Count in *.
  assert (Binary64.CollisionResolver.NextFree r
          = Z.to_nat (Binary64.CollisionResolver.CollisionCount r)) as Hn
    by lia.
  destruct (lookup_lt_is_Some_2 (Binary64.CollisionResolver.Collisions r)
              (Binary64.CollisionResolver.NextFree r)) as [slot Hslot];
    [lia |].
  exists slot. split; [now rewrite <- Hn |]. cbv zeta.
  split; [| split; [| split]].
  - unfold Binary64.CollisionResolver.RegisterNewContact.
    case_decide; [lia |]. rewrite Hslot. unfold Binary64.appended.
    rewrite !unsigned_of_small by lia. reflexivity.
  - unfold Binary64.appended.
    cbn [Binary64.CollisionResolver.Collisions]. rewrite <- Hn.
    apply list_lookup_insert_eq. lia.
  - reflexivity.
  - unfold Binary64.registry_ok, Binary64.parcel_ok, Binary64.appended.
    cbn [Binary64.CollisionResolver.MaxCollisionCount
         Binary64.CollisionResolver.Collisions
         Binary64.CollisionResolver.NextFree
         Binary64.CollisionResolver.FreeCount
         Binary64.CollisionResolver.CollisionCount].
    rewrite length_insert. repeat split; lia.
Qed.

(** C7: for a sphere at [X_s] of radius [r] and a half-space of normal [n]
    and offset [d_plane], with [d = n . X_s - r - d_plane] as the detector
    computes it: if [d >= 0] the detector registers nothing and returns 0;
    otherwise, given space in the registry, it registers one contact, at
    [X_s - n (d + r)], with the normal [n] and the penetration [- d],
    between the body of the sphere and the scenery, and returns 1. *)
Theorem Sphere_Check_HalfSpace_contact (s : Binary64.Bodies)
    (owner : Binary64.CollisionResolver.t)
    (this plane : Binary64.Geometry.t) (X_s : Binary64.Quaternion.t) :
  Binary64.registry_ok owner ->
  Binary64.Geometry.Position s this = Ok X_s ->
  let n := Binary64.Geometry.Direction plane in
  let r := Binary64.Geometry.Radius this in
  let d := Binary64.Quaternion.Dot n X_s - r
           - Binary64.Geometry.Offset plane in
  ((0 <=? d) = true ->
     Binary64.Geometry.Sphere_Check_HalfSpace s owner this plane
     = Ok (owner, 0%Z)) /\
  ((0 <=? d) = false ->
   Binary64.CollisionResolver.HasSpaceForMoreContacts owner = true ->
     exists slot,
       Binary64.CollisionResolver.Collisions owner
         !! Z.to_nat (Binary64.CollisionResolver.Count owner) = Some slot /\
       let c :=
         Binary64.contact_in owner slot (Binary64.Geometry.Body this) None
           (Binary64.Quaternion.sub X_s (Binary64.Quaternion.scale n (d + r)))
           n (- d) in
       Binary64.Geometry.Sphere_Check_HalfSpace s owner this plane
       = Ok (Binary64.appended owner c, 1%Z) /\
       Binary64.CollisionResolver.Collisions (Binary64.appended owner c)
         !! Z.to_nat (Binary64.CollisionResolver.Count owner) = Some c /\
       Binary64.CollisionResolver.Count (Binary64.appended owner c)
       = (Binary64.CollisionResolver.Count owner + 1)%Z).
Proof.
  intros Hok HX n r d. unfold Binary64.Geometry.Sphere_Check_HalfSpace.
  split.
  - intros Hd.
    destruct (Binary64.CollisionResolver.HasSpaceForMoreContacts owner);
      [| reflexivity].
    cbn [negb]. rewrite HX. cbn [mbind Outcome_bind].
    fold n r d. now rewrite Hd.
  - intros Hd Hspace. rewrite Hspace. cbn [negb].
    rewrite HX. cbn [mbind Outcome_bind]. fold n r d. rewrite Hd.
    destruct (Binary64_register_space owner (Binary64.Geometry.Body this)
                None
                (Binary64.Quaternion.sub X_s
                   (Binary64.Quaternion.scale n (d + r)))
                n (- d) Hok Hspace)
      as (slot & Hslot & Hreg & Hc & Hcount & _).
    exists slot. split; [exact Hslot |]. cbv zeta.
    split; [exact Hreg |]. split; [exact Hc | exact Hcount].
Qed.

Lemma Sphere_Check_HalfSpace_contact_witness :
  Binary64.Geometry.Sphere_Check_HalfSpace Binary64.Examples.ball_on_the_floor
    Binary64.Examples.registry_of_one (Binary64.Examples.sphere 0 0.1)
    (Binary64.Examples.half_space 0.6)
  = Ok (Binary64.Examples.registry_of_one, 0%Z) /\
  exists slot,
    let c :=
      Binary64.contact_in Binary64.Examples.registry_of_one slot
        (Some 0%nat) None
        (Binary64.Quaternion.mk 1 0 0.6 0) (Binary64.Quaternion.mk 0 0 1 0)
        0.04999999999999993 in
    Binary64.Geometry.Sphere_Check_HalfSpace
      Binary64.Examples.ball_in_the_floor
      Binary64.Examples.registry_of_one (Binary64.Examples.sphere 0 0.1)
      (Binary64.Examples.half_space 0.6)
    = Ok (Binary64.appended Binary64.Examples.registry_of_one c, 1%Z).
Proof.
  assert (Binary64.registry_ok Binary64.Examples.registry_of_one) as Hok.
  { unfold Binary64.registry_ok, Binary64.parcel_ok, unsigned_modulus.
    cbn. lia. }
  split.
  - apply (Sphere_Check_HalfSpace_contact Binary64.Examples.ball_on_the_floor
             Binary64.Examples.registry_of_one (Binary64.Examples.sphere 0 0.1)
             (Binary64.Examples.half_space 0.6)
             (Binary64.Quaternion.mk 1 0 0.7 0) Hok eq_refl).
    vm_compute. reflexivity.
  - destruct (Sphere_Check_HalfSpace_contact
                Binary64.Examples.ball_in_the_floor
                Binary64.Examples.registry_of_one
                (Binary64.Examples.sphere 0 0.1)
                (Binary64.Examples.half_space 0.6)
                (Binary64.Quaternion.mk 1 0 0.65 0) Hok eq_refl) as [_ H].
    destruct H as (slot & _ & Hrun & _).
    + vm_compute. reflexivity.
    + reflexivity.
    + exists slot. cbv zeta in Hrun |- *. rewrite Hrun.
      vm_compute. reflexivity.
Defined.

End Binary64_HalfSpace.

(** ** Detection: two spheres *)

Lemma ImNorm_of_no_displacement (X : Quaternion.t) :
  Quaternion.ImNorm (Quaternion.sub X X) = 0.
Proof.
  unfold Quaternion.ImNorm, Quaternion.ImSquaredNorm, Quaternion.sub. members.
  replace ((Quaternion.x X - Quaternion.x X) * (Quaternion.x X - Quaternion.x X)
           + (Quaternion.y X - Quaternion.y X) * (Quaternion.y X - Quaternion.y X)
           + (Quaternion.z X - Quaternion.z X) * (Quaternion.z X - Quaternion.z X))
    with 0 by ring.
  apply sqrt_0.
Qed.

(** C8 (the code at the failing input): for two spheres with one and the
    same centre and a positive sum of the radii the distance of the centres,
    0, is below the sum of the radii, no test stops the detector, and the
    normal [displacement * ( 1.0 / distance )] is computed with the
    divisor 0. *)
Theorem Sphere_Check_Sphere_coincident (s : Bodies)
    (owner : CollisionResolver.t) (this B : Geometry.t) (X : Quaternion.t) :
  CollisionResolver.HasSpaceForMoreContacts owner = true ->
  Geometry.Position s this = Ok X ->
  Geometry.Position s B = Ok X ->
  Geometry.Radius this + Geometry.Radius B > 0 ->
  Geometry.Sphere_Check_Sphere s owner this B = Raise DivisionByZero.
Proof.
  intros Hspace HA HB Hr. unfold Geometry.Sphere_Check_Sphere.
  rewrite Hspace, HA, HB. cbn [negb mbind Outcome_bind].
  rewrite ImNorm_of_no_displacement.
  case_decide; [lra |]. now rewrite fdiv_zero.
Qed.

Lemma Sphere_Check_Sphere_coincident_witness :
  Geometry.Sphere_Check_Sphere []
    (CollisionResolver.Initialize Examples.registry_of_one)
    (Examples.sphere_of_radius 1) (Examples.sphere_of_radius 1)
  = Raise DivisionByZero.
Proof.
  apply (Sphere_Check_Sphere_coincident []
    (CollisionResolver.Initialize Examples.registry_of_one)
    (Examples.sphere_of_radius 1) (Examples.sphere_of_radius 1)
    (Quaternion.of_scalar 0.0)).
  - reflexivity.
  - reflexivity.
  - reflexivity.
  - cbn. lra.
Defined.

(** ** The number of iterations of the resolvers *)

Lemma iterate_passes {St : Type} (pass : St -> Outcome (option St))
    (n : nat) : forall st, (fst (CollisionResolver.iterate pass n st) <= n)%nat.
Proof.
  induction n as [| n IH]; intros st; cbn; [lia |].
  destruct (pass st) as [[st' |] | f]; cbn; try lia.
  specialize (IH st').
  destruct (CollisionResolver.iterate pass n st') as [k res]. cbn in *. lia.
Qed.

Lemma default_maxIterations (count : Z) :
  (0 <= count)%Z ->
  (Z.to_nat (unsigned_of (8 * count)) <= 8 * Z.to_nat count)%nat.
Proof.
  intros H. unfold unsigned_of, unsigned_modulus.
  assert (0 <= (8 * count) mod 2 ^ 32 <= 8 * count)%Z.
  { split; [apply Z.mod_pos_bound; lia | apply Z.mod_le; lia]. }
  lia.
Qed.

(** C6: called with [maxIterations = 0], each of the two resolvers goes
    through the body of its loop 8 times the number of the registered
    contacts at most, whatever the contacts are and whatever [eps] is. *)
Theorem resolvers_iteration_cap (s : Bodies) (r : CollisionResolver.t)
    (h eps : R) :
  (0 <= CollisionResolver.CollisionCount r)%Z ->
  (fst (CollisionResolver.ImpulseTransfers s r h 0 eps)
   <= 8 * Z.to_nat (CollisionResolver.CollisionCount r))%nat /\
  (fst (CollisionResolver.PositionProjections s r 0 eps)
   <= 8 * Z.to_nat (CollisionResolver.CollisionCount r))%nat.
Proof.
  intros Hcount.
  unfold CollisionResolver.ImpulseTransfers,
    CollisionResolver.PositionProjections.
  split; (case_decide; [cbn; lia |]);
    (destruct (decide (0 = 0)%Z) as [_ | Hne]; [| now destruct Hne]);
    (etransitivity; [apply iterate_passes | now apply default_maxIterations]).
Qed.

Lemma resolvers_iteration_cap_witness :
  (fst (CollisionResolver.ImpulseTransfers [RigidBody.new]
          Examples.one_contact 0.01 0 0.01) <= 8)%nat /\
  (fst (CollisionResolver.PositionProjections [RigidBody.new]
          Examples.one_contact 0 0.01) <= 8)%nat.
Proof.
  apply (resolvers_iteration_cap [RigidBody.new] Examples.one_contact
           0.01 0.01).
  cbn. lia.
Defined.

(** ** Accesses to the bodies *)

Lemma load_Some (s : Bodies) (i : nat) (b : RigidBody.t) :
  s !! i = Some b -> load s (Some i) = Ok b.
Proof. intros H. unfold load. now rewrite H. Qed.

Lemma store_Some (s : Bodies) (i : nat) (b0 b : RigidBody.t) :
  s !! i = Some b0 -> store s (Some i) b = Ok (<[i := b]> s).
Proof. intros H. unfold store. now rewrite H. Qed.

Lemma load_Ok (s : Bodies) (p : BodyPtr) (b : RigidBody.t) :
  load s p = Ok b -> exists i, p = Some i /\ s !! i = Some b.
Proof.
  unfold load. destruct p as [i |]; [| discriminate].
  destruct (s !! i) eqn:E; [| discriminate]. intros [= <-]. eauto.
Qed.

Lemma store_Ok (s s' : Bodies) (p : BodyPtr) (b : RigidBody.t) :
  store s p b = Ok s' ->
  exists i, p = Some i /\ is_Some (s !! i) /\ s' = <[i := b]> s.
Proof.
  unfold store. destruct p as [i |]; [| discriminate].
  destruct (s !! i) eqn:E; [| discriminate]. intros [= <-]. eauto.
Qed.

Lemma Quaternion_eq (p q : Quaternion.t) :
  Quaternion.w p = Quaternion.w q -> Quaternion.x p = Quaternion.x q ->
  Quaternion.y p = Quaternion.y q -> Quaternion.z p = Quaternion.z q ->
  p = q.
Proof. destruct p, q. cbn. now intros -> -> -> ->. Qed.

(** ** Impulse transfer, over binary64 *)

Section Binary64_ImpulseTransfer.

Import PrimFloat.
#[local] Open Scope float_scope.
#[local] Set Warnings "-inexact-float".

Lemma Binary64_load_Some (s : Binary64.Bodies) (i : nat)
    (b : Binary64.RigidBody.t) :
  s !! i = Some b -> Binary64.load s (Some i) = Ok b.
Proof. intros H. unfold Binary64.load. now rewrite H. Qed.

Lemma Binary64_store_Some (s : Binary64.Bodies) (i : nat)
    (b0 b : Binary64.RigidBody.t) :
  s !! i = Some b0 -> Binary64.store s (Some i) b = Ok (<[i := b]> s).
Proof. intros H. unfold Binary64.store. now rewrite H. Qed.

(** No arithmetic stops the computation of the impulse: it returns for
    every contact whose two bodies exist, with and without friction. *)
Lemma Binary64_GetImpulse_total (s : Binary64.Bodies)
    (c : Binary64.Collision.t) (a b : nat)
    (bA bB : Binary64.RigidBody.t) :
  Binary64.Collision.Body_A c = Some a ->
  Binary64.Collision.Body_B c = Some b ->
  s !! a = Some bA -> s !! b = Some bB ->
  exists J_contact,
    (if Binary64.Collision.Friction c =? 0
     then Binary64.Collision.GetImpulse s c
     else Binary64.Collision.GetImpulse_IncludeFriction s c) = Ok J_contact.
Proof.
  intros HA HB Ha Hb.
  destruct (Binary64.Collision.Friction c =? 0) eqn:HF.
  - unfold Binary64.Collision.GetImpulse. cbv zeta.
    rewrite HA, (Binary64_load_Some _ _ _ Ha). cbn [mbind Outcome_bind].
    rewrite HB, (Binary64_load_Some _ _ _ Hb). cbn [mbind Outcome_bind].
    eauto.
  - unfold Binary64.Collision.GetImpulse_IncludeFriction. cbv zeta.
    rewrite HA, (Binary64_load_Some _ _ _ Ha). cbn [mbind Outcome_bind].
    rewrite HB, (Binary64_load_Some _ _ _ Hb). cbn [mbind Outcome_bind].
    rewrite HF.
    match goal with
    | |- context [if ?t then _ else _] => destruct t
    end; eauto.
Qed.

(** What an impulse transfer between two different bodies leaves. *)
Lemma Binary64_ImpulseTransfer_eq (s : Binary64.Bodies)
    (c : Binary64.Collision.t)
    (V_jolt W_jolt : Binary64.Quaternion.t * Binary64.Quaternion.t)
    (a b : nat) (bA bB : Binary64.RigidBody.t)
    (J_contact : Binary64.Quaternion.t) :
  Binary64.Collision.Body_A c = Some a ->
  Binary64.Collision.Body_B c = Some b -> a <> b ->
  s !! a = Some bA -> s !! b = Some bB ->
  (if Binary64.Collision.Friction c =? 0
   then Binary64.Collision.GetImpulse s c
   else Binary64.Collision.GetImpulse_IncludeFriction s c) = Ok J_contact ->
  let J := Binary64.QTensor.apply (Binary64.Collision.ToWorld c) J_contact in
  let tA := Binary64.Quaternion.Cross
              (Binary64.Collision.RelativePosition c 0) J in
  let tB := Binary64.Quaternion.Cross
              (Binary64.Collision.RelativePosition c 1) J in
  let bA' :=
    Binary64.RigidBody.set_AngularMomentum
      (Binary64.Quaternion.add (Binary64.RigidBody.AngularMomentum bA) tA)
      (Binary64.RigidBody.set_LinearMomentum
         (Binary64.Quaternion.add (Binary64.RigidBody.LinearMomentum bA) J)
         bA) in
  let bB' :=
    Binary64.RigidBody.set_AngularMomentum
      (Binary64.Quaternion.sub (Binary64.RigidBody.AngularMomentum bB) tB)
      (Binary64.RigidBody.set_LinearMomentum
         (Binary64.Quaternion.sub (Binary64.RigidBody.LinearMomentum bB) J)
         bB) in
  Binary64.Collision.ImpulseTransfer s c V_jolt W_jolt
  = Ok (<[b := bB']> (<[a := bA']> s),
        (Binary64.Quaternion.lscale (Binary64.RigidBody.InverseMass bA) J,
         Binary64.Quaternion.neg
           (Binary64.Quaternion.lscale (Binary64.RigidBody.InverseMass bB) J)),
        (Binary64.QTensor.apply (Binary64.RigidBody.InverseInertiaWorld bA) tA,
         Binary64.Quaternion.neg
           (Binary64.QTensor.apply
              (Binary64.RigidBody.InverseInertiaWorld bB) tB))) /\
  <[b := bB']> (<[a := bA']> s) !! a = Some bA' /\
  <[b := bB']> (<[a := bA']> s) !! b = Some bB'.
Proof.
  intros HA HB Hne Ha Hb HJ J tA tB bA' bB'.
  unfold Binary64.Collision.ImpulseTransfer.
  rewrite HJ. cbn [mbind Outcome_bind]. cbv zeta.
  rewrite HA, (Binary64_load_Some _ _ _ Ha). cbn [mbind Outcome_bind].
  rewrite (Binary64_store_Some _ _ _ _ Ha). cbn [mbind Outcome_bind].
  rewrite HB.
  rewrite (Binary64_load_Some _ _ bB) by (now rewrite list_lookup_insert_ne).
  cbn [mbind Outcome_bind].
  rewrite (Binary64_store_Some _ _ bB) by (now rewrite list_lookup_insert_ne).
  cbn [mbind Outcome_bind].
  split; [destruct V_jolt, W_jolt; reflexivity |]. split.
  - rewrite list_lookup_insert_ne by congruence.
    apply list_lookup_insert_eq. eapply lookup_lt_Some; eauto.
  - apply list_lookup_insert_eq. rewrite length_insert.
    eapply lookup_lt_Some; eauto.
Qed.




End Binary64_ImpulseTransfer.

(** ** Versors *)

Lemma SquaredNorm_nonneg (q : Quaternion.t) : 0 <= Quaternion.SquaredNorm q.
Proof. unfold Quaternion.SquaredNorm. nra. Qed.

Lemma Normalize_total (q : Quaternion.t) (length : R) :
  exists q', Quaternion.Normalize q length = Ok q'.
Proof.
  unfold Quaternion.Normalize. case_decide; [eauto |].
  rewrite fdiv_Ok by assumption. cbn. eauto.
Qed.

Lemma Normalize_versor (q q' : Quaternion.t) :
  Quaternion.Normalize q 1.0 = Ok q' -> Quaternion.Norm q' = 1.
Proof.
  unfold Quaternion.Normalize, Quaternion.Norm.
  pose proof (SquaredNorm_nonneg q) as Hnn.
  case_decide as Hz.
  - intros [= <-].
    apply sqrt_eq_0 in Hz; [| exact Hnn].
    unfold Quaternion.SquaredNorm in *. members.
    assert (Quaternion.x q = 0 /\ Quaternion.y q = 0 /\ Quaternion.z q = 0)
      as (-> & -> & ->) by (repeat split; nra).
    replace (1.0 * 1.0 + 0 * 0 + 0 * 0 + 0 * 0) with 1 by lra.
    apply sqrt_1.
  - rewrite fdiv_Ok by assumption. cbn [mbind Outcome_bind]. intros [= <-].
    set (n := sqrt (Quaternion.SquaredNorm q)) in *.
    assert (n * n = Quaternion.SquaredNorm q) as Hn
      by (now apply sqrt_sqrt).
    replace (Quaternion.SquaredNorm (Quaternion.scale q (1.0 / n))) with 1;
      [apply sqrt_1 |].
    unfold Quaternion.SquaredNorm, Quaternion.scale in *. members.
    field_simplify_eq; [| exact Hz]. lra.
Qed.

Lemma CalculateDerivedQuantities_versor (fromMomenta : bool)
    (b b' : RigidBody.t) :
  RigidBody.CalculateDerivedQuantities fromMomenta b = Ok b' -> versor b'.
Proof.
  unfold RigidBody.CalculateDerivedQuantities. intros H.
  apply bind_Ok in H as (q & Hq & H). apply Normalize_versor in Hq.
  apply bind_Ok in H as (b1 & Hb1 & H). injection H as <-.
  unfold versor. members.
  destruct fromMomenta.
  - injection Hb1 as <-. exact Hq.
  - apply bind_Ok in Hb1 as (m & _ & Hb1).
    apply bind_Ok in Hb1 as (inertia & _ & Hb1). injection Hb1 as <-.
    exact Hq.
Qed.

Lemma SolveODE_versor (h : R) (b b' : RigidBody.t) :
  versor b -> RigidBody.SolveODE h b = Ok b' -> versor b'.
Proof.
  intros Hb. unfold RigidBody.SolveODE.
  destruct (RigidBody.IsActive b); cbn [negb]; [| now intros [= <-]].
  intros H. apply bind_Ok in H as (b1 & Hb1 & H).
  apply CalculateDerivedQuantities_versor in Hb1.
  destruct (RigidBody.CanBeDeactivated b1); [| now injection H as <-].
  revert H. repeat case_decide; intros [= <-]; exact Hb1.
Qed.

Lemma Activate_versor (b b' : RigidBody.t) :
  versor b -> RigidBody.Activate b = Ok b' -> versor b'.
Proof.
  intros Hb. unfold RigidBody.Activate.
  destruct (RigidBody.IsActive b); cbn [negb]; [now intros [= <-] |].
  intros H. apply bind_Ok in H as (m & _ & H). injection H as <-. exact Hb.
Qed.

(** ** Loops and invariants *)

Lemma for_each_invariant {St : Type} (P : St -> Prop) (indices : list nat)
    (body : nat -> St -> Outcome St) :
  (forall i st st', P st -> body i st = Ok st' -> P st') ->
  forall st st', P st -> for_each indices body st = Ok st' -> P st'.
Proof.
  intros Hbody. induction indices as [| i rest IH]; intros st st' Hst; cbn.
  - now intros [= <-].
  - intros H. apply bind_Ok in H as (st1 & H1 & H). eauto.
Qed.

Lemma iterate_invariant {St : Type} (P : St -> Prop)
    (pass : St -> Outcome (option St)) :
  (forall st st', P st -> pass st = Ok (Some st') -> P st') ->
  forall n st st',
    P st -> snd (CollisionResolver.iterate pass n st) = Ok st' -> P st'.
Proof.
  intros Hpass. induction n as [| n IH]; intros st st' Hst; cbn.
  - now intros [= <-].
  - destruct (pass st) as [[st1 |] | f] eqn:E; cbn.
    + specialize (IH st1 st' (Hpass _ _ Hst E)).
      destruct (CollisionResolver.iterate pass n st1) as [k res]. exact IH.
    + now intros [= <-].
    + discriminate.
Qed.

Lemma load_versor (s : Bodies) (p : BodyPtr) (b : RigidBody.t) :
  Forall versor s -> load s p = Ok b -> versor b.
Proof.
  intros Hs H. apply load_Ok in H as (i & _ & H).
  eapply Forall_lookup_1; eauto.
Qed.

Lemma store_versor (s s' : Bodies) (p : BodyPtr) (b : RigidBody.t) :
  Forall versor s -> versor b -> store s p b = Ok s' -> Forall versor s'.
Proof.
  intros Hs Hb H. apply store_Ok in H as (i & _ & _ & ->).
  now apply Forall_insert.
Qed.

Lemma for_each_body_versor (w : WorldOfRigidBodies.t)
    (visit : BodyPtr -> Bodies -> Outcome Bodies) :
  (forall p s s', Forall versor s -> visit p s = Ok s' -> Forall versor s') ->
  forall s s', Forall versor s ->
    WorldOfRigidBodies.for_each_body w visit s = Ok s' -> Forall versor s'.
Proof.
  intros Hvisit. unfold WorldOfRigidBodies.for_each_body.
  apply for_each_invariant. intros i st st' Hst H.
  apply bind_Ok in H as (g & _ & H).
  destruct (Geometry.Body g); [eauto | now injection H as <-].
Qed.

(** ** The resolvers keep the orientations versors *)

Lemma ActivateInactiveBodies_versor (s s' : Bodies) (c : Collision.t) :
  Forall versor s -> Collision.ActivateInactiveBodies s c = Ok s' ->
  Forall versor s'.
Proof.
  intros Hs. unfold Collision.ActivateInactiveBodies.
  destruct (Collision.Body_B c); [| now intros [= <-]].
  intros H. apply bind_Ok in H as (bA & HbA & H).
  apply bind_Ok in H as (bB & HbB & H).
  destruct (xorb _ _); [| now injection H as <-].
  destruct (RigidBody.IsActive bA);
    apply bind_Ok in H as (b1 & Hb1 & H);
    (eapply store_versor; [exact Hs | | exact H]);
    (eapply Activate_versor; [| exact Hb1]);
    eauto using load_versor.
Qed.

Lemma ImpulseTransfer_versor (s s' : Bodies) (c : Collision.t)
    (V W V' W' : Quaternion.t * Quaternion.t) :
  Forall versor s -> Collision.ImpulseTransfer s c V W = Ok (s', V', W') ->
  Forall versor s'.
Proof.
  intros Hs. unfold Collision.ImpulseTransfer. intros H.
  apply bind_Ok in H as (J & _ & H).
  apply bind_Ok in H as (bA & HbA & H).
  apply bind_Ok in H as (s1 & Hs1 & H).
  assert (Forall versor s1) as Hs1'.
  { eapply store_versor; [exact Hs | | exact Hs1].
    exact (load_versor _ _ _ Hs HbA). }
  destruct (Collision.Body_B c); [| now injection H as <- _ _].
  apply bind_Ok in H as (bB & HbB & H).
  apply bind_Ok in H as (s2 & Hs2 & H). injection H as <- _ _.
  eapply store_versor; [exact Hs1' | | exact Hs2].
  exact (load_versor _ _ _ Hs1' HbB).
Qed.

Lemma PositionProjection_apply_versor (c : Collision.t) (relaxation : R)
    (inverseTotalInertia : R) (inverse_I_world : QTensor.t * QTensor.t)
    (inverseAngInertia : R * R) (i : nat)
    (st st' : Bodies * (Quaternion.t * Quaternion.t)
                     * (Quaternion.t * Quaternion.t)) :
  Forall versor (fst (fst st)) ->
  Collision.PositionProjection_apply c relaxation inverseTotalInertia
    inverse_I_world inverseAngInertia i st = Ok st' ->
  Forall versor (fst (fst st')).
Proof.
  destruct st as [[s X] Q]. cbn [fst]. intros Hs.
  unfold Collision.PositionProjection_apply.
  destruct (Collision.Body c i); [| now intros [= <-]].
  intros H. apply bind_Ok in H as (b & Hb & H).
  apply bind_Ok in H as (rX & _ & H).
  apply bind_Ok in H as (rQ & _ & H).
  destruct (if decide (_ < _) then _ else _) as [delta_X delta_Q].
  apply bind_Ok in H as (s1 & Hs1 & H).
  assert (Forall versor s1) as Hs1'.
  { eapply store_versor; [exact Hs | | exact Hs1].
    exact (load_versor _ _ _ Hs Hb). }
  destruct (decide (delta_Q = 0)); [now injection H as <- |].
  apply bind_Ok in H as (f & _ & H).
  apply bind_Ok in H as (b1 & _ & H).
  apply bind_Ok in H as (b2 & Hb2 & H).
  apply bind_Ok in H as (s2 & Hs2 & H). injection H as <-. cbn [fst].
  eapply store_versor; [exact Hs1' | | exact Hs2].
  exact (CalculateDerivedQuantities_versor _ _ _ Hb2).
Qed.

Lemma PositionProjection_versor (s s' : Bodies) (c : Collision.t)
    (X Q X' Q' : Quaternion.t * Quaternion.t) (relaxation : R) :
  Forall versor s ->
  Collision.PositionProjection s c X Q relaxation = Ok (s', X', Q') ->
  Forall versor s'.
Proof.
  intros Hs. unfold Collision.PositionProjection. intros H.
  apply bind_Ok in H as ([[total inv] ang] & _ & H).
  apply (for_each_invariant (fun st => Forall versor (fst (fst st))) _ _
           (PositionProjection_apply_versor c relaxation total inv ang)
           (s, X, Q) (s', X', Q') Hs H).
Qed.

Lemma ImpulseTransfers_versor (s s' : Bodies) (r r' : CollisionResolver.t)
    (h : R) (maxIterations : Z) (eps : R) :
  Forall versor s ->
  snd (CollisionResolver.ImpulseTransfers s r h maxIterations eps)
  = Ok (s', r') ->
  Forall versor s'.
Proof.
  intros Hs. unfold CollisionResolver.ImpulseTransfers.
  case_decide; [now intros [= <- _] |]. intros Hrun.
  apply (iterate_invariant (fun st => Forall versor (fst st)) _)
    with (st' := (s', r')) in Hrun; [exact Hrun | | exact Hs].
  intros [s0 r0] [s1 r1]. cbn [fst]. intros Hs0 Hpass.
  unfold CollisionResolver.ImpulseTransfers_pass in Hpass.
  apply bind_Ok in Hpass as (k & _ & Hpass).
  destruct k as [k |]; [| discriminate].
  apply bind_Ok in Hpass as (this & _ & Hpass).
  apply bind_Ok in Hpass as (s2 & Hs2 & Hpass).
  apply bind_Ok in Hpass as ([[s3 V] W] & Hs3 & Hpass).
  apply bind_Ok in Hpass as (r2 & _ & Hpass). injection Hpass as <- _.
  eapply ImpulseTransfer_versor; [| exact Hs3].
  eapply ActivateInactiveBodies_versor; eauto.
Qed.

Lemma PositionProjections_versor (s s' : Bodies) (r r' : CollisionResolver.t)
    (maxIterations : Z) (eps : R) :
  Forall versor s ->
  snd (CollisionResolver.PositionProjections s r maxIterations eps)
  = Ok (s', r') ->
  Forall versor s'.
Proof.
  intros Hs. unfold CollisionResolver.PositionProjections.
  case_decide; [now intros [= <- _] |]. intros Hrun.
  apply (iterate_invariant (fun st => Forall versor (fst st)) _)
    with (st' := (s', r')) in Hrun; [exact Hrun | | exact Hs].
  intros [s0 r0] [s1 r1]. cbn [fst]. intros Hs0 Hpass.
  unfold CollisionResolver.PositionProjections_pass in Hpass.
  apply bind_Ok in Hpass as (k & _ & Hpass).
  destruct k as [k |]; [| discriminate].
  apply bind_Ok in Hpass as (this & _ & Hpass).
  apply bind_Ok in Hpass as (s2 & Hs2 & Hpass).
  apply bind_Ok in Hpass as ([[s3 X] Q] & Hs3 & Hpass).
  apply bind_Ok in Hpass as (r2 & _ & Hpass). injection Hpass as <- _.
  eapply PositionProjection_versor; [| exact Hs3].
  eapply ActivateInactiveBodies_versor; eauto.
Qed.

(** The step of the world keeps every orientation a versor, whenever it
    is carried out to its end: every assignment to an orientation, in
    [RigidBody::SolveODE] and in [Collision::PositionProjection], is
    followed by [CalculateDerivedQuantities], and a body that is skipped
    keeps the orientation it has. *)
Lemma World_SolveODE_versors (s s' : Bodies) (w w' : WorldOfRigidBodies.t)
    (h : R) :
  Forall versor s ->
  WorldOfRigidBodies.SolveODE s w h = Ok (s', w') ->
  Forall versor s'.
Proof.
  intros Hs. unfold WorldOfRigidBodies.SolveODE. intros H.
  apply bind_Ok in H as (s1 & Hs1 & H).
  assert (Forall versor s1) as Hv1.
  { eapply for_each_body_versor; [| exact Hs | exact Hs1].
    intros p s0 s0' Hs0 Hv.
    apply bind_Ok in Hv as (b & Hb & Hv).
    apply bind_Ok in Hv as (m & _ & Hv).
    eapply store_versor; [exact Hs0 | | exact Hv].
    exact (load_versor _ _ _ Hs0 Hb). }
  apply bind_Ok in H as (s2 & Hs2 & H).
  assert (Forall versor s2) as Hv2.
  { eapply for_each_body_versor; [| exact Hv1 | exact Hs2].
    intros p s0 s0' Hs0 Hv.
    apply bind_Ok in Hv as (b & Hb & Hv).
    apply bind_Ok in Hv as (b1 & Hb1 & Hv).
    eapply store_versor; [exact Hs0 | | exact Hv].
    eapply SolveODE_versor; [| exact Hb1].
    exact (load_versor _ _ _ Hs0 Hb). }
  apply bind_Ok in H as (w1 & _ & H).
  apply bind_Ok in H as (owner1 & _ & H).
  apply bind_Ok in H as (owner2 & _ & H).
  apply bind_Ok in H as ([s3 owner3] & Hs3 & H).
  apply ImpulseTransfers_versor in Hs3; [| exact Hv2].
  apply bind_Ok in H as ([s4 owner4] & Hs4 & H).
  apply PositionProjections_versor in Hs4; [| exact Hs3].
  apply bind_Ok in H as (s5 & Hs5 & H). injection H as <- _.
  eapply for_each_body_versor; [| exact Hs4 | exact Hs5].
  intros p s0 s0' Hs0 Hv.
  apply bind_Ok in Hv as (b & Hb & Hv).
  eapply store_versor; [exact Hs0 | | exact Hv].
  exact (load_versor _ _ _ Hs0 Hb).
Qed.

Lemma Set_XQVW_versor (X Q V W : Quaternion.t) (b b' : RigidBody.t) :
  RigidBody.Set_XQVW X Q V W b = Ok b' -> versor b'.
Proof. apply CalculateDerivedQuantities_versor. Qed.
(** ** The step of the world on two immovable balls that overlap *)

Lemma fdiv_by_zero (a b : R) : b = 0 -> fdiv a b = Raise DivisionByZero.
Proof. intros ->. apply fdiv_zero. Qed.

Lemma bind_of_Ok {A B : Type} (a : A) (k : A -> Outcome B) :
  Ok a ≫= k = k a.
Proof. reflexivity. Qed.

Lemma bind_step {A B : Type} (m : Outcome A) (a : A)
    (k : A -> Outcome B) (r : Outcome B) :
  m = Ok a -> k a = r -> m ≫= k = r.
Proof. now intros -> <-. Qed.

Lemma sqrt_of_one (v : R) : v = 1 -> sqrt v = 1.
Proof. intros ->. apply sqrt_1. Qed.

(** The value of a term on data that is given in full: the member accesses
    and assignments, the accesses to the bodies, the loops and the
    quaternion algebra are computed; the arithmetic of the real numbers is
    left as it is written. *)
Ltac evaluated term :=
  eval cbv beta iota zeta delta [
      RigidBody.InverseMass RigidBody.set_InverseMass
      RigidBody.InverseInertiaBody RigidBody.set_InverseInertiaBody
      RigidBody.Position RigidBody.set_Position RigidBody.Orientation
      RigidBody.set_Orientation RigidBody.LinearMomentum
      RigidBody.set_LinearMomentum RigidBody.AngularMomentum
      RigidBody.set_AngularMomentum RigidBody.ToWorld RigidBody.set_ToWorld
      RigidBody.InverseInertiaWorld RigidBody.set_InverseInertiaWorld
      RigidBody.Velocity RigidBody.set_Velocity RigidBody.AngularVelocity
      RigidBody.set_AngularVelocity RigidBody.TotalAngularMomentum
      RigidBody.set_TotalAngularMomentum RigidBody.KineticEnergy
      RigidBody.set_KineticEnergy RigidBody.PotentialEnergy
      RigidBody.set_PotentialEnergy RigidBody.AverageKineticEnergy
      RigidBody.set_AverageKineticEnergy RigidBody.KineticEnergyThreshold
      RigidBody.set_KineticEnergyThreshold RigidBody.KineticEnergyDamping
      RigidBody.set_KineticEnergyDamping RigidBody.Force RigidBody.set_Force
      RigidBody.Torque RigidBody.set_Torque RigidBody.IsActive
      RigidBody.set_IsActive RigidBody.CanBeDeactivated
      RigidBody.set_CanBeDeactivated Collision.Body_A Collision.set_Body_A
      Collision.Body_B Collision.set_Body_B Collision.Position
      Collision.set_Position Collision.Normal Collision.set_Normal
      Collision.Penetration Collision.set_Penetration Collision.Restitution
      Collision.set_Restitution Collision.Friction Collision.set_Friction
      Collision.ToWorld Collision.set_ToWorld Collision.Velocity
      Collision.set_Velocity Collision.BouncingVelocity
      Collision.set_BouncingVelocity Collision.RelativePosition_0
      Collision.set_RelativePosition_0 Collision.RelativePosition_1
      Collision.set_RelativePosition_1 Collision.RelativePosition
      Collision.set_RelativePosition Collision.Body Collision.get2
      Collision.set2 Collision.new Quaternion.w Quaternion.x Quaternion.y
      Quaternion.z QTensor.xx QTensor.yx QTensor.zx QTensor.wx QTensor.xy
      QTensor.yy QTensor.zy QTensor.wy QTensor.xz QTensor.yz QTensor.zz
      QTensor.wz QTensor.xw QTensor.yw QTensor.zw QTensor.ww
      CollisionResolver.MaxCollisionCount CollisionResolver.Collisions
      CollisionResolver.NextFree CollisionResolver.FreeCount
      CollisionResolver.CollisionCount CollisionResolver.Restitution
      CollisionResolver.Relaxation CollisionResolver.Friction
      CollisionResolver.set_Collision CollisionResolver.Count
      CollisionResolver.each_collision CollisionResolver.Initialize
      CollisionResolver.new Geometry.Class Geometry.Body Geometry.Radius
      Geometry.HalfExtent Geometry.Direction Geometry.Offset
      WorldOfRigidBodies.MaxObjects WorldOfRigidBodies.MaxCollisions
      WorldOfRigidBodies.ObjectCount WorldOfRigidBodies.Object
      WorldOfRigidBodies.Gravity WorldOfRigidBodies.Time
      WorldOfRigidBodies.TimeStepCount WorldOfRigidBodies.TotalKineticEnergy
      WorldOfRigidBodies.TotalPotentialEnergy
      WorldOfRigidBodies.TotalLinearMomentum
      WorldOfRigidBodies.TotalAngularMomentum WorldOfRigidBodies.Collisions
      WorldOfRigidBodies.set_Collisions WorldOfRigidBodies.set_clock
      WorldOfRigidBodies.set_totals Examples.immovable_pair
      Examples.immovable_ball Examples.centre_A Examples.centre_B
      Examples.unit_sphere Examples.world_of_pair Examples.registry_of_one
      Examples.registry_with Examples.contact_registered
      Examples.contact_updated Examples.contact_point Examples.contact_normal
      Quaternion.zero Quaternion.of_scalar Quaternion.SpatialVector
      Quaternion.neg Quaternion.add Quaternion.sub Quaternion.mul
      Quaternion.scale Quaternion.lscale Quaternion.Cross Quaternion.Dot
      Quaternion.SquaredNorm Quaternion.ImSquaredNorm Quaternion.Norm
      Quaternion.ImNorm QTensor.SetColumnVectors
      QTensor.SetFromOrientationAndPosition QTensor.apply QTensor.transform
      QTensor.TransformInverse Geometry.Sphere fst snd mbind mret
      Outcome_bind Outcome_ret load store lookup list_lookup insert
      list_insert for_each seq negb xorb andb orb
      WorldOfRigidBodies.object indeterminate
  ] in term.

Ltac evaluate :=
  lazymatch goal with
  | |- ?G => let G' := evaluated G in change G'
  end.

(** Two values of a record type that are given in full are equal when
    their members are equal as real numbers. *)
Ltac same_record :=
  evaluate;
  repeat lazymatch goal with
  | |- @eq (Outcome _) (Ok _) (Ok _) => f_equal
  | |- @eq (_ * _) (_, _) (_, _) => f_equal
  | |- @eq (list _) (_ :: _) (_ :: _) => f_equal
  | |- @eq RigidBody.t _ _ => f_equal
  | |- @eq Collision.t _ _ => f_equal
  | |- @eq CollisionResolver.t _ _ => f_equal
  | |- @eq QTensor.t _ _ => f_equal
  | |- @eq Quaternion.t _ _ => f_equal
  end;
  try first [ring | lra].

(** The comparison of two real numbers that are given in full. *)
Ltac decide_real :=
  lazymatch goal with
  | |- context [decide ?P] =>
      first [ rewrite (decide_True (P := P))
                by (unfold Rabs; repeat destruct Rcase_abs; lra)
            | rewrite (decide_False (P := P))
                by (unfold Rabs; repeat destruct Rcase_abs; lra) ]
  end.

Lemma Normalize_of_versor (q : Quaternion.t) :
  Quaternion.Norm q = 1 -> Quaternion.Normalize q 1.0 = Ok q.
Proof.
  intros H. unfold Quaternion.Normalize. rewrite H.
  case_decide; [lra |]. rewrite fdiv_Ok by lra. cbn [mbind Outcome_bind].
  f_equal. apply Quaternion_eq; unfold Quaternion.scale; members; lra.
Qed.

Lemma Norm_of_identity : Quaternion.Norm (Quaternion.mk 1 0 0 0) = 1.
Proof.
  unfold Quaternion.Norm, Quaternion.SquaredNorm. members.
  apply sqrt_of_one. ring.
Qed.

(** *** The bodies *)

Lemma Mass_immovable_ball (X : Quaternion.t) :
  RigidBody.Mass (Examples.immovable_ball X) = Ok 1e30.
Proof.
  rewrite Mass_decode. unfold Examples.immovable_ball. members.
  case_decide; [reflexivity | lra].
Qed.

(** Without gravity, nothing is added to the force on a ball. *)
Lemma AddExternalForce_immovable_ball (X : Quaternion.t) (m : R) :
  RigidBody.AddExternalForce
    (Quaternion.lscale m (Quaternion.of_scalar 0.0))
    (- Quaternion.Dot (Quaternion.lscale m (Quaternion.of_scalar 0.0))
         (RigidBody.Position (Examples.immovable_ball X)))
    (Examples.immovable_ball X)
  = Examples.immovable_ball X.
Proof.
  destruct X as [Xw Xx Xy Xz]. unfold RigidBody.AddExternalForce.
  same_record.
Qed.

(** An immovable ball at rest stays as it is. *)
Lemma SolveODE_immovable_ball (h : R) (X : Quaternion.t) :
  RigidBody.SolveODE h (Examples.immovable_ball X)
  = Ok (Examples.immovable_ball X).
Proof.
  destruct X as [Xw Xx Xy Xz].
  unfold RigidBody.SolveODE, Examples.immovable_ball. members. cbn [negb].
  unfold RigidBody.CalculateDerivedQuantities. members.
  match goal with
  | |- context [Quaternion.Normalize ?q _] =>
      replace q with (Quaternion.mk 1 0 0 0)
        by (evaluate; apply Quaternion_eq; members; ring)
  end.
  rewrite (Normalize_of_versor _ Norm_of_identity).
  same_record.
Qed.

(** *** The loops over the two bodies *)

Lemma for_each_body_pair {St : Type} (w : WorldOfRigidBodies.t)
    (visit : BodyPtr -> St -> Outcome St) (st : St) :
  WorldOfRigidBodies.ObjectCount w = 2%Z ->
  WorldOfRigidBodies.Object w
  = [Examples.unit_sphere 0; Examples.unit_sphere 1] ->
  WorldOfRigidBodies.for_each_body w visit st
  = (st ← visit (Some 0%nat) st; visit (Some 1%nat) st).
Proof.
  intros Hn Ho. unfold WorldOfRigidBodies.for_each_body.
  unfold WorldOfRigidBodies.object. rewrite Hn, Ho.
  change (Z.to_nat 2) with 2%nat. cbn [seq for_each lookup list_lookup].
  cbn [mbind Outcome_bind Examples.unit_sphere Geometry.Body].
  destruct (visit (Some 0%nat) st) as [st' |]; [| reflexivity].
  cbn [mbind Outcome_bind]. destruct (visit (Some 1%nat) st'); reflexivity.
Qed.

Lemma immovable_pair_A :
  Examples.immovable_pair !! 0%nat
  = Some (Examples.immovable_ball Examples.centre_A).
Proof. reflexivity. Qed.

Lemma immovable_pair_B :
  Examples.immovable_pair !! 1%nat
  = Some (Examples.immovable_ball Examples.centre_B).
Proof. reflexivity. Qed.

(** A visit that leaves each of the two balls as it is leaves the pair as
    it is. *)
Lemma visit_pair
    (rest : Bodies -> BodyPtr -> RigidBody.t -> Outcome Bodies)
    (w : WorldOfRigidBodies.t) :
  WorldOfRigidBodies.ObjectCount w = 2%Z ->
  WorldOfRigidBodies.Object w
  = [Examples.unit_sphere 0; Examples.unit_sphere 1] ->
  (forall i X,
     Examples.immovable_pair !! i = Some (Examples.immovable_ball X) ->
     rest Examples.immovable_pair (Some i) (Examples.immovable_ball X)
     = Ok Examples.immovable_pair) ->
  WorldOfRigidBodies.for_each_body w
    (fun body s => b ← load s body; rest s body b)
    Examples.immovable_pair
  = Ok Examples.immovable_pair.
Proof.
  intros Hn Ho Hv. rewrite (for_each_body_pair _ _ _ Hn Ho).
  rewrite (load_Some _ _ _ immovable_pair_A), bind_of_Ok.
  rewrite (Hv _ _ immovable_pair_A), bind_of_Ok.
  rewrite (load_Some _ _ _ immovable_pair_B), bind_of_Ok.
  apply (Hv _ _ immovable_pair_B).
Qed.

Lemma store_same (s : Bodies) (i : nat) (b : RigidBody.t) :
  s !! i = Some b -> store s (Some i) b = Ok s.
Proof.
  intros H. rewrite (store_Some _ _ _ _ H).
  now rewrite (list_insert_id _ _ _ H).
Qed.

(** *** The step of the world, statement by statement *)

Lemma gravity_on_pair :
  WorldOfRigidBodies.for_each_body Examples.world_of_pair
    (fun body s =>
       b ← load s body;
       m ← RigidBody.Mass b;
       let f_g :=
         Quaternion.lscale m
           (WorldOfRigidBodies.Gravity Examples.world_of_pair) in
       let E_p := - Quaternion.Dot f_g (RigidBody.Position b) in
       store s body (RigidBody.AddExternalForce f_g E_p b))
    Examples.immovable_pair
  = Ok Examples.immovable_pair.
Proof.
  apply (visit_pair
    (fun s body b =>
       m ← RigidBody.Mass b;
       let f_g :=
         Quaternion.lscale m
           (WorldOfRigidBodies.Gravity Examples.world_of_pair) in
       let E_p := - Quaternion.Dot f_g (RigidBody.Position b) in
       store s body (RigidBody.AddExternalForce f_g E_p b)));
    [reflexivity | reflexivity |].
  intros i X Hi. cbv beta.
  rewrite Mass_immovable_ball, bind_of_Ok. cbv zeta.
  change (WorldOfRigidBodies.Gravity Examples.world_of_pair)
    with (Quaternion.of_scalar 0.0).
  rewrite AddExternalForce_immovable_ball. apply (store_same _ _ _ Hi).
Qed.

Lemma motion_of_pair (h : R) :
  WorldOfRigidBodies.for_each_body Examples.world_of_pair
    (fun body s =>
       b ← load s body;
       b ← RigidBody.SolveODE h b;
       store s body b)
    Examples.immovable_pair
  = Ok Examples.immovable_pair.
Proof.
  apply (visit_pair
    (fun s body b => b ← RigidBody.SolveODE h b; store s body b));
    [reflexivity | reflexivity |].
  intros i X Hi. cbv beta.
  rewrite SolveODE_immovable_ball, bind_of_Ok. apply (store_same _ _ _ Hi).
Qed.

Lemma sum_totals_pair (w : WorldOfRigidBodies.t) :
  WorldOfRigidBodies.ObjectCount w = 2%Z ->
  WorldOfRigidBodies.Object w
  = [Examples.unit_sphere 0; Examples.unit_sphere 1] ->
  exists Ek Ep P L,
    WorldOfRigidBodies.sum_totals Examples.immovable_pair w
    = Ok (WorldOfRigidBodies.set_totals Ek Ep P L w).
Proof.
  intros Hn Ho. unfold WorldOfRigidBodies.sum_totals.
  rewrite (for_each_body_pair _ _ _ Hn Ho).
  unfold WorldOfRigidBodies.add_totals.
  rewrite (load_Some _ _ _ immovable_pair_A), !bind_of_Ok.
  rewrite (load_Some _ _ _ immovable_pair_B), !bind_of_Ok.
  eauto.
Qed.

(** *** The contact *)

Lemma Column_3 (m : QTensor.t) :
  QTensor.Column m 3
  = Ok (Quaternion.mk (QTensor.ww m) (QTensor.xw m) (QTensor.yw m)
          (QTensor.zw m)).
Proof. unfold QTensor.Column. repeat case_decide; (lia || reflexivity). Qed.

Lemma Position_of_body (s : Bodies) (g : Geometry.t) (i : nat)
    (b : RigidBody.t) :
  Geometry.Body g = Some i -> s !! i = Some b ->
  Geometry.Position s g
  = Ok (Quaternion.mk (QTensor.ww (RigidBody.ToWorld b))
          (QTensor.xw (RigidBody.ToWorld b)) (QTensor.yw (RigidBody.ToWorld b))
          (QTensor.zw (RigidBody.ToWorld b))).
Proof.
  intros Hg Hb. unfold Geometry.Position. rewrite Hg, (load_Some _ _ _ Hb).
  apply Column_3.
Qed.

(** The detection finds the two balls in contact at (1/2, 0, 0), with the
    normal (-1, 0, 0) and the penetration 1. *)
Lemma Sphere_Check_Sphere_pair :
  Geometry.Sphere_Check_Sphere Examples.immovable_pair
    (CollisionResolver.Initialize Examples.registry_of_one)
    (Examples.unit_sphere 0) (Examples.unit_sphere 1)
  = Ok (Examples.registry_with Examples.contact_registered, 1%Z).
Proof.
  unfold Geometry.Sphere_Check_Sphere.
  change (CollisionResolver.HasSpaceForMoreContacts _) with true.
  cbn [negb].
  rewrite (Position_of_body _ (Examples.unit_sphere 0) 0
             (Examples.immovable_ball Examples.centre_A))
    by reflexivity.
  rewrite (Position_of_body _ (Examples.unit_sphere 1) 1
             (Examples.immovable_ball Examples.centre_B))
    by reflexivity.
  rewrite !bind_of_Ok. evaluate.
  rewrite sqrt_of_one by ring.
  case_decide; [lra |]. rewrite fdiv_Ok by lra.
  unfold CollisionResolver.RegisterNewContact. evaluate.
  case_decide; [lia |].
  change (unsigned_of (1 - 1)) with 0%Z. change (unsigned_of (0 + 1)) with 1%Z.
  same_record.
Qed.

Lemma DetectAll_pair (w : WorldOfRigidBodies.t) :
  WorldOfRigidBodies.ObjectCount w = 2%Z ->
  WorldOfRigidBodies.Object w
  = [Examples.unit_sphere 0; Examples.unit_sphere 1] ->
  WorldOfRigidBodies.Collisions w = Examples.registry_of_one ->
  WorldOfRigidBodies.DetectAll Examples.immovable_pair w
    (CollisionResolver.Initialize (WorldOfRigidBodies.Collisions w))
  = Ok (Examples.registry_with Examples.contact_registered).
Proof.
  intros Hn Ho Hc. unfold WorldOfRigidBodies.DetectAll.
  unfold WorldOfRigidBodies.object. rewrite Hn, Ho, Hc.
  change (Z.to_nat 2) with 2%nat.
  cbn [seq for_each Nat.add Nat.sub lookup list_lookup].
  rewrite !bind_of_Ok. unfold Geometry.Detect.
  change (CollisionResolver.HasSpaceForMoreContacts
            (CollisionResolver.Initialize Examples.registry_of_one))
    with true.
  cbn [negb Examples.unit_sphere Geometry.Class].
  fold (Examples.unit_sphere 0). fold (Examples.unit_sphere 1).
  rewrite Sphere_Check_Sphere_pair, !bind_of_Ok. reflexivity.
Qed.

Lemma Basis_at_contact :
  Collision.FindOrthonormalBasisAtContactPoint Examples.contact_registered
  = Ok (Collision.set_ToWorld
          (QTensor.SetColumnVectors Examples.contact_normal
             (Quaternion.mk 0 0 0 1) (Quaternion.mk 0 0 1 0))
          Examples.contact_registered).
Proof.
  unfold Collision.FindOrthonormalBasisAtContactPoint.
  cbv zeta.
  change (Collision.Normal Examples.contact_registered)
    with (Quaternion.mk 0 (-1) 0 0).
  cbn [Quaternion.w Quaternion.x Quaternion.y Quaternion.z].
  decide_real.
  rewrite sqrt_of_one by ring. rewrite fdiv_Ok by lra.
  rewrite bind_of_Ok.
  match goal with
  | |- context [Quaternion.Normalize ?q _] =>
      replace q with (Quaternion.mk 0 0 1 0) by (f_equal; lra)
  end.
  rewrite Normalize_of_versor
    by (unfold Quaternion.Norm, Quaternion.SquaredNorm; members;
        apply sqrt_of_one; ring).
  rewrite !bind_of_Ok. same_record.
Qed.

Lemma load_pair_A :
  load Examples.immovable_pair (Some 0%nat)
  = Ok (Examples.immovable_ball Examples.centre_A).
Proof. reflexivity. Qed.

Lemma load_pair_B :
  load Examples.immovable_pair (Some 1%nat)
  = Ok (Examples.immovable_ball Examples.centre_B).
Proof. reflexivity. Qed.

(** The two balls are at rest: the contact has no velocity. *)
Lemma UpdateDerivedQuantities_pair (h : R) :
  Collision.UpdateDerivedQuantities Examples.immovable_pair h
    Examples.contact_registered
  = Ok Examples.contact_updated.
Proof.
  unfold Collision.UpdateDerivedQuantities.
  change (Collision.Body_A Examples.contact_registered) with (Some 0%nat).
  cbv beta iota zeta.
  rewrite Basis_at_contact, bind_of_Ok.
  change (Collision.Body_A (Collision.set_ToWorld ?T ?c)) with (Some 0%nat).
  rewrite load_pair_A, bind_of_Ok.
  unfold Collision.GetRelativeVelocity, Collision.GetBouncingVelocity.
  evaluate.
  case_decide as Hrest;
    [| exfalso; apply Hrest; unfold Rabs; destruct Rcase_abs; lra].
  same_record.
Qed.

Lemma CollisionResolver_UpdateDerivedQuantities_pair (h : R) :
  CollisionResolver.UpdateDerivedQuantities Examples.immovable_pair h
    (Examples.registry_with Examples.contact_registered)
  = Ok (Examples.registry_with Examples.contact_updated).
Proof.
  unfold CollisionResolver.UpdateDerivedQuantities.
  change (CollisionResolver.each_collision _) with [0%nat].
  cbn [for_each].
  change (CollisionResolver.index _ _) with (Ok Examples.contact_registered).
  rewrite bind_of_Ok, UpdateDerivedQuantities_pair, !bind_of_Ok.
  reflexivity.
Qed.

(** *** The resolvers *)

Lemma iterate_break {St : Type} (pass : St -> Outcome (option St))
    (n : nat) (st : St) :
  pass st = Ok None -> snd (CollisionResolver.iterate pass (S n) st) = Ok st.
Proof. intros H. cbn [CollisionResolver.iterate]. now rewrite H. Qed.

Lemma iterate_raise {St : Type} (pass : St -> Outcome (option St))
    (n : nat) (st : St) (f : Fault) :
  pass st = Raise f ->
  snd (CollisionResolver.iterate pass (S n) st) = Raise f.
Proof. intros H. cbn [CollisionResolver.iterate]. now rewrite H. Qed.

(** The contact has no bouncing velocity: no impulse is transferred. *)
Lemma ImpulseTransfers_pair (h : R) :
  snd (CollisionResolver.ImpulseTransfers Examples.immovable_pair
         (Examples.registry_with Examples.contact_updated) h 0 0.01)
  = Ok (Examples.immovable_pair,
        Examples.registry_with Examples.contact_updated).
Proof.
  unfold CollisionResolver.ImpulseTransfers.
  change (CollisionResolver.CollisionCount (Examples.registry_with _))
    with 1%Z.
  destruct (decide (1 = 0)%Z) as [Hc | _]; [lia |].
  destruct (decide (0 = 0)%Z) as [_ | Hm]; [| lia].
  destruct (decide (0.01 = 0)) as [He | _]; [lra |].
  change (Z.to_nat (unsigned_of (8 * 1))) with 8%nat.
  apply iterate_break.
  unfold CollisionResolver.ImpulseTransfers_pass,
    CollisionResolver.FindLargestBouncingVelocity.
  change (CollisionResolver.each_collision _) with [0%nat].
  cbn [for_each].
  change (CollisionResolver.index _ (Z.of_nat 0))
    with (Ok Examples.contact_updated).
  rewrite bind_of_Ok.
  change (Collision.BouncingVelocity Examples.contact_updated) with 0.
  destruct (decide (0 > 0.01)) as [Hv | _]; [lra |]. reflexivity.
Qed.

(** The contact has no angular hold on the balls: with the normal along
    the line of the centres, [r x N] is zero on both sides. *)
Lemma angular_response_pair_A :
  angular_response
    (RigidBody.InverseInertiaWorld
       (Examples.immovable_ball Examples.centre_A))
    (Collision.RelativePosition Examples.contact_updated 0)
    (Collision.Normal Examples.contact_updated) = 0.
Proof. unfold angular_response. evaluate. ring. Qed.

Lemma angular_response_pair_B :
  angular_response
    (RigidBody.InverseInertiaWorld
       (Examples.immovable_ball Examples.centre_B))
    (Collision.RelativePosition Examples.contact_updated 1)
    (Collision.Normal Examples.contact_updated) = 0.
Proof. unfold angular_response. evaluate. ring. Qed.

(** A position projection on a contact between two bodies of inverse mass 0
    on which the contact has no angular hold divides by the total inverse
    inertia 0. *)
Lemma PositionProjection_immovable (s : Bodies) (c : Collision.t)
    (X Q : Quaternion.t * Quaternion.t) (relaxation : R) (a b : nat)
    (bA bB : RigidBody.t) :
  Collision.Body_A c = Some a -> Collision.Body_B c = Some b ->
  s !! a = Some bA -> s !! b = Some bB ->
  RigidBody.InverseMass bA = 0 -> RigidBody.InverseMass bB = 0 ->
  angular_response (RigidBody.InverseInertiaWorld bA)
    (Collision.RelativePosition c 0) (Collision.Normal c) = 0 ->
  angular_response (RigidBody.InverseInertiaWorld bB)
    (Collision.RelativePosition c 1) (Collision.Normal c) = 0 ->
  Collision.PositionProjection s c X Q relaxation = Raise DivisionByZero.
Proof.
  intros HA HB Ha Hb HmA HmB HrA HrB.
  unfold Collision.PositionProjection.
  cbn [seq for_each]. unfold Collision.PositionProjection_inertia.
  cbn [Collision.Body]. rewrite HA, HB.
  rewrite (load_Some _ _ _ Ha), (load_Some _ _ _ Hb).
  cbn [mbind Outcome_bind Collision.set2 Collision.get2 fst snd].
  unfold Collision.PositionProjection_apply.
  cbn [Collision.Body]. rewrite HA.
  rewrite (load_Some _ _ _ Ha). cbn [mbind Outcome_bind].
  fold (angular_response (RigidBody.InverseInertiaWorld bA)
          (Collision.RelativePosition c 0) (Collision.Normal c)).
  fold (angular_response (RigidBody.InverseInertiaWorld bB)
          (Collision.RelativePosition c 1) (Collision.Normal c)).
  rewrite HmA, HmB, HrA, HrB.
  rewrite (fdiv_by_zero 0 (0 + (0 + 0) + (0 + 0))) by lra. reflexivity.
Qed.

(** The penetration 1 of the contact is to be projected out, and the
    projection divides by the total inverse inertia of the two balls. *)
Lemma PositionProjections_pair :
  snd (CollisionResolver.PositionProjections Examples.immovable_pair
         (Examples.registry_with Examples.contact_updated) 0 0.01)
  = Raise DivisionByZero.
Proof.
  unfold CollisionResolver.PositionProjections.
  change (CollisionResolver.CollisionCount (Examples.registry_with _))
    with 1%Z.
  destruct (decide (1 = 0)%Z) as [Hc | _]; [lia |].
  destruct (decide (0 = 0)%Z) as [_ | Hm]; [| lia].
  destruct (decide (0.01 = 0)) as [He | _]; [lra |].
  change (Z.to_nat (unsigned_of (8 * 1))) with 8%nat.
  apply iterate_raise.
  unfold CollisionResolver.PositionProjections_pass,
    CollisionResolver.FindLargestPenetration.
  change (CollisionResolver.each_collision _) with [0%nat].
  cbn [for_each].
  change (CollisionResolver.index _ (Z.of_nat 0))
    with (Ok Examples.contact_updated).
  rewrite bind_of_Ok.
  change (Collision.Penetration Examples.contact_updated) with 1.
  destruct (decide (1 > 0.01)) as [_ | Hp]; [| lra].
  rewrite !bind_of_Ok. cbn [snd].
  change (CollisionResolver.index _ (Z.of_nat 0))
    with (Ok Examples.contact_updated).
  rewrite bind_of_Ok.
  change (Collision.ActivateInactiveBodies Examples.immovable_pair
            Examples.contact_updated)
    with (Ok Examples.immovable_pair).
  rewrite bind_of_Ok.
  rewrite (PositionProjection_immovable Examples.immovable_pair
             Examples.contact_updated _ _ _ 0 1
             (Examples.immovable_ball Examples.centre_A)
             (Examples.immovable_ball Examples.centre_B));
    [reflexivity | reflexivity | reflexivity | reflexivity | reflexivity
    | reflexivity | reflexivity | apply angular_response_pair_A
    | apply angular_response_pair_B].
Qed.

(** *** The balls as their constructor leaves them *)

Lemma Ixx_positive : 0 < Examples.Ixx.
Proof. unfold Examples.Ixx. lra. Qed.

Lemma SetMomentOfInertia_ball (b : RigidBody.t) :
  RigidBody.InverseInertiaBody b = QTensor.Normalized ->
  RigidBody.SetMomentOfInertia
    (QTensor.diagonal Examples.Ixx Examples.Ixx Examples.Ixx 1.0) b
  = Ok (RigidBody.set_InverseInertiaBody
          (RigidBody.InverseInertiaBody (Examples.immovable_ball Quaternion.zero))
          b).
Proof.
  intros Hb. unfold RigidBody.SetMomentOfInertia, QTensor.SetInverseOf.
  rewrite Hb. pose proof Ixx_positive as HI.
  assert (Hdet : QTensor.Determinant
            (QTensor.diagonal Examples.Ixx Examples.Ixx Examples.Ixx 1.0)
          = Examples.Ixx * Examples.Ixx * Examples.Ixx).
  { unfold QTensor.Determinant, QTensor.diagonal.
    cbn [QTensor.xx QTensor.xy QTensor.xz QTensor.yx QTensor.yy QTensor.yz
         QTensor.zx QTensor.zy QTensor.zz]. ring. }
  cbv zeta. rewrite Hdet.
  assert (Hpos : Examples.Ixx * Examples.Ixx * Examples.Ixx <> 0).
  { apply Rgt_not_eq.
    apply Rmult_lt_0_compat; [apply Rmult_lt_0_compat |]; exact HI. }
  destruct (decide (Examples.Ixx * Examples.Ixx * Examples.Ixx = 0));
    [contradiction |].
  unfold QTensor.div_components.
  destruct (decide (Examples.Ixx * Examples.Ixx * Examples.Ixx = 0));
    [contradiction |].
  rewrite bind_of_Ok. f_equal. f_equal.
  unfold Examples.immovable_ball, QTensor.map, QTensor.diagonal,
    QTensor.Normalized.
  members.
  generalize dependent Examples.Ixx. intros I HI. intros.
  f_equal; field; lra.
Qed.

Lemma Normalize_zero : Quaternion.Normalize Quaternion.zero 1.0
  = Ok (Quaternion.mk 1.0 0 0 0).
Proof.
  unfold Quaternion.Normalize. cbv zeta.
  replace (Quaternion.Norm Quaternion.zero) with 0.
  - destruct (decide (0 = 0)) as [_ | H]; [reflexivity | lra].
  - unfold Quaternion.Norm, Quaternion.SquaredNorm. evaluate.
    replace (0 * 0 + 0 * 0 + 0 * 0 + 0 * 0) with 0 by ring.
    symmetry. apply sqrt_0.
Qed.

(** The inverse of the inverse inertia tensor of a ball, as [Inverse]
    computes it. *)
Lemma Inverse_of_ball_inertia (X : Quaternion.t) :
  exists I,
    QTensor.Inverse
      (RigidBody.InverseInertiaWorld (Examples.immovable_ball X)) = Ok I
    /\ QTensor.xw I = 0 /\ QTensor.yw I = 0 /\ QTensor.zw I = 0.
Proof.
  unfold QTensor.Inverse, QTensor.SetInverseOf. cbv zeta.
  pose proof Ixx_positive as HI.
  assert (Hdet : QTensor.Determinant
            (RigidBody.InverseInertiaWorld (Examples.immovable_ball X))
          = 1 / Examples.Ixx * (1 / Examples.Ixx) * (1 / Examples.Ixx)).
  { unfold QTensor.Determinant. evaluate. ring. }
  rewrite Hdet.
  assert (Hne : 1 / Examples.Ixx * (1 / Examples.Ixx) * (1 / Examples.Ixx)
                <> 0).
  { apply Rgt_not_eq.
    assert (0 < 1 / Examples.Ixx) by (apply Rdiv_lt_0_compat; lra).
    apply Rmult_lt_0_compat; [apply Rmult_lt_0_compat |]; assumption. }
  destruct (decide (1 / Examples.Ixx * (1 / Examples.Ixx)
                    * (1 / Examples.Ixx) = 0)); [contradiction |].
  unfold QTensor.div_components.
  destruct (decide (1 / Examples.Ixx * (1 / Examples.Ixx)
                    * (1 / Examples.Ixx) = 0)); [contradiction |].
  eexists. split; [reflexivity |].
  unfold QTensor.map. evaluate. unfold Rdiv. repeat split; ring.
Qed.

Lemma Normalize_of_zero :
  Quaternion.Normalize Quaternion.zero 1.0 = Ok (Quaternion.mk 1 0 0 0).
Proof. rewrite Normalize_zero. do 2 f_equal. lra. Qed.

Lemma InverseInertiaWorld_of_ball (X : Quaternion.t) :
  QTensor.transform
    (QTensor.SetFromOrientationAndPosition (Quaternion.mk 1 0 0 0) X)
    (RigidBody.InverseInertiaBody (Examples.immovable_ball X))
  = RigidBody.InverseInertiaWorld (Examples.immovable_ball X).
Proof. destruct X as [Xw Xx Xy Xz]. same_record. Qed.

(** The derived quantities of a ball of inverse mass 0 that is set at
    rest at [X]. *)
Lemma CalculateDerivedQuantities_ball (b : RigidBody.t)
    (q X : Quaternion.t) :
  RigidBody.InverseMass b = 0 ->
  RigidBody.InverseInertiaBody b
  = RigidBody.InverseInertiaBody (Examples.immovable_ball X) ->
  RigidBody.Position b = X ->
  RigidBody.Orientation b = q ->
  Quaternion.Normalize q 1.0 = Ok (Quaternion.mk 1 0 0 0) ->
  RigidBody.Velocity b = Quaternion.zero ->
  RigidBody.AngularVelocity b = Quaternion.zero ->
  RigidBody.CalculateDerivedQuantities false b
  = Ok (RigidBody.set_KineticEnergy 0
          (RigidBody.set_TotalAngularMomentum Quaternion.zero
             (RigidBody.set_AngularMomentum Quaternion.zero
                (RigidBody.set_LinearMomentum Quaternion.zero
                   (RigidBody.set_InverseInertiaWorld
                      (RigidBody.InverseInertiaWorld
                         (Examples.immovable_ball X))
                      (RigidBody.set_ToWorld
                         (RigidBody.ToWorld (Examples.immovable_ball X))
                         (RigidBody.set_Orientation (Quaternion.mk 1 0 0 0)
                            b))))))).
Proof.
  intros Hm HI HX Hq Hn HV HW.
  unfold RigidBody.CalculateDerivedQuantities.
  rewrite Hq, Hn, bind_of_Ok. cbv zeta. members.
  rewrite HX, HI, HV, HW, InverseInertiaWorld_of_ball.
  rewrite Mass_decode. members. rewrite Hm.
  destruct (decide (0 = 0)) as [_ | H0]; [| lra].
  destruct (Inverse_of_ball_inertia X) as (I & -> & Ix & Iy & Iz).
  rewrite !bind_of_Ok. members. rewrite HX, HV, HW.
  assert (HL : QTensor.apply I Quaternion.zero = Quaternion.zero).
  { unfold QTensor.apply, Quaternion.zero, Quaternion.of_scalar.
    members. rewrite Ix, Iy, Iz. f_equal; ring. }
  rewrite HL. clear. destruct b, X. same_record.
Qed.


Lemma load_last (s : Bodies) (b : RigidBody.t) :
  load (s ++ [b]) (Some (length s)) = Ok b.
Proof. apply load_Some, list_lookup_middle. reflexivity. Qed.

Lemma store_last (s : Bodies) (b0 b : RigidBody.t) :
  store (s ++ [b0]) (Some (length s)) b = Ok (s ++ [b]).
Proof.
  rewrite (store_Some _ _ b0) by (apply list_lookup_middle; reflexivity).
  f_equal. rewrite insert_app_r_alt by lia.
  now replace (length s - length s)%nat with 0%nat by lia.
Qed.

(** [Ball( X, 1, 0, 0, 1, 1e30 )] creates the immovable ball at rest at
    [X], with the sphere of radius 1 as its geometry. *)
Lemma Ball_immovable (s : Bodies) (X : Quaternion.t) :
  Utilities.Ball s X (Quaternion.mk 1 0 0 0) Quaternion.zero Quaternion.zero
    1 1e30
  = Ok (s ++ [Examples.immovable_ball X], Examples.unit_sphere (length s)).
Proof.
  unfold Utilities.Ball. cbv zeta.
  fold (Examples.unit_sphere (length s)).
  unfold Geometry.Sphere_SetMass.
  change (Geometry.Body (Examples.unit_sphere (length s)))
    with (Some (length s)).
  change (Geometry.Radius (Examples.unit_sphere (length s))) with 1.
  fold Examples.Ixx.
  rewrite load_last, bind_of_Ok, SetupMass_Ok, bind_of_Ok.
  destruct (decide (1e30 = 0)) as [H0 | _]; [lra |].
  destruct (decide (1e30 >= 1e30)) as [_ | H1]; [| lra].
  cbv zeta.
  rewrite SetMomentOfInertia_ball by reflexivity. rewrite bind_of_Ok.
  rewrite (CalculateDerivedQuantities_ball _ Quaternion.zero Quaternion.zero);
    [| reflexivity | reflexivity | reflexivity | reflexivity
     | apply Normalize_of_zero | reflexivity | reflexivity ].
  rewrite bind_of_Ok, store_last, bind_of_Ok, load_last, bind_of_Ok.
  unfold RigidBody.Set_XQVW. cbv zeta.
  rewrite (CalculateDerivedQuantities_ball _ (Quaternion.mk 1 0 0 0) X);
    [| reflexivity | reflexivity | reflexivity | reflexivity
     | apply Normalize_of_versor, Norm_of_identity
     | reflexivity | reflexivity ].
  rewrite bind_of_Ok. unfold RigidBody.Activate. members.
  change (RigidBody.IsActive RigidBody.new) with false. cbn [negb].
  rewrite Mass_decode. members.
  case_decide as H2; [| lra].
  rewrite ?bind_of_Ok, store_last, ?bind_of_Ok.
  do 3 f_equal. destruct X as [Xw Xx Xy Xz]. same_record.
Qed.

(** The world of the two balls, as two calls of [Add] leave it, whatever
    the array [Object] holds before. *)
Lemma world_of_pair_Add (g0 g1 : Geometry.t) :
  (w ← WorldOfRigidBodies.Add
         (WorldOfRigidBodies.mk 2 1 0 [g0; g1] (Quaternion.of_scalar 0.0)
            0 0 0 0 Quaternion.zero Quaternion.zero Examples.registry_of_one)
         (Examples.unit_sphere 0);
   WorldOfRigidBodies.Add w (Examples.unit_sphere 1))
  = Ok Examples.world_of_pair.
Proof. reflexivity. Qed.

(** C4: two balls of radius 1 and mass 1e30, created by [Ball] at rest at
    the origin and at (1, 0, 0), in a world without gravity.  Their
    orientations are unit quaternions, and the step of the world, with any
    [h], does not come to an end with unit quaternions: the detection
    registers the contact of the two balls with the penetration 1, no
    impulse is transferred between the balls at rest, and the position
    projection divides by the total inverse inertia of the two balls, which
    is 0. *)
Theorem SolveODE_immovable_pair (h : R) :
  Utilities.Ball [] Examples.centre_A (Quaternion.mk 1 0 0 0)
    Quaternion.zero Quaternion.zero 1 1e30
  = Ok ([Examples.immovable_ball Examples.centre_A], Examples.unit_sphere 0)
  /\ Utilities.Ball [Examples.immovable_ball Examples.centre_A]
       Examples.centre_B (Quaternion.mk 1 0 0 0)
       Quaternion.zero Quaternion.zero 1 1e30
     = Ok (Examples.immovable_pair, Examples.unit_sphere 1)
  /\ Forall versor Examples.immovable_pair
  /\ WorldOfRigidBodies.SolveODE Examples.immovable_pair
       Examples.world_of_pair h
     = Raise DivisionByZero.
Proof.
  split; [apply (Ball_immovable []) |].
  split; [apply (Ball_immovable [_]) |].
  split; [repeat constructor; apply Norm_of_identity |].
  unfold WorldOfRigidBodies.SolveODE.
  eapply bind_step; [exact gravity_on_pair | cbv beta].
  eapply bind_step; [exact (motion_of_pair h) | cbv beta zeta].
  match goal with
  | |- context [WorldOfRigidBodies.sum_totals _ ?w] =>
      destruct (sum_totals_pair w eq_refl eq_refl)
        as (Ek & Ep & P & L & Htotals)
  end.
  eapply bind_step; [exact Htotals | cbv beta].
  match goal with
  | |- context [WorldOfRigidBodies.DetectAll _ ?w _] =>
      eapply bind_step;
        [exact (DetectAll_pair w eq_refl eq_refl eq_refl) | cbv beta]
  end.
  eapply bind_step;
    [exact (CollisionResolver_UpdateDerivedQuantities_pair h) | cbv beta].
  eapply bind_step; [exact (ImpulseTransfers_pair h) | cbv beta iota].
  now rewrite PositionProjections_pair.
Qed.

(** * Further properties of the code *)

(** ** Quaternion.h *)

Lemma Norm_nonneg (q : Quaternion.t) : 0 <= Quaternion.Norm q.
Proof. apply sqrt_pos. Qed.

Lemma Norm_zero (q : Quaternion.t) :
  Quaternion.Norm q = 0 -> q = Quaternion.zero.
Proof.
  intros H. apply sqrt_eq_0 in H; [| apply SquaredNorm_nonneg].
  destruct q as [qw qx qy qz]. unfold Quaternion.SquaredNorm in H.
  cbn [Quaternion.w Quaternion.x Quaternion.y Quaternion.z] in H.
  unfold Quaternion.zero.
  assert (qw = 0) by nra. assert (qx = 0) by nra.
  assert (qy = 0) by nra. assert (qz = 0) by nra. now subst.
Qed.

Lemma Norm_scale (q : Quaternion.t) (f : R) :
  Quaternion.Norm (Quaternion.scale q f) = Rabs f * Quaternion.Norm q.
Proof.
  unfold Quaternion.Norm.
  replace (Quaternion.SquaredNorm (Quaternion.scale q f))
    with (f * f * Quaternion.SquaredNorm q)
    by (unfold Quaternion.SquaredNorm, Quaternion.scale;
        cbn [Quaternion.w Quaternion.x Quaternion.y Quaternion.z]; ring).
  rewrite sqrt_mult_alt by nra.
  f_equal. change (f * f) with (Rsqr f). apply sqrt_Rsqr_abs.
Qed.

(** What [Normalize] leaves, and its norm. *)
Lemma Normalize_scaled (q : Quaternion.t) (length : R) :
  exists q',
    Quaternion.Normalize q length = Ok q' /\
    Quaternion.Norm q' = Rabs length /\
    (q = Quaternion.zero -> q' = Quaternion.of_scalar length) /\
    (q <> Quaternion.zero ->
       q' = Quaternion.scale q (length / Quaternion.Norm q)).
Proof.
  unfold Quaternion.Normalize. cbv zeta.
  destruct (decide (Quaternion.Norm q = 0)) as [Hz | Hnz].
  - apply Norm_zero in Hz. subst q. eexists. split; [reflexivity |].
    split; [| split; [reflexivity | congruence]].
    unfold Quaternion.Norm, Quaternion.SquaredNorm, Quaternion.zero.
    cbn [Quaternion.w Quaternion.x Quaternion.y Quaternion.z].
    replace (length * length + 0 * 0 + 0 * 0 + 0 * 0) with (Rsqr length)
      by (unfold Rsqr; ring).
    apply sqrt_Rsqr_abs.
  - rewrite fdiv_Ok by exact Hnz. eexists. split; [reflexivity |].
    split; [| split; [| reflexivity]].
    + rewrite Norm_scale. unfold Rdiv. rewrite Rabs_mult, Rmult_assoc.
      rewrite (Rabs_inv (Quaternion.Norm q)).
      rewrite (Rabs_pos_eq (Quaternion.Norm q)) by apply Norm_nonneg.
      field. exact Hnz.
    + intros ->. exfalso. apply Hnz.
      unfold Quaternion.Norm, Quaternion.SquaredNorm, Quaternion.zero.
      cbn [Quaternion.w Quaternion.x Quaternion.y Quaternion.z].
      replace (0 * 0 + 0 * 0 + 0 * 0 + 0 * 0) with 0 by ring. apply sqrt_0.
Qed.

Lemma Zeroize_by_component (q : Quaternion.t) (eps : R) :
  Quaternion.Zeroize q eps
  = Quaternion.mk
      (if decide (Rabs (Quaternion.w q) < eps) then 0 else Quaternion.w q)
      (if decide (Rabs (Quaternion.x q) < eps) then 0 else Quaternion.x q)
      (if decide (Rabs (Quaternion.y q) < eps) then 0 else Quaternion.y q)
      (if decide (Rabs (Quaternion.z q) < eps) then 0 else Quaternion.z q).
Proof.
  destruct q as [qw qx qy qz]. unfold Quaternion.Zeroize.
  cbn [Quaternion.w Quaternion.x Quaternion.y Quaternion.z].
  destruct (decide (Rabs qx < eps));
    cbn [Quaternion.w Quaternion.x Quaternion.y Quaternion.z];
    destruct (decide (Rabs qy < eps));
    cbn [Quaternion.w Quaternion.x Quaternion.y Quaternion.z];
    destruct (decide (Rabs qz < eps));
    cbn [Quaternion.w Quaternion.x Quaternion.y Quaternion.z];
    destruct (decide (Rabs qw < eps)); reflexivity.
Qed.

(** X4: [Zeroize] sets to 0 the components whose absolute value is below
    [eps], and no other: each component of the result is 0 or the component
    it was, according to that test.  Applied again it changes nothing. *)
Theorem Zeroize_components (q : Quaternion.t) (eps : R) :
  let zeroized (c : R) := if decide (Rabs c < eps) then 0 else c in
  let q' := Quaternion.Zeroize q eps in
  Quaternion.w q' = zeroized (Quaternion.w q) /\
  Quaternion.x q' = zeroized (Quaternion.x q) /\
  Quaternion.y q' = zeroized (Quaternion.y q) /\
  Quaternion.z q' = zeroized (Quaternion.z q) /\
  Quaternion.Zeroize q' eps = q'.
Proof.
  intros zeroized q'. subst q'.
  rewrite (Zeroize_by_component (Quaternion.Zeroize q eps)).
  rewrite (Zeroize_by_component q).
  cbn [Quaternion.w Quaternion.x Quaternion.y Quaternion.z].
  repeat split.
  assert (forall c, (if decide (Rabs (zeroized c) < eps) then 0
                     else zeroized c) = zeroized c) as H.
  { intros c. subst zeroized. cbv beta.
    destruct (decide (Rabs c < eps)) as [Hc | Hc].
    - now destruct (decide (Rabs 0 < eps)).
    - destruct (decide (Rabs c < eps)); [contradiction | reflexivity]. }
  fold (zeroized (Quaternion.w q)). fold (zeroized (Quaternion.x q)).
  fold (zeroized (Quaternion.y q)). fold (zeroized (Quaternion.z q)).
  now rewrite !H.
Qed.

(** X5: [operator []]: the indices 0, 1 and 2 are the components x, y and z,
    and every other index is the component w.  What is written at an index is
    read back at it, and reading at an index of another component is not
    affected. *)
Theorem index_set_get (q : Quaternion.t) (i j : Z) (v : R) :
  (0 <= i)%Z -> (0 <= j)%Z ->
  Quaternion.get (Quaternion.set q i v) i = v /\
  ((2 < i)%Z -> Quaternion.get q i = Quaternion.w q
                /\ Quaternion.w (Quaternion.set q i v) = v) /\
  (i <> j -> (i <= 2)%Z \/ (j <= 2)%Z ->
   Quaternion.get (Quaternion.set q i v) j = Quaternion.get q j).
Proof.
  intros Hi Hj. unfold Quaternion.get, Quaternion.set.
  repeat split.
  - repeat case_decide; try lia; reflexivity.
  - case_decide; [lia | reflexivity].
  - case_decide; [lia | reflexivity].
  - intros Hne Hlow.
    repeat (case_decide;
            cbn [Quaternion.w Quaternion.x Quaternion.y Quaternion.z]);
      try lia; reflexivity.
Qed.

Lemma index_set_get_witness :
  Quaternion.get (Quaternion.set Quaternion.zero 7 1) 7 = 1 /\
  Quaternion.get (Quaternion.set Quaternion.zero 7 1) 1 = 0.
Proof.
  destruct (index_set_get Quaternion.zero 7 1 1) as (Hget & _ & Hother);
    [lia | lia |].
  split; [exact Hget |].
  rewrite Hother; [reflexivity | lia | right; lia].
Defined.

(** ** RigidBody.h *)

(** The members of a rigid body that is given member by member, read and
    assigned. *)
Ltac body_members :=
  cbv beta iota zeta delta [
      RigidBody.InverseMass RigidBody.set_InverseMass
      RigidBody.InverseInertiaBody RigidBody.set_InverseInertiaBody
      RigidBody.Position RigidBody.set_Position RigidBody.Orientation
      RigidBody.set_Orientation RigidBody.LinearMomentum
      RigidBody.set_LinearMomentum RigidBody.AngularMomentum
      RigidBody.set_AngularMomentum RigidBody.ToWorld RigidBody.set_ToWorld
      RigidBody.InverseInertiaWorld RigidBody.set_InverseInertiaWorld
      RigidBody.Velocity RigidBody.set_Velocity RigidBody.AngularVelocity
      RigidBody.set_AngularVelocity RigidBody.TotalAngularMomentum
      RigidBody.set_TotalAngularMomentum RigidBody.KineticEnergy
      RigidBody.set_KineticEnergy RigidBody.PotentialEnergy
      RigidBody.set_PotentialEnergy RigidBody.AverageKineticEnergy
      RigidBody.set_AverageKineticEnergy RigidBody.KineticEnergyThreshold
      RigidBody.set_KineticEnergyThreshold RigidBody.KineticEnergyDamping
      RigidBody.set_KineticEnergyDamping RigidBody.Force RigidBody.set_Force
      RigidBody.Torque RigidBody.set_Torque RigidBody.IsActive
      RigidBody.set_IsActive RigidBody.CanBeDeactivated
      RigidBody.set_CanBeDeactivated negb andb
  ].


(** What [CalculateDerivedQuantities ()] leaves, member by member. *)
Lemma CalculateDerivedQuantities_from_momenta (b : RigidBody.t) :
  exists q,
    Quaternion.Normalize (RigidBody.Orientation b) 1.0 = Ok q /\
    Quaternion.Norm q = 1 /\
    let T := QTensor.SetFromOrientationAndPosition q (RigidBody.Position b) in
    let W := QTensor.transform T (RigidBody.InverseInertiaBody b) in
    let V := Quaternion.lscale (RigidBody.InverseMass b)
               (RigidBody.LinearMomentum b) in
    let Omega := QTensor.apply W (RigidBody.AngularMomentum b) in
    RigidBody.CalculateDerivedQuantities true b
    = Ok (RigidBody.mk (RigidBody.InverseMass b)
            (RigidBody.InverseInertiaBody b) (RigidBody.Position b) q
            (RigidBody.LinearMomentum b) (RigidBody.AngularMomentum b)
            T W V Omega
            (Quaternion.add
               (Quaternion.Cross (RigidBody.Position b)
                  (RigidBody.LinearMomentum b))
               (RigidBody.AngularMomentum b))
            (0.5 * Quaternion.Dot V (RigidBody.LinearMomentum b)
             + 0.5 * Quaternion.Dot Omega (RigidBody.AngularMomentum b))
            (RigidBody.PotentialEnergy b)
            (RigidBody.AverageKineticEnergy b)
            (RigidBody.KineticEnergyThreshold b)
            (RigidBody.KineticEnergyDamping b)
            (RigidBody.Force b) (RigidBody.Torque b)
            (RigidBody.IsActive b) (RigidBody.CanBeDeactivated b)).
Proof.
  destruct (Normalize_scaled (RigidBody.Orientation b) 1.0)
    as (q & Hq & Hn & _).
  exists q. split; [exact Hq |]. split.
  - rewrite Hn. unfold Rabs. destruct (Rcase_abs 1.0); lra.
  - cbv zeta. unfold RigidBody.CalculateDerivedQuantities.
    rewrite Hq. destruct b. reflexivity.
Qed.

(** [SolveODE] of an active body, statement by statement: the momenta,
    the position and the orientation that the step computes, the derived
    quantities, and the three ways the step ends for a body that can be
    deactivated. *)
Lemma SolveODE_active (h : R) (b : RigidBody.t) :
  RigidBody.IsActive b = true ->
  let P1 := Quaternion.add (RigidBody.LinearMomentum b)
              (Quaternion.scale (RigidBody.Force b) h) in
  let L0 := Quaternion.add (RigidBody.AngularMomentum b)
              (Quaternion.scale (RigidBody.Torque b) h) in
  let L1 := if RigidBody.KineticEnergyDamping b
            then Quaternion.scale L0 (Rpower 0.998 h) else L0 in
  let V1 := Quaternion.lscale (RigidBody.InverseMass b) P1 in
  let X1 := Quaternion.add (RigidBody.Position b) (Quaternion.scale V1 h) in
  let Q0 := Quaternion.add (RigidBody.Orientation b)
              (Quaternion.scale
                 (Quaternion.mul
                    (Quaternion.lscale 0.5
                       (QTensor.apply (RigidBody.InverseInertiaWorld b) L1))
                    (RigidBody.Orientation b))
                 h) in
  exists q,
    Quaternion.Normalize Q0 1.0 = Ok q /\ Quaternion.Norm q = 1 /\
    let T1 := QTensor.SetFromOrientationAndPosition q X1 in
    let W1 := QTensor.transform T1 (RigidBody.InverseInertiaBody b) in
    let Om1 := QTensor.apply W1 L1 in
    let KE1 := 0.5 * Quaternion.Dot V1 P1 + 0.5 * Quaternion.Dot Om1 L1 in
    let b1 :=
      RigidBody.mk (RigidBody.InverseMass b) (RigidBody.InverseInertiaBody b)
        X1 q P1 L1 T1 W1 V1 Om1
        (Quaternion.add (Quaternion.Cross X1 P1) L1) KE1
        (RigidBody.PotentialEnergy b) (RigidBody.AverageKineticEnergy b)
        (RigidBody.KineticEnergyThreshold b)
        (RigidBody.KineticEnergyDamping b)
        (RigidBody.Force b) (RigidBody.Torque b) true
        (RigidBody.CanBeDeactivated b) in
    RigidBody.SolveODE h b
    = if RigidBody.CanBeDeactivated b then
        let avg := Rpower 0.5 h * RigidBody.AverageKineticEnergy b
                   + (1 - Rpower 0.5 h) * KE1 in
        if decide (avg < RigidBody.KineticEnergyThreshold b) then
          Ok (RigidBody.Deactivate
                (RigidBody.set_AverageKineticEnergy avg b1))
        else if decide (avg > 10 * RigidBody.KineticEnergyThreshold b) then
          Ok (RigidBody.set_AverageKineticEnergy
                (10 * RigidBody.KineticEnergyThreshold b) b1)
        else Ok (RigidBody.set_AverageKineticEnergy avg b1)
      else Ok b1.
Proof.
  destruct b as [im IIB X Q P L T W V Om Lt KE PE AKE thr damp F Tq act cbd].
  intros Hact. cbn [RigidBody.IsActive] in Hact. subst act.
  intros P1 L0 L1 V1 X1 Q0.
  destruct (Normalize_scaled Q0 1.0) as (q & Hq & Hn & _).
  exists q. split; [exact Hq |]. split.
  { rewrite Hn. unfold Rabs. destruct (Rcase_abs 1.0); lra. }
  clear Hn. intros T1 W1 Om1 KE1 b1.
  unfold RigidBody.SolveODE, RigidBody.DampMomentum.
  destruct (decide (0 > 0)) as [H0 | _]; [lra |].
  destruct (decide (0.998 > 0)) as [_ | H1]; [| lra].
  unfold RigidBody.CalculateDerivedQuantities.
  subst b1 KE1 Om1 W1 T1. revert Hq. subst Q0 X1 V1 L1 L0 P1.
  destruct damp; body_members; intros Hq; rewrite Hq; rewrite bind_of_Ok;
    destruct cbd; body_members; reflexivity.
Qed.

Lemma SolveODE_inactive (h : R) (b : RigidBody.t) :
  RigidBody.IsActive b = false -> RigidBody.SolveODE h b = Ok b.
Proof. intros H. unfold RigidBody.SolveODE. now rewrite H. Qed.

(** The members that the end of [SolveODE] reads and assigns. *)
Ltac step_members :=
  unfold RigidBody.Deactivate;
  cbn [RigidBody.InverseMass RigidBody.InverseInertiaBody RigidBody.Position
       RigidBody.Orientation RigidBody.LinearMomentum
       RigidBody.AngularMomentum RigidBody.ToWorld
       RigidBody.InverseInertiaWorld RigidBody.Velocity
       RigidBody.AngularVelocity RigidBody.TotalAngularMomentum
       RigidBody.KineticEnergy RigidBody.AverageKineticEnergy
       RigidBody.KineticEnergyThreshold RigidBody.Force RigidBody.Torque
       RigidBody.IsActive RigidBody.CanBeDeactivated
       RigidBody.set_IsActive RigidBody.set_LinearMomentum
       RigidBody.set_AngularMomentum RigidBody.set_TotalAngularMomentum
       RigidBody.set_Velocity RigidBody.set_AngularVelocity
       RigidBody.set_KineticEnergy RigidBody.set_Force RigidBody.set_Torque
       RigidBody.set_AverageKineticEnergy].

(** X10: [SolveODE] of a body never divides by zero.  It leaves an inactive
    body as it is.  Of an active body it leaves the mass and the inertia in
    the body frame as they are, advances the position by the velocity that the
    new linear momentum gives, and leaves the transformation matrix, the
    inverse inertia in the world frame and the two velocities as the
    orientation, the position and the momenta it leaves give them. *)
Theorem SolveODE_derived (h : R) (b : RigidBody.t) :
  exists b',
    RigidBody.SolveODE h b = Ok b' /\
    (RigidBody.IsActive b = false -> b' = b) /\
    (RigidBody.IsActive b = true ->
       RigidBody.InverseMass b' = RigidBody.InverseMass b /\
       RigidBody.InverseInertiaBody b' = RigidBody.InverseInertiaBody b /\
       RigidBody.Position b'
       = Quaternion.add (RigidBody.Position b)
           (Quaternion.scale
              (Quaternion.lscale (RigidBody.InverseMass b)
                 (Quaternion.add (RigidBody.LinearMomentum b)
                    (Quaternion.scale (RigidBody.Force b) h)))
              h) /\
       RigidBody.ToWorld b'
       = QTensor.SetFromOrientationAndPosition (RigidBody.Orientation b')
           (RigidBody.Position b') /\
       RigidBody.InverseInertiaWorld b'
       = QTensor.transform (RigidBody.ToWorld b')
           (RigidBody.InverseInertiaBody b') /\
       RigidBody.Velocity b'
       = Quaternion.lscale (RigidBody.InverseMass b')
           (RigidBody.LinearMomentum b') /\
       RigidBody.AngularVelocity b'
       = QTensor.apply (RigidBody.InverseInertiaWorld b')
           (RigidBody.AngularMomentum b')).
Proof.
  destruct (RigidBody.IsActive b) eqn:Hact.
  2: { exists b. split; [now apply SolveODE_inactive |].
       split; [reflexivity | discriminate]. }
  destruct (SolveODE_active h b Hact) as (q & _ & _ & Hrun).
  cbv zeta in Hrun. rewrite Hrun. clear Hrun.
  destruct (RigidBody.CanBeDeactivated b); repeat case_decide;
    (eexists; split; [reflexivity |]; split; [discriminate |]; intros _;
     step_members; repeat split; try reflexivity).
  - unfold Quaternion.lscale, Quaternion.of_scalar. members. f_equal; lra.
  - unfold QTensor.apply, QTensor.transform, Quaternion.of_scalar. members.
    f_equal; lra.
Qed.

(** X11: A body that cannot be deactivated stays active in [SolveODE] and
    keeps its average kinetic energy.  A body that can be deactivated is
    deactivated when the average of its kinetic energy falls below the
    threshold, and then it has no momentum, no velocity and no force left;
    otherwise it stays active with an average that is not above ten times the
    threshold. *)
Theorem SolveODE_activity (h : R) (b : RigidBody.t) :
  RigidBody.IsActive b = true ->
  exists b',
    RigidBody.SolveODE h b = Ok b' /\
    RigidBody.CanBeDeactivated b' = RigidBody.CanBeDeactivated b /\
    RigidBody.KineticEnergyThreshold b' = RigidBody.KineticEnergyThreshold b /\
    (RigidBody.CanBeDeactivated b = false ->
       RigidBody.IsActive b' = true /\
       RigidBody.AverageKineticEnergy b' = RigidBody.AverageKineticEnergy b) /\
    (RigidBody.CanBeDeactivated b = true ->
       (RigidBody.IsActive b' = false /\
        RigidBody.AverageKineticEnergy b' < RigidBody.KineticEnergyThreshold b /\
        RigidBody.LinearMomentum b' = Quaternion.of_scalar 0.0 /\
        RigidBody.AngularMomentum b' = Quaternion.of_scalar 0.0 /\
        RigidBody.Velocity b' = Quaternion.of_scalar 0 /\
        RigidBody.AngularVelocity b' = Quaternion.of_scalar 0 /\
        RigidBody.KineticEnergy b' = 0 /\
        RigidBody.Force b' = Quaternion.of_scalar 0.0 /\
        RigidBody.Torque b' = Quaternion.of_scalar 0.0)
       \/
       (RigidBody.IsActive b' = true /\
        RigidBody.AverageKineticEnergy b'
        <= 10 * RigidBody.KineticEnergyThreshold b /\
        (0 <= RigidBody.KineticEnergyThreshold b ->
         RigidBody.KineticEnergyThreshold b
         <= RigidBody.AverageKineticEnergy b'))).
Proof.
  intros Hact.
  destruct (SolveODE_active h b Hact) as (q & _ & _ & Hrun).
  cbv zeta in Hrun. rewrite Hrun. clear Hrun.
  destruct (RigidBody.CanBeDeactivated b) eqn:Hcan.
  - destruct (decide _) as [Hlow | Hlow];
      [| destruct (decide _) as [Hhigh | Hhigh]];
      (eexists; split; [reflexivity |]; step_members;
       split; [reflexivity |]; split; [reflexivity |];
       split; [discriminate |]; intros _).
    + left. repeat split; try reflexivity. exact Hlow.
    + right. repeat split; lra.
    + right. repeat split; lra.
  - eexists. split; [reflexivity |]. step_members.
    split; [reflexivity |]. split; [reflexivity |].
    split; [split; reflexivity | discriminate].
Qed.

Lemma SolveODE_activity_witness :
  exists b',
    RigidBody.SolveODE 1 (Examples.immovable_ball Quaternion.zero) = Ok b' /\
    RigidBody.IsActive b' = true.
Proof.
  destruct (SolveODE_activity 1 (Examples.immovable_ball Quaternion.zero)
              eq_refl) as (b' & Hrun & _ & _ & Hstay & _).
  exists b'. split; [exact Hrun |]. now apply Hstay.
Defined.

Lemma Inverse_total (T : QTensor.t) : exists I, QTensor.Inverse T = Ok I.
Proof.
  unfold QTensor.Inverse, QTensor.SetInverseOf, QTensor.div_components.
  cbv zeta. destruct (decide (QTensor.Determinant T = 0)); eauto.
Qed.

(** What [Set_XQVW] leaves, member by member. *)
Lemma Set_XQVW_eq (X Q V W : Quaternion.t) (b : RigidBody.t) :
  exists q m I,
    Quaternion.Normalize Q 1.0 = Ok q /\ Quaternion.Norm q = 1 /\
    RigidBody.Mass b = Ok m /\
    let T := QTensor.SetFromOrientationAndPosition q X in
    let IW := QTensor.transform T (RigidBody.InverseInertiaBody b) in
    QTensor.Inverse IW = Ok I /\
    let P := Quaternion.lscale m V in
    let L := QTensor.apply I W in
    RigidBody.Set_XQVW X Q V W b
    = Ok (RigidBody.mk (RigidBody.InverseMass b)
            (RigidBody.InverseInertiaBody b) X q P L T IW V W
            (Quaternion.add (Quaternion.Cross X P) L)
            (0.5 * Quaternion.Dot V P + 0.5 * Quaternion.Dot W L)
            (RigidBody.PotentialEnergy b)
            (RigidBody.AverageKineticEnergy b)
            (RigidBody.KineticEnergyThreshold b)
            (RigidBody.KineticEnergyDamping b)
            (RigidBody.Force b) (RigidBody.Torque b)
            (RigidBody.IsActive b) (RigidBody.CanBeDeactivated b)).
Proof.
  destruct (Normalize_scaled Q 1.0) as (q & Hq & Hn & _).
  destruct (Inverse_total
              (QTensor.transform (QTensor.SetFromOrientationAndPosition q X)
                 (RigidBody.InverseInertiaBody b))) as [I HI].
  exists q. eexists. exists I. split; [exact Hq |]. split.
  { rewrite Hn. unfold Rabs. destruct (Rcase_abs 1.0); lra. }
  split; [apply Mass_decode |]. cbv zeta. split; [exact HI |].
  unfold RigidBody.Set_XQVW, RigidBody.CalculateDerivedQuantities.
  destruct b as [im IIB X0 Q0 P0 L0 T0 W0 V0 Om0 Lt KE PE AKE thr damp F Tq
                   act cbd].
  revert HI. body_members. intros HI.
  rewrite Hq, bind_of_Ok, Mass_decode, bind_of_Ok.
  body_members. rewrite HI, !bind_of_Ok. reflexivity.
Qed.

(** X12: [Set_XQVW] never divides by zero.  It leaves the position and the two
    velocities it is given, the orientation it is given scaled by the inverse
    of its norm, the transformation matrix of the orientation and position it
    leaves, and the linear momentum [Mass () * V]; the mass, the accumulated
    force and torque and the activity of the body stay as they are. *)
Theorem Set_XQVW_state (X Q V W : Quaternion.t) (b : RigidBody.t) :
  exists b' m,
    RigidBody.Set_XQVW X Q V W b = Ok b' /\
    RigidBody.Mass b = Ok m /\
    RigidBody.Position b' = X /\
    (Q = Quaternion.zero ->
     RigidBody.Orientation b' = Quaternion.of_scalar 1.0) /\
    (Q <> Quaternion.zero ->
     RigidBody.Orientation b' = Quaternion.scale Q (1.0 / Quaternion.Norm Q)) /\
    RigidBody.Velocity b' = V /\
    RigidBody.AngularVelocity b' = W /\
    RigidBody.LinearMomentum b' = Quaternion.lscale m V /\
    RigidBody.ToWorld b'
    = QTensor.SetFromOrientationAndPosition (RigidBody.Orientation b') X /\
    RigidBody.InverseMass b' = RigidBody.InverseMass b /\
    RigidBody.Force b' = RigidBody.Force b /\
    RigidBody.Torque b' = RigidBody.Torque b /\
    RigidBody.IsActive b' = RigidBody.IsActive b.
Proof.
  destruct (Set_XQVW_eq X Q V W b) as (q & m & I & Hq & _ & Hm & _ & Hrun).
  cbv zeta in Hrun. eexists. exists m. split; [exact Hrun |].
  split; [exact Hm |]. body_members.
  destruct (Normalize_scaled Q 1.0) as (q' & Hq' & _ & Hz & Hsc).
  rewrite Hq in Hq'. injection Hq' as <-.
  repeat split; try reflexivity; assumption.
Qed.

(** X13: An active body on which no force acts, and to which [Set_XQVW] gave
    the velocity [V], is moved in [SolveODE] by [h] times the velocity
    [InverseMass * ( Mass () * V )]; a body of inverse mass 0 or of inverse
    mass 1e30 or more (an immovable or a massless body) does not move,
    whatever velocity it was given. *)
Theorem Set_XQVW_SolveODE (X Q V W : Quaternion.t) (h : R)
    (b : RigidBody.t) :
  RigidBody.IsActive b = true ->
  RigidBody.Force b = Quaternion.zero ->
  exists b1 b2 m,
    RigidBody.Set_XQVW X Q V W b = Ok b1 /\
    RigidBody.SolveODE h b1 = Ok b2 /\
    RigidBody.Mass b = Ok m /\
    RigidBody.Position b2
    = Quaternion.add X
        (Quaternion.scale
           (Quaternion.lscale (RigidBody.InverseMass b)
              (Quaternion.lscale m V)) h) /\
    (RigidBody.InverseMass b = 0 \/ RigidBody.InverseMass b >= 1e30 ->
     RigidBody.Position b2 = X).
Proof.
  intros Hact HF.
  destruct (Set_XQVW_eq X Q V W b) as (q & m & I & _ & _ & Hm & _ & Hrun).
  cbv zeta in Hrun. pose proof Hm as Hmass.
  rewrite Mass_decode in Hm. injection Hm as Hm.
  match type of Hrun with
  | _ = Ok ?b1 => destruct (SolveODE_active h b1 Hact) as (q2 & _ & _ & Hstep)
  end.
  cbv zeta in Hstep. members_in Hstep. rewrite HF in Hstep, Hrun.
  assert (Hfree :
            Quaternion.add X
              (Quaternion.scale
                 (Quaternion.lscale (RigidBody.InverseMass b)
                    (Quaternion.add (Quaternion.lscale m V)
                       (Quaternion.scale Quaternion.zero h))) h) =
            Quaternion.add X
              (Quaternion.scale
                 (Quaternion.lscale (RigidBody.InverseMass b)
                    (Quaternion.lscale m V)) h)).
  { apply Quaternion_eq;
      unfold Quaternion.add, Quaternion.scale, Quaternion.lscale,
        Quaternion.zero; cbn [Quaternion.w Quaternion.x Quaternion.y Quaternion.z];
      repeat split; ring. }
  assert (Hfixed : RigidBody.InverseMass b = 0 \/ RigidBody.InverseMass b >= 1e30 ->
            Quaternion.add X
              (Quaternion.scale
                 (Quaternion.lscale (RigidBody.InverseMass b)
                    (Quaternion.add (Quaternion.lscale m V)
                       (Quaternion.scale Quaternion.zero h))) h) = X).
  { intros Him. subst m.
    destruct (decide (RigidBody.InverseMass b = 0)) as [H0 | H0].
    - rewrite H0. apply Quaternion_eq;
        unfold Quaternion.add, Quaternion.scale, Quaternion.lscale,
          Quaternion.zero; cbn [Quaternion.w Quaternion.x Quaternion.y Quaternion.z];
        repeat split; ring.
    - destruct (decide (RigidBody.InverseMass b >= 1e30)) as [_ | H1];
        [| destruct Him; [contradiction | lra]].
      apply Quaternion_eq;
        unfold Quaternion.add, Quaternion.scale, Quaternion.lscale,
          Quaternion.zero; cbn [Quaternion.w Quaternion.x Quaternion.y Quaternion.z];
        repeat split; ring. }
  destruct (RigidBody.CanBeDeactivated b);
    [destruct (decide _) in Hstep; [| destruct (decide _) in Hstep] |];
    (eexists; eexists; exists m; split; [exact Hrun |];
     split; [exact Hstep |]; split; [exact Hmass |];
     step_members; split; assumption).
Qed.

Lemma Set_XQVW_SolveODE_witness :
  exists b1 b2,
    RigidBody.Set_XQVW Const.X (Quaternion.of_scalar 1) Const.Y
      Quaternion.zero (Examples.immovable_ball Quaternion.zero) = Ok b1 /\
    RigidBody.SolveODE 1 b1 = Ok b2 /\
    RigidBody.Position b2 = Const.X.
Proof.
  destruct (Set_XQVW_SolveODE Const.X (Quaternion.of_scalar 1) Const.Y
              Quaternion.zero 1 (Examples.immovable_ball Quaternion.zero)
              eq_refl eq_refl) as (b1 & b2 & m & Hset & Hstep & _ & _ & Hfixed).
  exists b1, b2. split; [exact Hset |]. split; [exact Hstep |].
  apply Hfixed. left. reflexivity.
Defined.

(** ** RigidBody.h: the accumulators of force and torque *)

(** X14: A force applied at the position of the body adds no torque: it is
    the same as [AddForce].  A force applied at a point activates the body
    and leaves its average kinetic energy and its momenta as they are, and
    [AddExternalForce] leaves the activity as it is.  [ClearAccumulators]
    leaves no force, no torque and no potential energy, and changes neither
    the momenta nor the activity of the body. *)
Theorem AddForceAtPoint_at_position (p f : Quaternion.t) (e : R)
    (b : RigidBody.t) :
  RigidBody.AddForceAtPoint (RigidBody.Position b) f e b
  = RigidBody.AddForce f e b /\
  (let b1 := RigidBody.AddForceAtPoint p f e b in
   RigidBody.IsActive b1 = true /\
   RigidBody.AverageKineticEnergy b1 = RigidBody.AverageKineticEnergy b /\
   RigidBody.LinearMomentum b1 = RigidBody.LinearMomentum b /\
   RigidBody.AngularMomentum b1 = RigidBody.AngularMomentum b) /\
  RigidBody.IsActive (RigidBody.AddExternalForce f e b)
  = RigidBody.IsActive b /\
  (let b0 := RigidBody.ClearAccumulators b in
   RigidBody.Force b0 = Quaternion.zero /\
   RigidBody.Torque b0 = Quaternion.zero /\
   RigidBody.PotentialEnergy b0 = 0 /\
   RigidBody.LinearMomentum b0 = RigidBody.LinearMomentum b /\
   RigidBody.AngularMomentum b0 = RigidBody.AngularMomentum b /\
   RigidBody.IsActive b0 = RigidBody.IsActive b).
Proof.
  destruct b as [im IIB X Q P L T W V Om Lt KE PE AKE thr damp F Tq act cbd].
  unfold RigidBody.AddForceAtPoint, RigidBody.AddForce,
    RigidBody.AddExternalForce, RigidBody.ClearAccumulators.
  body_members. split; [| split; [| split]].
  - f_equal. apply Quaternion_eq;
      unfold Quaternion.add, Quaternion.sub, Quaternion.Cross;
      cbn [Quaternion.w Quaternion.x Quaternion.y Quaternion.z]; ring.
  - repeat split; reflexivity.
  - reflexivity.
  - repeat split; reflexivity.
Qed.

(** ** CollisionResolver.h: the search for the contact to resolve *)

Lemma for_each_app {St : Type} (l1 l2 : list nat)
    (body : nat -> St -> Outcome St) (st : St) :
  for_each (l1 ++ l2) body st = for_each l1 body st ≫= for_each l2 body.
Proof.
  revert st. induction l1 as [| i l1 IH]; intros st; cbn; [reflexivity |].
  destruct (body i st) as [st1 | f]; cbn; [apply IH | reflexivity].
Qed.

(** The loop of [FindLargestBouncingVelocity] and [FindLargestPenetration],
    over the first [n] contacts, for the member [f] that is compared. *)
Lemma largest_scan (f : Collision.t -> R) (r : CollisionResolver.t)
    (eps : R) (n : nat) :
  (n <= length (CollisionResolver.Collisions r))%nat ->
  exists e found,
    for_each (seq 0 n)
      (fun i '(eps, contact) =>
         c ← CollisionResolver.index r (Z.of_nat i);
         if decide (f c > eps) then Ok (f c, Some i) else Ok (eps, contact))
      (eps, None) = Ok (e, found) /\
    (forall i c, (i < n)%nat ->
       CollisionResolver.Collisions r !! i = Some c -> f c <= e) /\
    match found with
    | None => e = eps
    | Some k =>
        (k < n)%nat /\ e > eps /\
        exists ck, CollisionResolver.Collisions r !! k = Some ck /\
          f ck = e /\
          forall i c, (i < k)%nat ->
            CollisionResolver.Collisions r !! i = Some c -> f c < e
    end.
Proof.
  induction n as [| n IH]; intros Hn.
  - exists eps, None. cbn. split; [reflexivity |]. split; [| reflexivity].
    intros i c Hi. lia.
  - destruct IH as (e & found & Hrun & Hle & Hfound); [lia |].
    rewrite seq_S, for_each_app, Hrun. cbn [mbind Outcome_bind for_each Nat.add].
    destruct (lookup_lt_is_Some_2 (CollisionResolver.Collisions r) n)
      as [cn Hcn]; [lia |].
    unfold CollisionResolver.index. rewrite Nat2Z.id, Hcn.
    cbn [mbind Outcome_bind].
    assert (Hge : e >= eps).
    { destruct found as [k |]; [destruct Hfound as (_ & ? & _); lra | lra]. }
    destruct (decide (f cn > e)) as [Hgt | Hngt]; cbn [mbind Outcome_bind].
    + exists (f cn), (Some n). split; [reflexivity |]. split.
      * intros i c Hi Hc. destruct (decide (i = n)) as [-> | Hne].
        -- rewrite Hcn in Hc. injection Hc as <-. lra.
        -- assert (f c <= e) by (apply (Hle i); [lia | exact Hc]). lra.
      * split; [lia |]. split; [lra |]. exists cn.
        split; [exact Hcn |]. split; [reflexivity |].
        intros i c Hi Hc. assert (f c <= e) by (apply (Hle i); [lia | exact Hc]).
        lra.
    + exists e, found. split; [reflexivity |]. split.
      * intros i c Hi Hc. destruct (decide (i = n)) as [-> | Hne].
        -- rewrite Hcn in Hc. injection Hc as <-. lra.
        -- apply (Hle i); [lia | exact Hc].
      * destruct found as [k |]; [| exact Hfound].
        destruct Hfound as (Hk & He & Hck). split; [lia |]. split; assumption.
Qed.

(** X16: [FindLargestPenetration] always returns, when the contacts that are
    counted lie in the parcel: it finds no contact exactly when no penetration
    is above [eps], and otherwise it finds the first of the contacts with the
    largest penetration, which is above [eps]. *)
Theorem FindLargestPenetration_largest (r : CollisionResolver.t) (eps : R) :
  (Z.to_nat (CollisionResolver.CollisionCount r)
   <= length (CollisionResolver.Collisions r))%nat ->
  exists found,
    CollisionResolver.FindLargestPenetration r eps = Ok found /\
    match found with
    | None =>
        forall i c, (i < Z.to_nat (CollisionResolver.CollisionCount r))%nat ->
          CollisionResolver.Collisions r !! i = Some c ->
          Collision.Penetration c <= eps
    | Some k =>
        (k < Z.to_nat (CollisionResolver.CollisionCount r))%nat /\
        exists ck,
          CollisionResolver.Collisions r !! k = Some ck /\
          Collision.Penetration ck > eps /\
          forall i c,
            (i < Z.to_nat (CollisionResolver.CollisionCount r))%nat ->
            CollisionResolver.Collisions r !! i = Some c ->
            Collision.Penetration c <= Collision.Penetration ck /\
            ((i < k)%nat ->
             Collision.Penetration c < Collision.Penetration ck)
    end.
Proof.
  intros Hn.
  destruct (largest_scan Collision.Penetration r eps _ Hn)
    as (e & found & Hrun & Hle & Hfound).
  exists found. unfold CollisionResolver.FindLargestPenetration,
    CollisionResolver.each_collision.
  rewrite Hrun. cbn [mbind Outcome_bind snd]. split; [reflexivity |].
  destruct found as [k |].
  - destruct Hfound as (Hk & He & ck & Hck & Hfk & Hfirst).
    split; [exact Hk |]. exists ck. split; [exact Hck |].
    split; [lra |]. intros i c Hi Hc. rewrite Hfk. split.
    + exact (Hle i c Hi Hc).
    + intros Hik. exact (Hfirst i c Hik Hc).
  - subst e. exact Hle.
Qed.

Lemma FindLargestPenetration_largest_witness :
  CollisionResolver.FindLargestPenetration
    (Examples.registry_with Examples.contact_updated) 0.01 = Ok (Some 0%nat).
Proof.
  destruct (FindLargestPenetration_largest
              (Examples.registry_with Examples.contact_updated) 0.01)
    as (found & Hrun & Hfound).
  - cbn. lia.
  - rewrite Hrun. f_equal. destruct found as [k |].
    + destruct Hfound as (Hk & _). cbn in Hk. f_equal. lia.
    + exfalso. specialize (Hfound 0%nat Examples.contact_updated).
      cbn in Hfound. assert (1 <= 0.01) by (apply Hfound; [lia | reflexivity]).
      lra.
Defined.

(** X17: [FindLargestBouncingVelocity] always returns, when the contacts that
    are counted lie in the parcel: it finds no contact exactly when no
    bouncing velocity is above [eps], and otherwise it finds the first of the
    contacts with the largest bouncing velocity, which is above [eps]. *)
Theorem FindLargestBouncingVelocity_largest (r : CollisionResolver.t)
    (eps : R) :
  (Z.to_nat (CollisionResolver.CollisionCount r)
   <= length (CollisionResolver.Collisions r))%nat ->
  exists found,
    CollisionResolver.FindLargestBouncingVelocity r eps = Ok found /\
    match found with
    | None =>
        forall i c, (i < Z.to_nat (CollisionResolver.CollisionCount r))%nat ->
          CollisionResolver.Collisions r !! i = Some c ->
          Collision.BouncingVelocity c <= eps
    | Some k =>
        (k < Z.to_nat (CollisionResolver.CollisionCount r))%nat /\
        exists ck,
          CollisionResolver.Collisions r !! k = Some ck /\
          Collision.BouncingVelocity ck > eps /\
          forall i c,
            (i < Z.to_nat (CollisionResolver.CollisionCount r))%nat ->
            CollisionResolver.Collisions r !! i = Some c ->
            Collision.BouncingVelocity c <= Collision.BouncingVelocity ck /\
            ((i < k)%nat ->
             Collision.BouncingVelocity c < Collision.BouncingVelocity ck)
    end.
Proof.
  intros Hn.
  destruct (largest_scan Collision.BouncingVelocity r eps _ Hn)
    as (e & found & Hrun & Hle & Hfound).
  exists found. unfold CollisionResolver.FindLargestBouncingVelocity,
    CollisionResolver.each_collision.
  rewrite Hrun. cbn [mbind Outcome_bind snd]. split; [reflexivity |].
  destruct found as [k |].
  - destruct Hfound as (Hk & He & ck & Hck & Hfk & Hfirst).
    split; [exact Hk |]. exists ck. split; [exact Hck |].
    split; [lra |]. intros i c Hi Hc. rewrite Hfk. split.
    + exact (Hle i c Hi Hc).
    + intros Hik. exact (Hfirst i c Hik Hc).
  - subst e. exact Hle.
Qed.

Lemma FindLargestBouncingVelocity_largest_witness :
  CollisionResolver.FindLargestBouncingVelocity
    (Examples.registry_with Examples.contact_of_two) 0.01 = Ok (Some 0%nat).
Proof.
  destruct (FindLargestBouncingVelocity_largest
              (Examples.registry_with Examples.contact_of_two) 0.01)
    as (found & Hrun & Hfound).
  - cbn. lia.
  - rewrite Hrun. f_equal. destruct found as [k |].
    + destruct Hfound as (Hk & _). cbn in Hk. f_equal. lia.
    + exfalso. specialize (Hfound 0%nat Examples.contact_of_two).
      cbn in Hfound. assert (1 <= 0.01) by (apply Hfound; [lia | reflexivity]).
      lra.
Defined.

Lemma largest_scan_none (f : Collision.t -> R) (r : CollisionResolver.t)
    (eps : R) (n : nat) :
  (n <= length (CollisionResolver.Collisions r))%nat ->
  (forall i c, (i < n)%nat ->
     CollisionResolver.Collisions r !! i = Some c -> f c <= eps) ->
  for_each (seq 0 n)
    (fun i '(eps, contact) =>
       c ← CollisionResolver.index r (Z.of_nat i);
       if decide (f c > eps) then Ok (f c, Some i) else Ok (eps, contact))
    (eps, None) = Ok (eps, None).
Proof.
  intros Hn Hall.
  destruct (largest_scan f r eps n Hn) as (e & found & Hrun & _ & Hfound).
  rewrite Hrun. destruct found as [k |]; [| now subst e].
  destruct Hfound as (Hk & He & ck & Hck & Hfk & _).
  specialize (Hall k ck Hk Hck). lra.
Qed.

(** X18: When no contact has a bouncing velocity above [eps] (0.01 when [eps]
    is 0), [ImpulseTransfers] leaves the bodies and the contacts as they are,
    after one pass through its loop at most. *)
Theorem ImpulseTransfers_idle (s : Bodies) (r : CollisionResolver.t)
    (h : R) (maxIterations : Z) (eps : R) :
  (Z.to_nat (CollisionResolver.CollisionCount r)
   <= length (CollisionResolver.Collisions r))%nat ->
  (forall i c, (i < Z.to_nat (CollisionResolver.CollisionCount r))%nat ->
     CollisionResolver.Collisions r !! i = Some c ->
     Collision.BouncingVelocity c <= (if decide (eps = 0) then 0.01 else eps)) ->
  exists n, (n <= 1)%nat /\
    CollisionResolver.ImpulseTransfers s r h maxIterations eps
    = (n, Ok (s, r)).
Proof.
  intros Hn Hall. unfold CollisionResolver.ImpulseTransfers.
  destruct (decide (CollisionResolver.CollisionCount r = 0)%Z) as [_ | _];
    [exists 0%nat; split; [lia | reflexivity] |].
  cbv zeta.
  destruct (Z.to_nat _) as [| m] at 1;
    [exists 0%nat; split; [lia | reflexivity] |].
  exists 1%nat. split; [lia |]. cbn [CollisionResolver.iterate].
  unfold CollisionResolver.ImpulseTransfers_pass,
    CollisionResolver.FindLargestBouncingVelocity,
    CollisionResolver.each_collision.
  rewrite (largest_scan_none Collision.BouncingVelocity r _ _ Hn Hall).
  reflexivity.
Qed.

Lemma ImpulseTransfers_idle_witness :
  exists n, (n <= 1)%nat /\
    CollisionResolver.ImpulseTransfers Examples.immovable_pair
      (Examples.registry_with Examples.contact_updated) 1 0 0.01
    = (n,
       Ok (Examples.immovable_pair,
           Examples.registry_with Examples.contact_updated)).
Proof.
  apply (ImpulseTransfers_idle Examples.immovable_pair
           (Examples.registry_with Examples.contact_updated) 1 0 0.01).
  - cbn. lia.
  - intros i c Hi Hc. cbn in Hi.
    assert (i = 0%nat) as -> by lia. cbn in Hc. injection Hc as <-.
    cbn [Collision.BouncingVelocity Examples.contact_updated].
    destruct (decide (0.01 = 0)); lra.
Defined.

(** X19: When no contact has a penetration above [eps] (0.01 when [eps] is 0),
    [PositionProjections] leaves the bodies and the contacts as they are,
    after one pass through its loop at most. *)
Theorem PositionProjections_idle (s : Bodies) (r : CollisionResolver.t)
    (maxIterations : Z) (eps : R) :
  (Z.to_nat (CollisionResolver.CollisionCount r)
   <= length (CollisionResolver.Collisions r))%nat ->
  (forall i c, (i < Z.to_nat (CollisionResolver.CollisionCount r))%nat ->
     CollisionResolver.Collisions r !! i = Some c ->
     Collision.Penetration c <= (if decide (eps = 0) then 0.01 else eps)) ->
  exists n, (n <= 1)%nat /\
    CollisionResolver.PositionProjections s r maxIterations eps
    = (n, Ok (s, r)).
Proof.
  intros Hn Hall. unfold CollisionResolver.PositionProjections.
  destruct (decide (CollisionResolver.CollisionCount r = 0)%Z) as [_ | _];
    [exists 0%nat; split; [lia | reflexivity] |].
  cbv zeta.
  destruct (Z.to_nat _) as [| m] at 1;
    [exists 0%nat; split; [lia | reflexivity] |].
  exists 1%nat. split; [lia |]. cbn [CollisionResolver.iterate].
  unfold CollisionResolver.PositionProjections_pass,
    CollisionResolver.FindLargestPenetration,
    CollisionResolver.each_collision.
  replace 1e-2 with 0.01 by lra.
  rewrite (largest_scan_none Collision.Penetration r _ _ Hn Hall).
  reflexivity.
Qed.

Lemma PositionProjections_idle_witness :
  exists n, (n <= 1)%nat /\
    CollisionResolver.PositionProjections Examples.immovable_pair
      (Examples.registry_with Examples.contact_updated) 0 2
    = (n,
       Ok (Examples.immovable_pair,
           Examples.registry_with Examples.contact_updated)).
Proof.
  apply (PositionProjections_idle Examples.immovable_pair
           (Examples.registry_with Examples.contact_updated) 0 2).
  - cbn. lia.
  - intros i c Hi Hc. cbn in Hi.
    assert (i = 0%nat) as -> by lia. cbn in Hc. injection Hc as <-.
    cbn [Collision.Penetration Examples.contact_updated].
    destruct (decide (2 = 0)); lra.
Defined.

(** ** Collision.h: the bodies and the basis of a contact *)

(** X20: [ActivateInactiveBodies] on a contact with the scenery changes
    nothing.  On a contact between two bodies it returns, and afterwards the
    two bodies are active if one of them was, and inactive if both were; the
    bodies are left as they are when both were active or both inactive; no
    other body is changed. *)
Theorem ActivateInactiveBodies_wakes (s : Bodies) (c : Collision.t) :
  (Collision.Body_B c = None ->
   Collision.ActivateInactiveBodies s c = Ok s) /\
  (forall a b bA bB,
     Collision.Body_A c = Some a -> Collision.Body_B c = Some b ->
     s !! a = Some bA -> s !! b = Some bB ->
     exists s' bA' bB',
       Collision.ActivateInactiveBodies s c = Ok s' /\
       s' !! a = Some bA' /\ s' !! b = Some bB' /\
       RigidBody.IsActive bA'
       = RigidBody.IsActive bA || RigidBody.IsActive bB /\
       RigidBody.IsActive bB'
       = RigidBody.IsActive bA || RigidBody.IsActive bB /\
       (RigidBody.IsActive bA = RigidBody.IsActive bB -> s' = s) /\
       (forall i, i <> a -> i <> b -> s' !! i = s !! i) /\
       length s' = length s).
Proof.
  split.
  { intros HB. unfold Collision.ActivateInactiveBodies. now rewrite HB. }
  intros a b bA bB HA HB Ha Hb. unfold Collision.ActivateInactiveBodies.
  rewrite HB, HA, (load_Some _ _ _ Ha), bind_of_Ok.
  rewrite (load_Some _ _ _ Hb), bind_of_Ok.
  destruct (RigidBody.IsActive bA) eqn:EA, (RigidBody.IsActive bB) eqn:EB;
    cbn [xorb orb].
  - exists s, bA, bB. repeat split; auto.
  - destruct (Activate_inactive bB EB) as (m & _ & ->). rewrite bind_of_Ok.
    rewrite (store_Some _ _ _ _ Hb).
    assert (a <> b) as Hne by (intros ->; congruence).
    eexists. exists bA. eexists. split; [reflexivity |].
    split; [now rewrite list_lookup_insert_ne by congruence |].
    split; [apply list_lookup_insert_eq; eapply lookup_lt_Some; eauto |].
    members. repeat split; try congruence.
    + intros i _ Hi. now rewrite list_lookup_insert_ne by congruence.
    + apply length_insert.
  - destruct (Activate_inactive bA EA) as (m & _ & ->). rewrite bind_of_Ok.
    rewrite (store_Some _ _ _ _ Ha).
    assert (a <> b) as Hne by (intros ->; congruence).
    eexists. eexists. exists bB. split; [reflexivity |].
    split; [apply list_lookup_insert_eq; eapply lookup_lt_Some; eauto |].
    split; [now rewrite list_lookup_insert_ne by congruence |].
    members. repeat split; try congruence.
    + intros i Hi _. now rewrite list_lookup_insert_ne by congruence.
    + apply length_insert.
  - exists s, bA, bB. repeat split; auto.
Qed.

Lemma ActivateInactiveBodies_wakes_witness :
  exists s' bA' bB',
    Collision.ActivateInactiveBodies
      [Examples.immovable_ball Quaternion.zero; RigidBody.new]
      Examples.contact_of_two = Ok s' /\
    s' !! 0%nat = Some bA' /\ s' !! 1%nat = Some bB' /\
    RigidBody.IsActive bA' = true /\ RigidBody.IsActive bB' = true.
Proof.
  destruct (ActivateInactiveBodies_wakes
              [Examples.immovable_ball Quaternion.zero; RigidBody.new]
              Examples.contact_of_two) as [_ Hwake].
  destruct (Hwake 0%nat 1%nat (Examples.immovable_ball Quaternion.zero)
              RigidBody.new eq_refl eq_refl eq_refl eq_refl)
    as (s' & bA' & bB' & Hrun & Ha & Hb & HA & HB & _).
  exists s', bA', bB'. repeat split; assumption.
Defined.

Lemma Rabs_gt_nonzero (u v : R) : Rabs u > Rabs v -> u <> 0.
Proof.
  intros H ->. rewrite Rabs_R0 in H. pose proof (Rabs_pos v). lra.
Qed.

Lemma Rabs_le_zero (u v : R) : Rabs u <= Rabs v -> v = 0 -> u = 0.
Proof.
  intros H ->. rewrite Rabs_R0 in H. pose proof (Rabs_pos u).
  destruct (Req_dec u 0) as [-> | Hu]; [reflexivity |].
  pose proof (Rabs_pos_lt u Hu). lra.
Qed.

Lemma sum_of_squares_positive (u v : R) : u <> 0 \/ v <> 0 -> 0 < u * u + v * v.
Proof. intros [H | H]; nra. Qed.

Lemma inverse_length (d : R) :
  0 < d -> 1 / sqrt d <> 0 /\ d * (1 / sqrt d * (1 / sqrt d)) = 1.
Proof.
  intros Hd. pose proof (sqrt_lt_R0 d Hd) as Hs.
  pose proof (sqrt_sqrt d (Rlt_le _ _ Hd)) as Hsq.
  split.
  - unfold Rdiv. rewrite Rmult_1_l. apply Rinv_neq_0_compat. lra.
  - rewrite <- Hsq at 1. field. lra.
Qed.

(** The basis that [FindOrthonormalBasisAtContactPoint] finds for a normal
    with a spatial part. *)
Lemma Basis_of_normal (c : Collision.t) :
  let N := Collision.Normal c in
  Quaternion.x N <> 0 \/ Quaternion.y N <> 0 \/ Quaternion.z N <> 0 ->
  exists tY tZ,
    Collision.FindOrthonormalBasisAtContactPoint c
    = Ok (Collision.set_ToWorld (QTensor.SetColumnVectors N tY tZ) c) /\
    Quaternion.Norm tY = 1 /\ Quaternion.Dot tY N = 0 /\
    Quaternion.Norm tZ = 1 /\
    (Rabs (Quaternion.x N) <= Rabs (Quaternion.y N) ->
     Quaternion.w tZ = 0 /\ Quaternion.Dot tZ N = 0 /\
     Quaternion.Dot tZ tY = 0).
Proof.
  intros N. unfold Collision.FindOrthonormalBasisAtContactPoint.
  fold N. cbv zeta. destruct N as [Nw Nx Ny Nz].
  cbn [Quaternion.w Quaternion.x Quaternion.y Quaternion.z].
  intros Hnz.
  destruct (decide (Rabs Nx > Rabs Ny)) as [Hgt | Hle].
  - pose proof (Rabs_gt_nonzero _ _ Hgt) as Hx.
    assert (0 < Nz * Nz + Nx * Nx) as Hd
      by (apply sum_of_squares_positive; auto).
    pose proof (sqrt_lt_R0 _ Hd) as Hs.
    destruct (inverse_length _ Hd) as [Hl Hll].
    rewrite fdiv_Ok by lra. rewrite bind_of_Ok.
    replace (1.0 / sqrt (Nz * Nz + Nx * Nx))
      with (1 / sqrt (Nz * Nz + Nx * Nx)) in * by (f_equal; lra).
    set (l := 1 / sqrt (Nz * Nz + Nx * Nx)) in *.
    cbn [Quaternion.w Quaternion.x Quaternion.y Quaternion.z].
    match goal with
    | |- context [Quaternion.Normalize ?q 1.0] =>
        destruct (Normalize_scaled q 1.0) as (tZ & -> & HnZ & _)
    end.
    rewrite !bind_of_Ok. do 2 eexists. split; [reflexivity |].
    split; [| split; [| split]].
    + unfold Quaternion.Norm, Quaternion.SquaredNorm.
      cbn [Quaternion.w Quaternion.x Quaternion.y Quaternion.z].
      apply sqrt_of_one. nra.
    + unfold Quaternion.Dot.
      cbn [Quaternion.w Quaternion.x Quaternion.y Quaternion.z]. ring.
    + rewrite HnZ. unfold Rabs. destruct (Rcase_abs 1.0); lra.
    + intros Hle. lra.
  - assert (Rabs Nx <= Rabs Ny) as Hle' by lra.
    assert (Ny <> 0 \/ Nz <> 0) as Hyz.
    { destruct (Req_dec Ny 0) as [Hy | Hy]; [| now left].
      pose proof (Rabs_le_zero _ _ Hle' Hy) as Hx.
      destruct Hnz as [? | [? | ?]]; [contradiction | contradiction |].
      now right. }
    assert (0 < Nz * Nz + Ny * Ny) as Hd
      by (apply sum_of_squares_positive; tauto).
    pose proof (sqrt_lt_R0 _ Hd) as Hs.
    destruct (inverse_length _ Hd) as [Hl Hll].
    rewrite fdiv_Ok by lra. rewrite bind_of_Ok.
    replace (1.0 / sqrt (Nz * Nz + Ny * Ny))
      with (1 / sqrt (Nz * Nz + Ny * Ny)) in * by (f_equal; lra).
    set (l := 1 / sqrt (Nz * Nz + Ny * Ny)) in *.
    cbn [Quaternion.w Quaternion.x Quaternion.y Quaternion.z].
    match goal with
    | |- context [Quaternion.Normalize ?q 1.0] =>
        destruct (Normalize_scaled q 1.0) as (tZ & -> & HnZ & _ & Hsc)
    end.
    rewrite !bind_of_Ok. do 2 eexists. split; [reflexivity |].
    split; [| split; [| split]].
    + unfold Quaternion.Norm, Quaternion.SquaredNorm.
      cbn [Quaternion.w Quaternion.x Quaternion.y Quaternion.z].
      apply sqrt_of_one. nra.
    + unfold Quaternion.Dot.
      cbn [Quaternion.w Quaternion.x Quaternion.y Quaternion.z]. ring.
    + rewrite HnZ. unfold Rabs. destruct (Rcase_abs 1.0); lra.
    + intros _. rewrite Hsc.
      * unfold Quaternion.Dot, Quaternion.scale.
        cbn [Quaternion.w Quaternion.x Quaternion.y Quaternion.z].
        repeat split; ring.
      * intros [= E _ _]. nra.
Qed.

(** X21: [FindOrthonormalBasisAtContactPoint] divides by zero when the normal
    has no spatial part.  For any other normal [N] it returns and changes
    [ToWorld] only: the first column is [N], and the second, the first
    tangent, is [( N.z, 0, - N.x )] divided by the length of that vector
    where [|N.x| > |N.y|] and [( 0, - N.z, N.y )] divided by its length
    otherwise. *)
Theorem FindOrthonormalBasisAtContactPoint_basis (c : Collision.t) :
  let N := Collision.Normal c in
  (Quaternion.x N = 0 /\ Quaternion.y N = 0 /\ Quaternion.z N = 0 ->
   Collision.FindOrthonormalBasisAtContactPoint c = Raise DivisionByZero) /\
  (Quaternion.x N <> 0 \/ Quaternion.y N <> 0 \/ Quaternion.z N <> 0 ->
   exists tY tZ,
     Collision.FindOrthonormalBasisAtContactPoint c
     = Ok (Collision.set_ToWorld (QTensor.SetColumnVectors N tY tZ) c) /\
     (Rabs (Quaternion.x N) > Rabs (Quaternion.y N) ->
      let length :=
        1.0 / sqrt (Quaternion.z N * Quaternion.z N
                    + Quaternion.x N * Quaternion.x N) in
      tY = Quaternion.mk 0 (Quaternion.z N * length) 0
                           (- Quaternion.x N * length)) /\
     (Rabs (Quaternion.x N) <= Rabs (Quaternion.y N) ->
      let length :=
        1.0 / sqrt (Quaternion.z N * Quaternion.z N
                    + Quaternion.y N * Quaternion.y N) in
      tY = Quaternion.mk 0 0 (- Quaternion.z N * length)
                             (Quaternion.y N * length))).
Proof.
  intros N. unfold Collision.FindOrthonormalBasisAtContactPoint.
  fold N. cbv zeta. destruct N as [Nw Nx Ny Nz].
  cbn [Quaternion.w Quaternion.x Quaternion.y Quaternion.z].
  split.
  - intros (-> & -> & ->).
    destruct (decide (Rabs 0 > Rabs 0)) as [H | _]; [lra |].
    rewrite fdiv_by_zero; [reflexivity |].
    replace (0 * 0 + 0 * 0) with 0 by ring. apply sqrt_0.
  - intros Hnz.
    destruct (decide (Rabs Nx > Rabs Ny)) as [Hgt | Hle].
    + pose proof (Rabs_gt_nonzero _ _ Hgt) as Hx.
      assert (0 < Nz * Nz + Nx * Nx) as Hd
        by (apply sum_of_squares_positive; auto).
      pose proof (sqrt_lt_R0 _ Hd) as Hs.
      rewrite fdiv_Ok by lra. rewrite bind_of_Ok.
      cbn [Quaternion.w Quaternion.x Quaternion.y Quaternion.z].
      match goal with
      | |- context [Quaternion.Normalize ?q 1.0] =>
          destruct (Normalize_scaled q 1.0) as (tZ & -> & _)
      end.
      rewrite !bind_of_Ok. do 2 eexists. split; [reflexivity |].
      split; [intros _; reflexivity | intros Hle; lra].
    + assert (Rabs Nx <= Rabs Ny) as Hle' by lra.
      assert (Ny <> 0 \/ Nz <> 0) as Hyz.
      { destruct (Req_dec Ny 0) as [Hy | Hy]; [| now left].
        pose proof (Rabs_le_zero _ _ Hle' Hy) as Hx.
        destruct Hnz as [? | [? | ?]]; [contradiction | contradiction |].
        now right. }
      assert (0 < Nz * Nz + Ny * Ny) as Hd
        by (apply sum_of_squares_positive; tauto).
      pose proof (sqrt_lt_R0 _ Hd) as Hs.
      rewrite fdiv_Ok by lra. rewrite bind_of_Ok.
      cbn [Quaternion.w Quaternion.x Quaternion.y Quaternion.z].
      match goal with
      | |- context [Quaternion.Normalize ?q 1.0] =>
          destruct (Normalize_scaled q 1.0) as (tZ & -> & _)
      end.
      rewrite !bind_of_Ok. do 2 eexists. split; [reflexivity |].
      split; [intros Hgt; lra | intros _; reflexivity].
Qed.

Lemma FindOrthonormalBasisAtContactPoint_basis_witness :
  exists tY tZ,
    Collision.FindOrthonormalBasisAtContactPoint Examples.contact_of_two
    = Ok (Collision.set_ToWorld
            (QTensor.SetColumnVectors Const.X tY tZ)
            Examples.contact_of_two).
Proof.
  destruct (FindOrthonormalBasisAtContactPoint_basis Examples.contact_of_two)
    as [_ Hbasis].
  destruct Hbasis as (tY & tZ & Hrun & _).
  - left. cbn. lra.
  - exists tY, tZ. exact Hrun.
Defined.

(** ** ImpulseMethod.cpp: the angular momentum in an impulse transfer *)

Section Binary64_jolts.

Import PrimFloat.
#[local] Open Scope float_scope.
#[local] Set Warnings "-inexact-float".

(** X22: An impulse transfer between two different bodies that exist
    returns, over binary64, with friction and without.  With [J] the impulse
    of the contact in the world frame, it adds [r_A x J] to the angular
    momentum of the body A and subtracts [r_B x J] from that of the body B,
    for the relative positions [r_A] and [r_B] of the contact, and the jolts
    it reports are [InverseMass * J] and [InverseInertiaWorld * ( r x J )],
    negated for the body B.  It changes no other body, and it leaves the
    positions and the velocities of the two bodies as they are. *)
Theorem ImpulseTransfer_angular_momentum (s : Binary64.Bodies)
    (c : Binary64.Collision.t)
    (V_jolt W_jolt : Binary64.Quaternion.t * Binary64.Quaternion.t)
    (a b : nat) (bA bB : Binary64.RigidBody.t) :
  Binary64.Collision.Body_A c = Some a ->
  Binary64.Collision.Body_B c = Some b -> a <> b ->
  s !! a = Some bA -> s !! b = Some bB ->
  exists J_contact s' bA' bB',
    (if Binary64.Collision.Friction c =? 0
     then Binary64.Collision.GetImpulse s c
     else Binary64.Collision.GetImpulse_IncludeFriction s c) = Ok J_contact /\
    let J := Binary64.QTensor.apply (Binary64.Collision.ToWorld c) J_contact in
    let tA := Binary64.Quaternion.Cross
                (Binary64.Collision.RelativePosition c 0) J in
    let tB := Binary64.Quaternion.Cross
                (Binary64.Collision.RelativePosition c 1) J in
    Binary64.Collision.ImpulseTransfer s c V_jolt W_jolt
    = Ok (s',
          (Binary64.Quaternion.lscale (Binary64.RigidBody.InverseMass bA) J,
           Binary64.Quaternion.neg
             (Binary64.Quaternion.lscale
                (Binary64.RigidBody.InverseMass bB) J)),
          (Binary64.QTensor.apply
             (Binary64.RigidBody.InverseInertiaWorld bA) tA,
           Binary64.Quaternion.neg
             (Binary64.QTensor.apply
                (Binary64.RigidBody.InverseInertiaWorld bB) tB))) /\
    s' !! a = Some bA' /\ s' !! b = Some bB' /\
    length s' = length s /\
    (forall i, i <> a -> i <> b -> s' !! i = s !! i) /\
    Binary64.RigidBody.AngularMomentum bA'
    = Binary64.Quaternion.add (Binary64.RigidBody.AngularMomentum bA) tA /\
    Binary64.RigidBody.AngularMomentum bB'
    = Binary64.Quaternion.sub (Binary64.RigidBody.AngularMomentum bB) tB /\
    Binary64.RigidBody.Position bA' = Binary64.RigidBody.Position bA /\
    Binary64.RigidBody.Position bB' = Binary64.RigidBody.Position bB /\
    Binary64.RigidBody.Velocity bA' = Binary64.RigidBody.Velocity bA /\
    Binary64.RigidBody.Velocity bB' = Binary64.RigidBody.Velocity bB /\
    Binary64.RigidBody.AngularVelocity bA'
    = Binary64.RigidBody.AngularVelocity bA /\
    Binary64.RigidBody.AngularVelocity bB'
    = Binary64.RigidBody.AngularVelocity bB.
Proof.
  intros HA HB Hne Ha Hb.
  destruct (Binary64_GetImpulse_total s c a b bA bB HA HB Ha Hb)
    as [J_contact HJ].
  destruct (Binary64_ImpulseTransfer_eq s c V_jolt W_jolt a b bA bB J_contact
              HA HB Hne Ha Hb HJ) as (Hrun & HA' & HB').
  cbv zeta in Hrun, HA', HB'.
  exists J_contact. do 3 eexists. split; [exact HJ |]. cbv zeta.
  split; [exact Hrun |]. split; [exact HA' |]. split; [exact HB' |].
  split; [now rewrite !length_insert |].
  split.
  { intros i Hia Hib. now rewrite !list_lookup_insert_ne by congruence. }
  destruct bA, bB. repeat split; reflexivity.
Qed.

Lemma ImpulseTransfer_angular_momentum_witness :
  exists s' V' W' bA' bB',
    Binary64.Collision.ImpulseTransfer Binary64.Examples.moving_and_resting
      (Binary64.Examples.contact_of_two 0.2)
      (Binary64.Quaternion.zero, Binary64.Quaternion.zero)
      (Binary64.Quaternion.zero, Binary64.Quaternion.zero)
    = Ok (s', V', W') /\
    s' !! 0%nat = Some bA' /\ s' !! 1%nat = Some bB' /\
    length s' = 2%nat /\
    Binary64.RigidBody.Position bA' = Binary64.Quaternion.zero /\
    Binary64.RigidBody.Position bB' = Binary64.Quaternion.zero.
Proof.
  destruct (ImpulseTransfer_angular_momentum
              Binary64.Examples.moving_and_resting
              (Binary64.Examples.contact_of_two 0.2)
              (Binary64.Quaternion.zero, Binary64.Quaternion.zero)
              (Binary64.Quaternion.zero, Binary64.Quaternion.zero)
              0 1
              (Binary64.Examples.body_at Binary64.Quaternion.zero
                 (Binary64.Quaternion.mk 0 0.9 0 0))
              (Binary64.Examples.body_at Binary64.Quaternion.zero
                 Binary64.Quaternion.zero)
              eq_refl eq_refl)
    as (J_contact & s' & bA' & bB' & _ & Hrun & Ha & Hb & Hlen & _ & _ & _
        & HXa & HXb & _).
  - lia.
  - reflexivity.
  - reflexivity.
  - exists s'. do 2 eexists. exists bA', bB'.
    split; [exact Hrun |]. split; [exact Ha |]. split; [exact Hb |].
    split; [exact Hlen |]. split; [exact HXa | exact HXb].
Defined.

End Binary64_jolts.

(** ** Collision.h: the derived quantities of a contact *)

Lemma GetBouncingVelocity_total (s : Bodies) (c : Collision.t) (h : R)
    (a : nat) (bA : RigidBody.t) :
  Collision.Body_A c = Some a -> s !! a = Some bA ->
  (forall b, Collision.Body_B c = Some b -> is_Some (s !! b)) ->
  exists v, Collision.GetBouncingVelocity s c h = Ok v.
Proof.
  intros HA Ha HB. unfold Collision.GetBouncingVelocity. cbv zeta.
  rewrite HA, (load_Some _ _ _ Ha), bind_of_Ok.
  destruct (Collision.Body_B c) as [b |] eqn:E.
  - destruct (HB b eq_refl) as [bB Hb].
    rewrite (load_Some _ _ _ Hb), bind_of_Ok.
    destruct (RigidBody.IsActive bB); rewrite bind_of_Ok; eauto.
  - rewrite bind_of_Ok. eauto.
Qed.

(** The update of a contact whose body A is not null. *)
Lemma Update_of_ordered (s : Bodies) (h : R) (c : Collision.t) (a : nat)
    (bA : RigidBody.t) :
  let N := Collision.Normal c in
  Quaternion.x N <> 0 \/ Quaternion.y N <> 0 \/ Quaternion.z N <> 0 ->
  Collision.Body_A c = Some a -> s !! a = Some bA ->
  (forall b, Collision.Body_B c = Some b -> is_Some (s !! b)) ->
  exists c' tY tZ,
    Collision.UpdateDerivedQuantities s h c = Ok c' /\
    Collision.Body_A c' = Some a /\
    Collision.Body_B c' = Collision.Body_B c /\
    Collision.Normal c' = N /\
    Collision.Position c' = Collision.Position c /\
    Collision.Penetration c' = Collision.Penetration c /\
    Collision.ToWorld c' = QTensor.SetColumnVectors N tY tZ /\
    Collision.RelativePosition c' 0
    = Quaternion.sub (Collision.Position c) (RigidBody.Position bA) /\
    (forall b bB, Collision.Body_B c = Some b -> s !! b = Some bB ->
       Collision.RelativePosition c' 1
       = Quaternion.sub (Collision.Position c) (RigidBody.Position bB)).
Proof.
  intros N HN HA Ha HB. unfold Collision.UpdateDerivedQuantities.
  rewrite HA. cbv zeta.
  destruct (Basis_of_normal c HN) as (tY & tZ & -> & _).
  rewrite bind_of_Ok. fold N. members.
  rewrite HA, (load_Some _ _ _ Ha), bind_of_Ok. members.
  destruct (Collision.Body_B c) as [b |] eqn:E.
  - destruct (HB b eq_refl) as [bB Hb].
    rewrite (load_Some _ _ _ Hb), !bind_of_Ok. members.
    match goal with
    | |- context [Collision.GetBouncingVelocity s ?c1 h] =>
        destruct (GetBouncingVelocity_total s c1 h a bA) as (v & ->);
          [exact HA | exact Ha | |]
    end.
    + members. intros b0 Hb0. rewrite E in Hb0. injection Hb0 as <-. eauto.
    + rewrite bind_of_Ok. eexists. exists tY, tZ.
      split; [reflexivity |]. members.
      repeat split; try assumption; try reflexivity.
      intros b0 bB0 [= <-] Hb0. rewrite Hb in Hb0. now injection Hb0 as <-.
  - rewrite !bind_of_Ok.
    match goal with
    | |- context [Collision.GetBouncingVelocity s ?c1 h] =>
        destruct (GetBouncingVelocity_total s c1 h a bA) as (v & ->);
          [exact HA | exact Ha | |]
    end.
    + members. intros b0 Hb0. rewrite E in Hb0. discriminate.
    + rewrite bind_of_Ok. eexists. exists tY, tZ.
      split; [reflexivity |]. members.
      repeat split; try assumption; try reflexivity.
      intros b0 bB0 Hb0. discriminate.
Qed.

(** X23: [UpdateDerivedQuantities] of a contact returns when the normal has a
    spatial part and the bodies of the contact exist.  A contact whose body A
    is null is reversed first: its body B becomes the body A, the other side
    becomes the scenery, and the normal is negated.  The position and the
    penetration are kept, the first column of [ToWorld] is the normal, and the
    relative positions are those of the contact point from the positions of
    the bodies. *)
Theorem UpdateDerivedQuantities_contact (s : Bodies) (h : R)
    (c : Collision.t) (a : nat) (bA : RigidBody.t) :
  let N := Collision.Normal c in
  Quaternion.x N <> 0 \/ Quaternion.y N <> 0 \/ Quaternion.z N <> 0 ->
  s !! a = Some bA ->
  (Collision.Body_A c = Some a ->
   (forall b, Collision.Body_B c = Some b -> is_Some (s !! b)) ->
   exists c' tY tZ,
     Collision.UpdateDerivedQuantities s h c = Ok c' /\
     Collision.Body_A c' = Some a /\
     Collision.Body_B c' = Collision.Body_B c /\
     Collision.Normal c' = N /\
     Collision.Position c' = Collision.Position c /\
     Collision.Penetration c' = Collision.Penetration c /\
     Collision.ToWorld c' = QTensor.SetColumnVectors N tY tZ /\
     Collision.RelativePosition c' 0
     = Quaternion.sub (Collision.Position c) (RigidBody.Position bA) /\
     (forall b bB, Collision.Body_B c = Some b -> s !! b = Some bB ->
        Collision.RelativePosition c' 1
        = Quaternion.sub (Collision.Position c) (RigidBody.Position bB))) /\
  (Collision.Body_A c = None -> Collision.Body_B c = Some a ->
   exists c' tY tZ,
     Collision.UpdateDerivedQuantities s h c = Ok c' /\
     Collision.Body_A c' = Some a /\
     Collision.Body_B c' = None /\
     Collision.Normal c' = Quaternion.neg N /\
     Collision.Position c' = Collision.Position c /\
     Collision.Penetration c' = Collision.Penetration c /\
     Collision.ToWorld c'
     = QTensor.SetColumnVectors (Quaternion.neg N) tY tZ /\
     Collision.RelativePosition c' 0
     = Quaternion.sub (Collision.Position c) (RigidBody.Position bA)).
Proof.
  intros N HN Ha. split.
  - intros HA HB. exact (Update_of_ordered s h c a bA HN HA Ha HB).
  - intros HA HB.
    set (c1 := Collision.set_Body_B None
                 (Collision.set_Body_A (Some a)
                    (Collision.set_Normal (Quaternion.neg N) c))).
    assert (Collision.UpdateDerivedQuantities s h c
            = Collision.UpdateDerivedQuantities s h c1) as ->.
    { unfold Collision.UpdateDerivedQuantities. rewrite HA. cbv zeta.
      subst c1. members. rewrite HA, HB. reflexivity. }
    destruct (Update_of_ordered s h c1 a bA)
      as (c' & tY & tZ & Hrun & HA' & HB' & HN' & HX & HP & HT & HR & _).
    + subst c1 N. destruct (Collision.Normal c) as [Nw Nx Ny Nz].
      members. unfold Quaternion.neg. members.
      cbn [Quaternion.w Quaternion.x Quaternion.y Quaternion.z] in HN.
      destruct HN as [H | [H | H]]; [left | right; left | right; right]; lra.
    + reflexivity.
    + exact Ha.
    + intros b Hb. discriminate.
    + exists c', tY, tZ. split; [exact Hrun |].
      repeat split; assumption.
Qed.

Lemma UpdateDerivedQuantities_contact_witness :
  exists c',
    Collision.UpdateDerivedQuantities Examples.two_bodies 1
      Examples.contact_of_two = Ok c' /\
    Collision.Normal c' = Const.X /\
    Collision.RelativePosition c' 0
    = Quaternion.sub Quaternion.zero Quaternion.zero.
Proof.
  destruct (UpdateDerivedQuantities_contact Examples.two_bodies 1
              Examples.contact_of_two 0 Examples.unit_body)
    as [Hordered _].
  - left. cbn. lra.
  - reflexivity.
  - destruct Hordered as (c' & tY & tZ & Hrun & _ & _ & HN & _ & _ & _ & HR & _).
    + reflexivity.
    + intros b Hb. injection Hb as <-. eexists. reflexivity.
    + exists c'. split; [exact Hrun |]. split; [exact HN | exact HR].
Defined.

(** ** CollisionDetection.cpp: spheres *)

Section Binary64_spheres.

Import PrimFloat.
#[local] Open Scope float_scope.
#[local] Set Warnings "-inexact-float".

(** X24: Two spheres: with [distance] the distance of the centres as the
    detector computes it, the detector registers nothing and returns 0 when
    the sum of the radii is at most [distance]; otherwise, given space in the
    registry, it registers one contact between the two bodies, half way
    along the displacement from the centre of [B], with the displacement
    times [1.0 / distance] as the normal and the sum of the radii less
    [distance] as the penetration, and returns 1. *)
Theorem Sphere_Check_Sphere_overlap (s : Binary64.Bodies)
    (owner : Binary64.CollisionResolver.t) (this B : Binary64.Geometry.t)
    (X_A X_B : Binary64.Quaternion.t) :
  Binary64.registry_ok owner ->
  Binary64.Geometry.Position s this = Ok X_A ->
  Binary64.Geometry.Position s B = Ok X_B ->
  let displacement := Binary64.Quaternion.sub X_A X_B in
  let distance := Binary64.Quaternion.ImNorm displacement in
  let radii := Binary64.Geometry.Radius this + Binary64.Geometry.Radius B in
  ((radii <=? distance) = true ->
     Binary64.Geometry.Sphere_Check_Sphere s owner this B
     = Ok (owner, 0%Z)) /\
  ((radii <=? distance) = false ->
   Binary64.CollisionResolver.HasSpaceForMoreContacts owner = true ->
     exists slot,
       Binary64.CollisionResolver.Collisions owner
         !! Z.to_nat (Binary64.CollisionResolver.Count owner) = Some slot /\
       let c :=
         Binary64.contact_in owner slot (Binary64.Geometry.Body this)
           (Binary64.Geometry.Body B)
           (Binary64.Quaternion.add X_B
              (Binary64.Quaternion.scale displacement 0.5))
           (Binary64.Quaternion.scale displacement (1.0 / distance))
           (radii - distance) in
       Binary64.Geometry.Sphere_Check_Sphere s owner this B
       = Ok (Binary64.appended owner c, 1%Z) /\
       Binary64.CollisionResolver.Collisions (Binary64.appended owner c)
         !! Z.to_nat (Binary64.CollisionResolver.Count owner) = Some c /\
       Binary64.CollisionResolver.Count (Binary64.appended owner c)
       = (Binary64.CollisionResolver.Count owner + 1)%Z).
Proof.
  intros Hok HA HB displacement distance radii.
  unfold Binary64.Geometry.Sphere_Check_Sphere. split.
  - intros Hd.
    destruct (Binary64.CollisionResolver.HasSpaceForMoreContacts owner);
      [| reflexivity].
    cbn [negb]. rewrite HA, HB. cbn [mbind Outcome_bind].
    fold displacement distance radii. now rewrite Hd.
  - intros Hd Hspace. rewrite Hspace. cbn [negb].
    rewrite HA, HB. cbn [mbind Outcome_bind].
    fold displacement distance radii. rewrite Hd.
    destruct (Binary64_register_space owner (Binary64.Geometry.Body this)
                (Binary64.Geometry.Body B)
                (Binary64.Quaternion.add X_B
                   (Binary64.Quaternion.scale displacement 0.5))
                (Binary64.Quaternion.scale displacement (1.0 / distance))
                (radii - distance) Hok Hspace)
      as (slot & Hslot & Hreg & Hc & Hcount & _).
    exists slot. split; [exact Hslot |]. cbv zeta.
    split; [exact Hreg |]. split; [exact Hc | exact Hcount].
Qed.

Lemma Sphere_Check_Sphere_overlap_witness :
  exists slot,
    let c :=
      Binary64.contact_in Binary64.Examples.registry_of_one slot
        (Some 0%nat) (Some 1%nat)
        (Binary64.Quaternion.mk 1 0.15 0 0) (Binary64.Quaternion.mk 0 1 0 0)
        5.551115123125783e-17 in
    Binary64.Geometry.Sphere_Check_Sphere Binary64.Examples.two_balls
      Binary64.Examples.registry_of_one (Binary64.Examples.sphere 0 0.1)
      (Binary64.Examples.sphere 1 0.2)
    = Ok (Binary64.appended Binary64.Examples.registry_of_one c, 1%Z).
Proof.
  assert (Binary64.registry_ok Binary64.Examples.registry_of_one) as Hok.
  { unfold Binary64.registry_ok, Binary64.parcel_ok, unsigned_modulus.
    cbn. lia. }
  destruct (Sphere_Check_Sphere_overlap Binary64.Examples.two_balls
              Binary64.Examples.registry_of_one
              (Binary64.Examples.sphere 0 0.1)
              (Binary64.Examples.sphere 1 0.2)
              (Binary64.Quaternion.mk 1 0.3 0 0)
              (Binary64.Quaternion.mk 1 0 0 0) Hok eq_refl eq_refl) as [_ H].
  destruct H as (slot & _ & Hrun & _).
  - vm_compute. reflexivity.
  - reflexivity.
  - exists slot. cbv zeta in Hrun |- *. rewrite Hrun.
    vm_compute. reflexivity.
Defined.

(** X25: A sphere and a true plane: with [d] the distance of the centre from
    the plane as the detector computes it, the detector registers nothing
    and returns 0 when [d * d] is above the square of the radius; otherwise,
    given space in the registry, it registers one contact with the scenery,
    at the centre less [d] times the direction of the plane, with that
    direction as the normal and the penetration [- d + Radius], or, where
    [d < 0], with the opposite direction and the penetration
    [- ( - d ) + Radius], and returns 1. *)
Theorem Sphere_Check_TruePlane_contact (s : Binary64.Bodies)
    (owner : Binary64.CollisionResolver.t)
    (this plane : Binary64.Geometry.t) (X_s : Binary64.Quaternion.t) :
  Binary64.registry_ok owner ->
  Binary64.Geometry.Position s this = Ok X_s ->
  let n := Binary64.Geometry.Direction plane in
  let r := Binary64.Geometry.Radius this in
  let d := Binary64.Quaternion.Dot n X_s - Binary64.Geometry.Offset plane in
  ((r * r <? d * d) = true ->
     Binary64.Geometry.Sphere_Check_TruePlane s owner this plane
     = Ok (owner, 0%Z)) /\
  ((r * r <? d * d) = false ->
   Binary64.CollisionResolver.HasSpaceForMoreContacts owner = true ->
     exists slot,
       Binary64.CollisionResolver.Collisions owner
         !! Z.to_nat (Binary64.CollisionResolver.Count owner) = Some slot /\
       let c :=
         Binary64.contact_in owner slot (Binary64.Geometry.Body this) None
           (Binary64.Quaternion.sub X_s (Binary64.Quaternion.scale n d))
           (if d <? 0 then Binary64.Quaternion.neg n else n)
           ((if d <? 0 then - - d else - d) + r) in
       Binary64.Geometry.Sphere_Check_TruePlane s owner this plane
       = Ok (Binary64.appended owner c, 1%Z) /\
       Binary64.CollisionResolver.Collisions (Binary64.appended owner c)
         !! Z.to_nat (Binary64.CollisionResolver.Count owner) = Some c /\
       Binary64.CollisionResolver.Count (Binary64.appended owner c)
       = (Binary64.CollisionResolver.Count owner + 1)%Z).
Proof.
  intros Hok HX n r d.
  unfold Binary64.Geometry.Sphere_Check_TruePlane. split.
  - intros Hd.
    destruct (Binary64.CollisionResolver.HasSpaceForMoreContacts owner);
      [| reflexivity].
    cbn [negb]. rewrite HX. cbn [mbind Outcome_bind].
    fold n r d. now rewrite Hd.
  - intros Hd Hspace. rewrite Hspace. cbn [negb].
    rewrite HX. cbn [mbind Outcome_bind]. fold n r d. rewrite Hd.
    destruct (Binary64_register_space owner (Binary64.Geometry.Body this)
                None
                (Binary64.Quaternion.sub X_s (Binary64.Quaternion.scale n d))
                (if d <? 0 then Binary64.Quaternion.neg n else n)
                ((if d <? 0 then - - d else - d) + r) Hok Hspace)
      as (slot & Hslot & Hreg & Hc & Hcount & _).
    exists slot. split; [exact Hslot |]. cbv zeta.
    split; [| split; [exact Hc | exact Hcount]].
    rewrite <- Hreg. destruct (d <? 0); reflexivity.
Qed.

Lemma Sphere_Check_TruePlane_contact_witness :
  exists slot,
    let c :=
      Binary64.contact_in Binary64.Examples.registry_of_one slot
        (Some 0%nat) None
        (Binary64.Quaternion.mk 1 0 1.1 0)
        (Binary64.Quaternion.neg (Binary64.Quaternion.mk 0 0 1 0))
        0 in
    Binary64.Geometry.Sphere_Check_TruePlane
      Binary64.Examples.ball_under_the_plane
      Binary64.Examples.registry_of_one (Binary64.Examples.sphere 0 1)
      (Binary64.Examples.true_plane 1.1)
    = Ok (Binary64.appended Binary64.Examples.registry_of_one c, 1%Z).
Proof.
  assert (Binary64.registry_ok Binary64.Examples.registry_of_one) as Hok.
  { unfold Binary64.registry_ok, Binary64.parcel_ok, unsigned_modulus.
    cbn. lia. }
  destruct (Sphere_Check_TruePlane_contact
              Binary64.Examples.ball_under_the_plane
              Binary64.Examples.registry_of_one
              (Binary64.Examples.sphere 0 1)
              (Binary64.Examples.true_plane 1.1)
              (Binary64.Quaternion.mk 1 0 0.1 0) Hok eq_refl) as [_ H].
  destruct H as (slot & _ & Hrun & _).
  - vm_compute. reflexivity.
  - reflexivity.
  - exists slot. cbv zeta in Hrun |- *. rewrite Hrun.
    vm_compute. reflexivity.
Defined.

End Binary64_spheres.

(** ** WoRB.h: the objects of the world *)

(** X26: [Add] on a world that has room left returns: the object is the one
    with the index of the old [ObjectCount], the objects that were there are
    kept, the count has gone up by one, and the world is well formed as
    before. *)
Theorem Add_within_capacity (w : WorldOfRigidBodies.t) (g : Geometry.t) :
  world_ok w ->
  (WorldOfRigidBodies.ObjectCount w < WorldOfRigidBodies.MaxObjects w)%Z ->
  exists w',
    WorldOfRigidBodies.Add w g = Ok w' /\
    WorldOfRigidBodies.ObjectCount w'
    = (WorldOfRigidBodies.ObjectCount w + 1)%Z /\
    WorldOfRigidBodies.object w'
      (Z.to_nat (WorldOfRigidBodies.ObjectCount w)) = Ok g /\
    (forall i, i <> Z.to_nat (WorldOfRigidBodies.ObjectCount w) ->
       WorldOfRigidBodies.object w' i = WorldOfRigidBodies.object w i) /\
    world_ok w'.
Proof.
  intros (Hmax & Hlen & Hcount) Hroom. unfold WorldOfRigidBodies.Add.
  destruct (lookup_lt_is_Some_2 (WorldOfRigidBodies.Object w)
              (Z.to_nat (WorldOfRigidBodies.ObjectCount w)))
    as [g0 Hg0]; [lia |].
  rewrite Hg0. eexists. split; [reflexivity |].
  assert (unsigned_of (WorldOfRigidBodies.ObjectCount w + 1)
          = (WorldOfRigidBodies.ObjectCount w + 1)%Z) as Hnext
    by (apply unsigned_of_small; lia).
  unfold WorldOfRigidBodies.object, world_ok.
  cbn [WorldOfRigidBodies.ObjectCount WorldOfRigidBodies.Object
       WorldOfRigidBodies.MaxObjects].
  rewrite Hnext. split; [reflexivity |]. split; [| split].
  - rewrite list_lookup_insert_eq; [reflexivity | lia].
  - intros i Hi. now rewrite list_lookup_insert_ne by congruence.
  - rewrite length_insert. repeat split; lia.
Qed.

Lemma Add_within_capacity_witness :
  exists w',
    WorldOfRigidBodies.Add
      (WorldOfRigidBodies.RemoveObjects Examples.full_world)
      Examples.ground = Ok w' /\
    WorldOfRigidBodies.object w' 0 = Ok Examples.ground.
Proof.
  destruct (Add_within_capacity
              (WorldOfRigidBodies.RemoveObjects Examples.full_world)
              Examples.ground) as (w' & Hrun & _ & Hobj & _).
  - unfold world_ok, unsigned_modulus. cbn. lia.
  - cbn. lia.
  - exists w'. split; [exact Hrun | exact Hobj].
Defined.

(** ** WoRB.h: a time step of the world *)

(** A loop over the bodies of the world whose visits store a body with the
    property [Q]: the number of the bodies is kept, each body is left as
    it was or has the property, and the bodies of the objects with the
    indices [l] have it. *)
Lemma visiting_loop (w : WorldOfRigidBodies.t)
    (visit : BodyPtr -> Bodies -> Outcome Bodies) (Q : RigidBody.t -> Prop) :
  (forall p s s1, visit p s = Ok s1 ->
     exists k b', p = Some k /\ (k < length s)%nat /\ Q b' /\
       s1 = <[k := b']> s) ->
  forall l s s',
    for_each l
      (fun i st =>
         g ← WorldOfRigidBodies.object w i;
         match Geometry.Body g with
         | None => Ok st
         | Some _ => visit (Geometry.Body g) st
         end) s = Ok s' ->
    length s' = length s /\
    (forall k b', s' !! k = Some b' -> Q b' \/ s !! k = Some b') /\
    (forall i g k b', i ∈ l ->
       WorldOfRigidBodies.Object w !! i = Some g ->
       Geometry.Body g = Some k -> s' !! k = Some b' -> Q b').
Proof.
  intros Hvisit. induction l as [| i rest IH]; intros s s'; cbn [for_each].
  - intros [= <-]. split; [reflexivity |]. split; [eauto |].
    intros i g k b' Hi. inversion Hi.
  - intros H. apply bind_Ok in H as (s1 & Hs1 & H).
    destruct (IH _ _ H) as (Hlen & Hkeep & Hdone). clear IH H.
    apply bind_Ok in Hs1 as (g0 & Hg0 & Hs1).
    unfold WorldOfRigidBodies.object in Hg0.
    destruct (WorldOfRigidBodies.Object w !! i) as [g1 |] eqn:Hobj;
      [| discriminate].
    injection Hg0 as ->.
    destruct (Geometry.Body g0) as [k0 |] eqn:Hbody.
    + apply Hvisit in Hs1 as (k1 & b0 & [= <-] & Hk0 & HQ & ->).
      rewrite length_insert in Hlen. split; [exact Hlen |].
      assert (forall k b', s' !! k = Some b' -> Q b' \/ s !! k = Some b')
        as Hkeep'.
      { intros k b' Hk. destruct (Hkeep k b' Hk) as [Hb' | Hb']; [now left |].
        destruct (decide (k = k0)) as [-> | Hne].
        - rewrite list_lookup_insert_eq in Hb' by exact Hk0.
          injection Hb' as <-. now left.
        - rewrite list_lookup_insert_ne in Hb' by congruence. now right. }
      split; [exact Hkeep' |].
      intros i' g k b' Hi Hg Hk Hb'. apply elem_of_cons in Hi as [-> | Hi].
      * rewrite Hobj in Hg. injection Hg as <-.
        rewrite Hbody in Hk. injection Hk as <-.
        destruct (Hkeep k0 b' Hb') as [Hb1 | Hb1]; [exact Hb1 |].
        rewrite list_lookup_insert_eq in Hb1 by exact Hk0.
        now injection Hb1 as <-.
      * exact (Hdone i' g k b' Hi Hg Hk Hb').
    + injection Hs1 as <-. split; [exact Hlen |]. split; [exact Hkeep |].
      intros i' g k b' Hi Hg Hk Hb'. apply elem_of_cons in Hi as [-> | Hi].
      * rewrite Hobj in Hg. injection Hg as <-. congruence.
      * exact (Hdone i' g k b' Hi Hg Hk Hb').
Qed.

Lemma sum_totals_Ok (s : Bodies) (w w' : WorldOfRigidBodies.t) :
  WorldOfRigidBodies.sum_totals s w = Ok w' ->
  exists Ek Ep P L, w' = WorldOfRigidBodies.set_totals Ek Ep P L w.
Proof.
  unfold WorldOfRigidBodies.sum_totals. intros H.
  apply bind_Ok in H as ([[[Ek Ep] P] L] & _ & H). injection H as <-. eauto.
Qed.

(** X27: A time step of the world that is carried out counts one step more and
    sets the time to [h] times the count; it leaves the objects, their number
    and the gravity as they are; and it leaves no force, no torque and no
    potential energy on the bodies of the objects of the world. *)
Theorem World_SolveODE_step (s s' : Bodies) (w w' : WorldOfRigidBodies.t)
    (h : R) :
  WorldOfRigidBodies.SolveODE s w h = Ok (s', w') ->
  WorldOfRigidBodies.TimeStepCount w'
  = ((WorldOfRigidBodies.TimeStepCount w + 1)
     mod WorldOfRigidBodies.unsigned_long_modulus)%Z /\
  WorldOfRigidBodies.Time w'
  = h * IZR (WorldOfRigidBodies.TimeStepCount w') /\
  WorldOfRigidBodies.ObjectCount w' = WorldOfRigidBodies.ObjectCount w /\
  WorldOfRigidBodies.Object w' = WorldOfRigidBodies.Object w /\
  WorldOfRigidBodies.Gravity w' = WorldOfRigidBodies.Gravity w /\
  (forall i g k b,
     (i < Z.to_nat (WorldOfRigidBodies.ObjectCount w))%nat ->
     WorldOfRigidBodies.Object w !! i = Some g ->
     Geometry.Body g = Some k -> s' !! k = Some b ->
     RigidBody.Force b = Quaternion.zero /\
     RigidBody.Torque b = Quaternion.zero /\
     RigidBody.PotentialEnergy b = 0).
Proof.
  intros Hrun.
  unfold WorldOfRigidBodies.SolveODE in Hrun.
  apply bind_Ok in Hrun as (s1 & _ & H).
  apply bind_Ok in H as (s2 & _ & H). cbv zeta in H.
  apply bind_Ok in H as (w1 & Hw1 & H).
  apply sum_totals_Ok in Hw1 as (Ek & Ep & P & L & ->).
  apply bind_Ok in H as (owner1 & _ & H).
  apply bind_Ok in H as (owner2 & _ & H).
  apply bind_Ok in H as ([s3 owner3] & _ & H).
  apply bind_Ok in H as ([s4 owner4] & _ & H).
  apply bind_Ok in H as (s5 & Hclear & H). injection H as <- <-.
  cbn [WorldOfRigidBodies.TimeStepCount WorldOfRigidBodies.Time
       WorldOfRigidBodies.ObjectCount WorldOfRigidBodies.Object
       WorldOfRigidBodies.Gravity WorldOfRigidBodies.set_Collisions
       WorldOfRigidBodies.set_totals WorldOfRigidBodies.set_clock].
  repeat (split; [reflexivity |]).
  intros i g k b Hi Hg Hk Hb.
  unfold WorldOfRigidBodies.for_each_body in Hclear.
  apply (visiting_loop _
           (fun body s =>
              b ← load s body;
              store s body (RigidBody.ClearAccumulators b))
           (fun b => RigidBody.Force b = Quaternion.zero /\
                     RigidBody.Torque b = Quaternion.zero /\
                     RigidBody.PotentialEnergy b = 0))
    in Hclear as (_ & _ & Hcleared).
  - cbn [WorldOfRigidBodies.ObjectCount WorldOfRigidBodies.Object
         WorldOfRigidBodies.set_Collisions WorldOfRigidBodies.set_totals
         WorldOfRigidBodies.set_clock] in Hcleared.
    apply (Hcleared i g k b); try assumption. apply elem_of_seq. lia.
  - intros p s0 s0' Hvisit. apply bind_Ok in Hvisit as (b0 & Hb0 & Hvisit).
    apply load_Ok in Hb0 as (k0 & -> & Hb0).
    rewrite (store_Some _ _ _ _ Hb0) in Hvisit. injection Hvisit as <-.
    exists k0. eexists. split; [reflexivity |].
    split; [eapply lookup_lt_Some; eauto |]. split; [| reflexivity].
    destruct b0. repeat split; reflexivity.
Qed.

(** *** A step of the world of one ball *)

Lemma for_each_body_one {St : Type} (w : WorldOfRigidBodies.t)
    (visit : BodyPtr -> St -> Outcome St) (st : St) :
  WorldOfRigidBodies.ObjectCount w = 1%Z ->
  WorldOfRigidBodies.Object w = [Examples.unit_sphere 0] ->
  WorldOfRigidBodies.for_each_body w visit st = visit (Some 0%nat) st.
Proof.
  intros Hn Ho. unfold WorldOfRigidBodies.for_each_body.
  unfold WorldOfRigidBodies.object. rewrite Hn, Ho.
  change (Z.to_nat 1) with 1%nat. cbn [seq for_each lookup list_lookup].
  cbn [mbind Outcome_bind Examples.unit_sphere Geometry.Body].
  destruct (visit (Some 0%nat) st); reflexivity.
Qed.

Lemma lone_ball_A :
  Examples.lone_ball !! 0%nat
  = Some (Examples.immovable_ball Examples.centre_A).
Proof. reflexivity. Qed.

Lemma SolveODE_lone_ball (h : R) :
  exists w',
    WorldOfRigidBodies.SolveODE Examples.lone_ball Examples.world_of_one h
    = Ok (Examples.lone_ball, w').
Proof.
  eexists. unfold WorldOfRigidBodies.SolveODE.
  rewrite (for_each_body_one Examples.world_of_one _ _ eq_refl eq_refl).
  rewrite (load_Some _ _ _ lone_ball_A), bind_of_Ok.
  rewrite Mass_immovable_ball, bind_of_Ok. cbv zeta.
  change (WorldOfRigidBodies.Gravity Examples.world_of_one)
    with (Quaternion.of_scalar 0.0).
  rewrite AddExternalForce_immovable_ball.
  rewrite (store_same _ _ _ lone_ball_A), bind_of_Ok.
  rewrite (for_each_body_one Examples.world_of_one _ _ eq_refl eq_refl).
  rewrite (load_Some _ _ _ lone_ball_A), bind_of_Ok.
  rewrite SolveODE_immovable_ball, bind_of_Ok.
  rewrite (store_same _ _ _ lone_ball_A), bind_of_Ok.
  unfold WorldOfRigidBodies.sum_totals at 1.
  rewrite (for_each_body_one
             (WorldOfRigidBodies.set_clock _ _ Examples.world_of_one)
             _ _ eq_refl eq_refl).
  unfold WorldOfRigidBodies.add_totals.
  rewrite (load_Some _ _ _ lone_ball_A), !bind_of_Ok.
  unfold WorldOfRigidBodies.DetectAll.
  cbn [WorldOfRigidBodies.ObjectCount WorldOfRigidBodies.set_totals
       WorldOfRigidBodies.set_clock Examples.world_of_one].
  change (Z.to_nat 1) with 1%nat.
  cbn [seq for_each Nat.add Nat.sub]. rewrite !bind_of_Ok.
  unfold CollisionResolver.UpdateDerivedQuantities,
    CollisionResolver.each_collision.
  cbn [CollisionResolver.CollisionCount CollisionResolver.Initialize
       WorldOfRigidBodies.Collisions].
  change (Z.to_nat 0) with 0%nat. cbn [seq for_each]. rewrite bind_of_Ok.
  unfold CollisionResolver.ImpulseTransfers.
  cbn [CollisionResolver.CollisionCount CollisionResolver.Initialize].
  destruct (decide (0 = 0)%Z) as [_ | Hne]; [| lia].
  cbn [snd]. rewrite bind_of_Ok.
  unfold CollisionResolver.PositionProjections.
  cbn [CollisionResolver.CollisionCount CollisionResolver.Initialize].
  destruct (decide (0 = 0)%Z) as [_ | Hne]; [| lia].
  cbn [snd]. rewrite bind_of_Ok.
  rewrite (for_each_body_one
             (WorldOfRigidBodies.set_Collisions _
                (WorldOfRigidBodies.set_totals _ _ _ _
                   (WorldOfRigidBodies.set_clock _ _ Examples.world_of_one)))
             _ _ eq_refl eq_refl).
  rewrite (load_Some _ _ _ lone_ball_A), bind_of_Ok.
  replace (RigidBody.ClearAccumulators
             (Examples.immovable_ball Examples.centre_A))
    with (Examples.immovable_ball Examples.centre_A) by reflexivity.
  rewrite (store_same _ _ _ lone_ball_A), bind_of_Ok.
  reflexivity.
Qed.

Lemma World_SolveODE_step_witness :
  exists w',
    WorldOfRigidBodies.SolveODE Examples.lone_ball Examples.world_of_one 1
    = Ok (Examples.lone_ball, w') /\
    WorldOfRigidBodies.TimeStepCount w' = 1%Z /\
    WorldOfRigidBodies.Time w' = 1 * IZR 1.
Proof.
  destruct (SolveODE_lone_ball 1) as (w' & Hrun).
  exists w'. split; [exact Hrun |].
  destruct (World_SolveODE_step _ _ _ _ _ Hrun) as (Hcount & Htime & _).
  split; [exact Hcount |]. rewrite Htime, Hcount. reflexivity.
Defined.

Lemma for_each_total {St : Type} (P : St -> Prop) (l : list nat)
    (body : nat -> St -> Outcome St) :
  (forall i st, i ∈ l -> P st -> exists st', body i st = Ok st' /\ P st') ->
  forall st, P st -> exists st', for_each l body st = Ok st' /\ P st'.
Proof.
  induction l as [| i rest IH]; intros Hbody st Hst; cbn [for_each].
  - eauto.
  - destruct (Hbody i st) as (st1 & -> & Hst1); [left | exact Hst |].
    rewrite bind_of_Ok. apply IH; [| exact Hst1].
    intros j st2 Hj. apply Hbody. now right.
Qed.

Lemma CalculateDerivedQuantities_total (b : RigidBody.t) :
  exists b', RigidBody.CalculateDerivedQuantities true b = Ok b'.
Proof.
  destruct (CalculateDerivedQuantities_from_momenta b) as (q & _ & _ & H).
  cbv zeta in H. eauto.
Qed.

(** X28: [InitializeODE] returns when the bodies of the objects of the world
    exist.  The clock is at 0 then and no contact is registered; the objects
    and the number of the bodies are kept; and each body of an object has no
    force, no torque and no potential energy on it. *)
Theorem InitializeODE_resets (s : Bodies) (w : WorldOfRigidBodies.t) :
  (Z.to_nat (WorldOfRigidBodies.ObjectCount w)
   <= length (WorldOfRigidBodies.Object w))%nat ->
  (forall i g k, (i < Z.to_nat (WorldOfRigidBodies.ObjectCount w))%nat ->
     WorldOfRigidBodies.Object w !! i = Some g ->
     Geometry.Body g = Some k -> (k < length s)%nat) ->
  exists s' w',
    WorldOfRigidBodies.InitializeODE s w = Ok (s', w') /\
    WorldOfRigidBodies.Time w' = 0 /\
    WorldOfRigidBodies.TimeStepCount w' = 0%Z /\
    CollisionResolver.Count (WorldOfRigidBodies.Collisions w') = 0%Z /\
    WorldOfRigidBodies.ObjectCount w' = WorldOfRigidBodies.ObjectCount w /\
    WorldOfRigidBodies.Object w' = WorldOfRigidBodies.Object w /\
    length s' = length s /\
    (forall i g k b,
       (i < Z.to_nat (WorldOfRigidBodies.ObjectCount w))%nat ->
       WorldOfRigidBodies.Object w !! i = Some g ->
       Geometry.Body g = Some k -> s' !! k = Some b ->
       RigidBody.Force b = Quaternion.zero /\
       RigidBody.Torque b = Quaternion.zero /\
       RigidBody.PotentialEnergy b = 0).
Proof.
  intros Hobjects Hbodies. unfold WorldOfRigidBodies.InitializeODE.
  cbv zeta.
  set (w0 := WorldOfRigidBodies.set_Collisions _ _).
  assert (Hpointers : forall n i (st : Bodies),
            length st = length s -> i ∈ seq 0 n ->
            (n <= Z.to_nat (WorldOfRigidBodies.ObjectCount w))%nat ->
            exists g, WorldOfRigidBodies.object w0 i = Ok g /\
              forall k, Geometry.Body g = Some k -> is_Some (st !! k)).
  { intros n i st Hlen Hi Hn. apply elem_of_seq in Hi.
    destruct (lookup_lt_is_Some_2 (WorldOfRigidBodies.Object w) i)
      as [g Hg]; [lia |].
    exists g. unfold WorldOfRigidBodies.object. subst w0.
    cbn [WorldOfRigidBodies.Object WorldOfRigidBodies.set_Collisions
         WorldOfRigidBodies.set_clock].
    rewrite Hg. split; [reflexivity |]. intros k Hk.
    apply lookup_lt_is_Some_2. rewrite Hlen.
    apply (Hbodies i g k); [lia | exact Hg | exact Hk]. }
  destruct (for_each_total (fun st : Bodies => length st = length s)
              (seq 0 (Z.to_nat (WorldOfRigidBodies.ObjectCount w0)))
              (fun i st =>
                 g ← WorldOfRigidBodies.object w0 i;
                 match Geometry.Body g with
                 | None => Ok st
                 | Some _ =>
                     (fun body s =>
                        b ← load s body;
                        b ← RigidBody.CalculateDerivedQuantities true b;
                        store s body (RigidBody.ClearAccumulators b))
                       (Geometry.Body g) st
                 end))
    with (st := s) as (s1 & Hs1 & Hlen1); [| reflexivity |].
  { intros i st Hi Hlen.
    destruct (Hpointers _ i st Hlen Hi) as (g & -> & Hk); [reflexivity |].
    rewrite bind_of_Ok. destruct (Geometry.Body g) as [k |]; [| eauto].
    destruct (Hk k eq_refl) as [b Hb]. cbv beta.
    rewrite (load_Some _ _ _ Hb), bind_of_Ok.
    destruct (CalculateDerivedQuantities_total b) as (b' & ->).
    rewrite bind_of_Ok, (store_Some _ _ _ _ Hb).
    eexists. split; [reflexivity |]. now rewrite length_insert. }
  unfold WorldOfRigidBodies.for_each_body at 1.
  cbv beta in Hs1. rewrite Hs1, bind_of_Ok.
  destruct (for_each_total (fun _ => True)
              (seq 0 (Z.to_nat (WorldOfRigidBodies.ObjectCount w0)))
              (fun i st =>
                 g ← WorldOfRigidBodies.object w0 i;
                 match Geometry.Body g with
                 | None => Ok st
                 | Some _ =>
                     WorldOfRigidBodies.add_totals s1 (Geometry.Body g) st
                 end))
    with (st := (0, 0, Quaternion.of_scalar 0, Quaternion.of_scalar 0))
    as ([[[Ek Ep] P] L] & Htot & _); [| exact I |].
  { intros i [[[Ek Ep] P] L] Hi _.
    destruct (Hpointers _ i s1 Hlen1 Hi) as (g & -> & Hk); [reflexivity |].
    rewrite bind_of_Ok. destruct (Geometry.Body g) as [k |]; [| eauto].
    destruct (Hk k eq_refl) as [b Hb].
    unfold WorldOfRigidBodies.add_totals.
    rewrite (load_Some _ _ _ Hb), bind_of_Ok. eauto. }
  unfold WorldOfRigidBodies.sum_totals, WorldOfRigidBodies.for_each_body.
  rewrite Htot, !bind_of_Ok.
  exists s1. eexists. split; [reflexivity |].
  subst w0.
  cbn [WorldOfRigidBodies.TimeStepCount WorldOfRigidBodies.Time
       WorldOfRigidBodies.ObjectCount WorldOfRigidBodies.Object
       WorldOfRigidBodies.Collisions WorldOfRigidBodies.set_Collisions
       WorldOfRigidBodies.set_totals WorldOfRigidBodies.set_clock
       CollisionResolver.Count CollisionResolver.CollisionCount
       CollisionResolver.Initialize].
  repeat (split; [reflexivity |]). split; [exact Hlen1 |].
  intros i g k b Hi Hg Hk Hb.
  apply (visiting_loop _
           (fun body s =>
              b ← load s body;
              b ← RigidBody.CalculateDerivedQuantities true b;
              store s body (RigidBody.ClearAccumulators b))
           (fun b => RigidBody.Force b = Quaternion.zero /\
                     RigidBody.Torque b = Quaternion.zero /\
                     RigidBody.PotentialEnergy b = 0))
    in Hs1 as (_ & _ & Hdone).
  - apply (Hdone i g k b); try assumption. apply elem_of_seq.
    cbn [WorldOfRigidBodies.ObjectCount WorldOfRigidBodies.set_Collisions
         WorldOfRigidBodies.set_clock]. lia.
  - intros p s0 s0' Hvisit. apply bind_Ok in Hvisit as (b0 & Hb0 & Hvisit).
    apply load_Ok in Hb0 as (k0 & -> & Hb0).
    apply bind_Ok in Hvisit as (b1 & Hb1 & Hvisit).
    rewrite (store_Some _ _ _ _ Hb0) in Hvisit. injection Hvisit as <-.
    exists k0. eexists. split; [reflexivity |].
    split; [eapply lookup_lt_Some; eauto |]. split; [| reflexivity].
    destruct b1. repeat split; reflexivity.
Qed.

Lemma InitializeODE_resets_witness :
  exists s' w',
    WorldOfRigidBodies.InitializeODE Examples.lone_ball Examples.world_of_one
    = Ok (s', w') /\
    WorldOfRigidBodies.Time w' = 0 /\ length s' = 1%nat.
Proof.
  destruct (InitializeODE_resets Examples.lone_ball Examples.world_of_one)
    as (s' & w' & Hrun & Htime & _ & _ & _ & _ & Hlen & _).
  - cbn. lia.
  - intros i g k Hi Hg Hk. cbn in Hi. assert (i = 0%nat) as -> by lia.
    cbn in Hg. injection Hg as <-. cbn in Hk. injection Hk as <-.
    cbn. lia.
  - exists s', w'. repeat split; assumption.
Defined.

(** ** Utilities.h: the creation of balls and boxes *)

Lemma SetMomentOfInertia_total (I_body : QTensor.t) (b : RigidBody.t) :
  exists inv,
    RigidBody.SetMomentOfInertia I_body b
    = Ok (RigidBody.set_InverseInertiaBody inv b).
Proof.
  unfold RigidBody.SetMomentOfInertia, QTensor.SetInverseOf,
    QTensor.div_components.
  cbv zeta. destruct (decide (QTensor.Determinant I_body = 0)); eauto.
Qed.

Lemma CalculateDerivedQuantities_as_Set_XQVW (b : RigidBody.t) :
  RigidBody.CalculateDerivedQuantities false b
  = RigidBody.Set_XQVW (RigidBody.Position b) (RigidBody.Orientation b)
      (RigidBody.Velocity b) (RigidBody.AngularVelocity b) b.
Proof. destruct b. reflexivity. Qed.

(** What a new body is after the mass and the moment of inertia were set,
    [CalculateDerivedQuantities( false )], [Set_XQVW] and [Activate]. *)
Lemma creation (X Q V W : Quaternion.t) (mass : R) (inv : QTensor.t) :
  let im := if decide (mass = 0) then 1e30
            else if decide (mass >= 1e30) then 0 else 1 / mass in
  let b2 :=
    RigidBody.set_InverseInertiaBody inv
      (RigidBody.set_KineticEnergyThreshold (0.3 * mass)
         (RigidBody.set_InverseMass im RigidBody.new)) in
  exists b3 b4 b m,
    RigidBody.CalculateDerivedQuantities false b2 = Ok b3 /\
    RigidBody.Set_XQVW X Q V W b3 = Ok b4 /\
    RigidBody.Activate b4 = Ok b /\
    RigidBody.Mass b = Ok m /\
    RigidBody.InverseMass b = im /\
    RigidBody.Position b = X /\ RigidBody.Velocity b = V /\
    RigidBody.AngularVelocity b = W /\
    RigidBody.LinearMomentum b = Quaternion.lscale m V /\
    versor b /\
    RigidBody.IsActive b = true /\ RigidBody.CanBeDeactivated b = false /\
    RigidBody.KineticEnergyThreshold b = 0.3 * mass /\
    RigidBody.AverageKineticEnergy b = 0.6 * m /\
    RigidBody.Force b = Quaternion.zero /\
    RigidBody.Torque b = Quaternion.zero.
Proof.
  intros im b2. rewrite CalculateDerivedQuantities_as_Set_XQVW.
  destruct (Set_XQVW_eq (RigidBody.Position b2) (RigidBody.Orientation b2)
              (RigidBody.Velocity b2) (RigidBody.AngularVelocity b2) b2)
    as (q3 & m3 & I3 & _ & _ & _ & _ & H3).
  cbv zeta in H3. rewrite H3.
  match type of H3 with _ = Ok ?r => set (b3 := r) in * end.
  destruct (Set_XQVW_eq X Q V W b3) as (q & m & I & _ & Hq & Hm & _ & H4).
  cbv zeta in H4.
  match type of H4 with _ = Ok ?r => set (b4 := r) in * end.
  destruct (Activate_inactive b4 eq_refl) as (m' & Hm' & Hact).
  assert (m' = m) as ->.
  { unfold RigidBody.Mass in Hm, Hm'. subst b4 b3 b2.
    cbn [RigidBody.InverseMass RigidBody.set_InverseInertiaBody
         RigidBody.set_KineticEnergyThreshold RigidBody.set_InverseMass]
      in Hm, Hm'.
    congruence. }
  exists b3, b4. eexists. exists m.
  split; [reflexivity |]. split; [exact H4 |]. split; [exact Hact |].
  unfold versor. subst b4 b3 b2. unfold RigidBody.Mass in *.
  revert Hm. body_members. intros Hm.
  repeat split; try reflexivity; assumption.
Qed.

(** X29: [Ball] always returns.  It creates one body, the last of the bodies,
    and a sphere of the given radius with this body.  The body is active,
    with the given position, velocity and angular velocity and no force or
    torque on it; its inverse mass encodes the given mass as [SetupMass]
    does, its linear momentum is [Mass ()] times the velocity, the threshold
    of its kinetic energy is 0.3 times the given mass and the average of its
    kinetic energy starts at 0.6 times [Mass ()]. *)
Theorem Ball_creates (s : Bodies) (X Q V W : Quaternion.t)
    (radius mass : R) :
  exists b g m,
    Utilities.Ball s X Q V W radius mass = Ok (s ++ [b], g) /\
    Geometry.Class g = Geometry._Sphere /\
    Geometry.Body g = Some (length s) /\
    Geometry.Radius g = radius /\
    RigidBody.Mass b = Ok m /\
    RigidBody.InverseMass b
    = (if decide (mass = 0) then 1e30
       else if decide (mass >= 1e30) then 0 else 1 / mass) /\
    RigidBody.Position b = X /\ RigidBody.Velocity b = V /\
    RigidBody.AngularVelocity b = W /\
    RigidBody.LinearMomentum b = Quaternion.lscale m V /\
    RigidBody.IsActive b = true /\
    RigidBody.KineticEnergyThreshold b = 0.3 * mass /\
    RigidBody.AverageKineticEnergy b = 0.6 * m /\
    RigidBody.Force b = Quaternion.zero /\
    RigidBody.Torque b = Quaternion.zero.
Proof.
  unfold Utilities.Ball. cbv zeta. unfold Geometry.Sphere_SetMass.
  cbn [Geometry.Body Geometry.Radius].
  rewrite load_last, bind_of_Ok, SetupMass_Ok, bind_of_Ok. cbv zeta.
  match goal with
  | |- context [RigidBody.SetMomentOfInertia ?I ?b] =>
      destruct (SetMomentOfInertia_total I b) as (inv & ->)
  end.
  rewrite bind_of_Ok.
  destruct (creation X Q V W mass inv)
    as (b3 & b4 & b & m & H3 & H4 & Hact & Hm & Him & HX & HV & HW & HP
        & _ & HA & _ & Hthr & Havg & HF & HT).
  cbv zeta in H3. rewrite H3, bind_of_Ok, store_last, bind_of_Ok.
  rewrite load_last, bind_of_Ok, H4, bind_of_Ok, Hact, bind_of_Ok.
  rewrite store_last, bind_of_Ok.
  exists b. eexists. exists m. split; [reflexivity |].
  cbn [Geometry.Class Geometry.Body Geometry.Radius].
  repeat split; first [reflexivity | assumption].
Qed.

(** X30: [Box] always returns.  It creates one body, the last of the bodies,
    and a cuboid of the given half extent with this body.  The body is active,
    with the given position, velocity and angular velocity and no force or
    torque on it; its inverse mass encodes the given mass as [SetupMass]
    does, its linear momentum is [Mass ()] times the velocity, the threshold
    of its kinetic energy is 0.3 times the given mass and the average of its
    kinetic energy starts at 0.6 times [Mass ()]. *)
Theorem Box_creates (s : Bodies) (X Q V W halfExtent : Quaternion.t)
    (mass : R) :
  exists b g m,
    Utilities.Box s X Q V W halfExtent mass = Ok (s ++ [b], g) /\
    Geometry.Class g = Geometry._Cuboid /\
    Geometry.Body g = Some (length s) /\
    Geometry.HalfExtent g = halfExtent /\
    RigidBody.Mass b = Ok m /\
    RigidBody.InverseMass b
    = (if decide (mass = 0) then 1e30
       else if decide (mass >= 1e30) then 0 else 1 / mass) /\
    RigidBody.Position b = X /\ RigidBody.Velocity b = V /\
    RigidBody.AngularVelocity b = W /\
    RigidBody.LinearMomentum b = Quaternion.lscale m V /\
    RigidBody.IsActive b = true /\
    RigidBody.KineticEnergyThreshold b = 0.3 * mass /\
    RigidBody.AverageKineticEnergy b = 0.6 * m /\
    RigidBody.Force b = Quaternion.zero /\
    RigidBody.Torque b = Quaternion.zero.
Proof.
  unfold Utilities.Box. cbv zeta. unfold Geometry.Cuboid_SetMass.
  cbn [Geometry.Body Geometry.HalfExtent].
  rewrite load_last, bind_of_Ok, SetupMass_Ok, bind_of_Ok. cbv zeta.
  rewrite !fdiv_Ok by lra. rewrite !bind_of_Ok.
  match goal with
  | |- context [RigidBody.SetMomentOfInertia ?I ?b] =>
      destruct (SetMomentOfInertia_total I b) as (inv & ->)
  end.
  rewrite bind_of_Ok.
  destruct (creation X Q V W mass inv)
    as (b3 & b4 & b & m & H3 & H4 & Hact & Hm & Him & HX & HV & HW & HP
        & _ & HA & _ & Hthr & Havg & HF & HT).
  cbv zeta in H3. rewrite H3, bind_of_Ok, store_last, bind_of_Ok.
  rewrite load_last, bind_of_Ok, H4, bind_of_Ok, Hact, bind_of_Ok.
  rewrite store_last, bind_of_Ok.
  exists b. eexists. exists m. split; [reflexivity |].
  cbn [Geometry.Class Geometry.Body Geometry.HalfExtent].
  repeat split; first [reflexivity | assumption].
Qed.
